(** * Fixed-size buffer descriptors and pools (buffer.c / buffer.h)

    A shallow embedding of the allocator: the three structs are records,
    the objects the C code reaches through pointers live in a typed
    memory, and every function of buffer.c is a computation in a small
    state-and-fault monad over that memory. *)

From Stdlib Require Import NArith Lia List.
From stdpp Require Import base option numbers list gmap.

Open Scope N_scope.

(** ** Data model (buffer.h) *)

(** [uint8_t *] is an address, [0] being [NULL]; [size_t] is a natural
    number whose wrap-around is written out where the code computes with it. *)
Definition NULL : N := 0.

(** [buffer_st]. *)
Record buffer_st := mk_buffer {
  data_u8p : N;
  capacity_bytes : N;
  is_available : bool;
  is_initialized : bool
}.

(** [buffer_pool_st]. A [buffer_st *] is [None] for [NULL] and otherwise the
    address of a descriptor cell; element [i] of an array at [a] is the
    cell [a + i]. *)
Record buffer_pool_st := mk_pool {
  buffer_array_sa : option N;
  buffer_count : N;
  pool_is_initialized : bool
}.

(** [buffer_array_ctx_st]; the pool is embedded by value. *)
Record buffer_array_ctx_st := mk_ctx {
  pool_s : buffer_pool_st;
  ctx_buffer_array_sa : option N;
  memory_block_u8p : N;
  ctx_buffer_count : N;
  buffer_size : N;
  ctx_is_initialized : bool
}.

(** A [buffer_pool_st *] points at a pool object of its own or at the
    [pool_s] member of a context ([&ctx_sp->pool_s]). *)
Inductive pool_ref :=
  | PoolObj (l : N)
  | PoolOfCtx (c : N).

#[global] Instance pool_ref_eq_dec : EqDecision pool_ref.
Proof. solve_decision. Defined.

(** The memory: one typed store per struct. *)
Record memory := mk_memory {
  descs : gmap N buffer_st;
  pools : gmap N buffer_pool_st;
  ctxs : gmap N buffer_array_ctx_st
}.

Definition set_descs (m : memory) (d : gmap N buffer_st) : memory :=
  {| descs := d; pools := pools m; ctxs := ctxs m |}.
Definition set_pools (m : memory) (p : gmap N buffer_pool_st) : memory :=
  {| descs := descs m; pools := p; ctxs := ctxs m |}.
Definition set_ctxs (m : memory) (c : gmap N buffer_array_ctx_st) : memory :=
  {| descs := descs m; pools := pools m; ctxs := c |}.

(** Field assignments. *)
Definition with_data_u8p (v : N) (b : buffer_st) : buffer_st :=
  {| data_u8p := v; capacity_bytes := capacity_bytes b;
     is_available := is_available b; is_initialized := is_initialized b |}.
Definition with_capacity_bytes (v : N) (b : buffer_st) : buffer_st :=
  {| data_u8p := data_u8p b; capacity_bytes := v;
     is_available := is_available b; is_initialized := is_initialized b |}.
Definition with_is_available (v : bool) (b : buffer_st) : buffer_st :=
  {| data_u8p := data_u8p b; capacity_bytes := capacity_bytes b;
     is_available := v; is_initialized := is_initialized b |}.
Definition with_is_initialized (v : bool) (b : buffer_st) : buffer_st :=
  {| data_u8p := data_u8p b; capacity_bytes := capacity_bytes b;
     is_available := is_available b; is_initialized := v |}.

Definition with_buffer_array_sa (v : option N) (p : buffer_pool_st) : buffer_pool_st :=
  {| buffer_array_sa := v; buffer_count := buffer_count p;
     pool_is_initialized := pool_is_initialized p |}.
Definition with_buffer_count (v : N) (p : buffer_pool_st) : buffer_pool_st :=
  {| buffer_array_sa := buffer_array_sa p; buffer_count := v;
     pool_is_initialized := pool_is_initialized p |}.
Definition with_pool_is_initialized (v : bool) (p : buffer_pool_st) : buffer_pool_st :=
  {| buffer_array_sa := buffer_array_sa p; buffer_count := buffer_count p;
     pool_is_initialized := v |}.

Definition with_pool_s (v : buffer_pool_st) (c : buffer_array_ctx_st) : buffer_array_ctx_st :=
  {| pool_s := v; ctx_buffer_array_sa := ctx_buffer_array_sa c;
     memory_block_u8p := memory_block_u8p c; ctx_buffer_count := ctx_buffer_count c;
     buffer_size := buffer_size c; ctx_is_initialized := ctx_is_initialized c |}.
Definition with_ctx_buffer_array_sa (v : option N) (c : buffer_array_ctx_st) : buffer_array_ctx_st :=
  {| pool_s := pool_s c; ctx_buffer_array_sa := v;
     memory_block_u8p := memory_block_u8p c; ctx_buffer_count := ctx_buffer_count c;
     buffer_size := buffer_size c; ctx_is_initialized := ctx_is_initialized c |}.
Definition with_memory_block_u8p (v : N) (c : buffer_array_ctx_st) : buffer_array_ctx_st :=
  {| pool_s := pool_s c; ctx_buffer_array_sa := ctx_buffer_array_sa c;
     memory_block_u8p := v; ctx_buffer_count := ctx_buffer_count c;
     buffer_size := buffer_size c; ctx_is_initialized := ctx_is_initialized c |}.
Definition with_ctx_buffer_count (v : N) (c : buffer_array_ctx_st) : buffer_array_ctx_st :=
  {| pool_s := pool_s c; ctx_buffer_array_sa := ctx_buffer_array_sa c;
     memory_block_u8p := memory_block_u8p c; ctx_buffer_count := v;
     buffer_size := buffer_size c; ctx_is_initialized := ctx_is_initialized c |}.
Definition with_buffer_size (v : N) (c : buffer_array_ctx_st) : buffer_array_ctx_st :=
  {| pool_s := pool_s c; ctx_buffer_array_sa := ctx_buffer_array_sa c;
     memory_block_u8p := memory_block_u8p c; ctx_buffer_count := ctx_buffer_count c;
     buffer_size := v; ctx_is_initialized := ctx_is_initialized c |}.
Definition with_ctx_is_initialized (v : bool) (c : buffer_array_ctx_st) : buffer_array_ctx_st :=
  {| pool_s := pool_s c; ctx_buffer_array_sa := ctx_buffer_array_sa c;
     memory_block_u8p := memory_block_u8p c; ctx_buffer_count := ctx_buffer_count c;
     buffer_size := buffer_size c; ctx_is_initialized := v |}.

(** ** The monad of C computations

    A computation reads and writes the memory and faults ([None]) when it
    dereferences [NULL] or an address that holds no object. *)
Definition M (A : Type) : Type := memory -> option (A * memory).

Definition ret {A} (x : A) : M A := fun m => Some (x, m).
Definition fault {A} : M A := fun _ => None.
Definition bind {A B} (c : M A) (k : A -> M B) : M B :=
  fun m => match c m with
           | Some (x, m') => k x m'
           | None => None
           end.

Notation "x <- c ;; k" := (bind c (fun x => k))
  (at level 100, c at next level, right associativity).
Notation "c ;; k" := (bind c (fun _ => k))
  (at level 100, right associativity).

(** [*p] for a descriptor pointer. *)
Definition deref (p : option N) : M buffer_st :=
  fun m => match p with
           | Some a => match descs m !! a with
                       | Some b => Some (b, m)
                       | None => None
                       end
           | None => None
           end.

(** [p->field = v] for a descriptor pointer. *)
Definition assign (p : option N) (f : buffer_st -> buffer_st) : M unit :=
  fun m => match p with
           | Some a => match descs m !! a with
                       | Some b => Some (tt, set_descs m (<[a := f b]> (descs m)))
                       | None => None
                       end
           | None => None
           end.

Definition lookup_pool (r : pool_ref) (m : memory) : option buffer_pool_st :=
  match r with
  | PoolObj l => pools m !! l
  | PoolOfCtx c => pool_s <$> ctxs m !! c
  end.

(** [*p] for a pool pointer. *)
Definition deref_pool (p : option pool_ref) : M buffer_pool_st :=
  fun m => match p with
           | Some r => match lookup_pool r m with
                       | Some pl => Some (pl, m)
                       | None => None
                       end
           | None => None
           end.

(** [p->field = v] for a pool pointer. *)
Definition assign_pool (p : option pool_ref) (f : buffer_pool_st -> buffer_pool_st) : M unit :=
  fun m => match p with
           | Some (PoolObj l) =>
               match pools m !! l with
               | Some pl => Some (tt, set_pools m (<[l := f pl]> (pools m)))
               | None => None
               end
           | Some (PoolOfCtx c) =>
               match ctxs m !! c with
               | Some cx => Some (tt, set_ctxs m (<[c := with_pool_s (f (pool_s cx)) cx]> (ctxs m)))
               | None => None
               end
           | None => None
           end.

(** [*p] and [p->field = v] for a context pointer. *)
Definition deref_ctx (p : option N) : M buffer_array_ctx_st :=
  fun m => match p with
           | Some c => match ctxs m !! c with
                       | Some cx => Some (cx, m)
                       | None => None
                       end
           | None => None
           end.

Definition assign_ctx (p : option N) (f : buffer_array_ctx_st -> buffer_array_ctx_st) : M unit :=
  fun m => match p with
           | Some c => match ctxs m !! c with
                       | Some cx => Some (tt, set_ctxs m (<[c := f cx]> (ctxs m)))
                       | None => None
                       end
           | None => None
           end.

(** [&array[index]]. *)
Definition elem (array : option N) (index : N) : M (option N) :=
  match array with
  | Some a => ret (Some (a + index))
  | None => fault
  end.

Definition is_null {A} (p : option A) : bool :=
  match p with
  | Some _ => false
  | None => true
  end.

(** ** Static functions *)

Definition buffer_is_valid (buffer_csp : option N) : M bool :=
  if is_null buffer_csp then ret false
  else b <- deref buffer_csp ;; ret (is_initialized b).

Definition buffer_pool_is_valid (pool_csp : option pool_ref) : M bool :=
  if is_null pool_csp then ret false
  else
    pl <- deref_pool pool_csp ;;
    ret (pool_is_initialized pl
         && negb (is_null (buffer_array_sa pl))
         && (0 <? buffer_count pl)).

(** ** Single buffer API *)

Definition buffer_init (buffer_sp : option N) (memory_u8p : N) (capacity : N) : M unit :=
  if is_null buffer_sp then ret tt
  else
    assign buffer_sp (with_data_u8p memory_u8p) ;;
    assign buffer_sp (with_capacity_bytes capacity) ;;
    assign buffer_sp (with_is_initialized true) ;;
    if negb (memory_u8p =? NULL) && negb (capacity =? 0)
    then assign buffer_sp (with_is_available true)
    else assign buffer_sp (with_is_available false).

(** [buffer_data]: the flag tells whether [capacity_bytes_out_p] is
    non-[NULL]; the value stored through it is returned next to the
    pointer. *)
Definition buffer_data (buffer_csp : option N) (capacity_bytes_out_p : bool)
  : M (N * option N) :=
  out <- (if capacity_bytes_out_p
          then
            v <- buffer_is_valid buffer_csp ;;
            if v then b <- deref buffer_csp ;; ret (Some (capacity_bytes b))
            else ret (Some 0)
          else ret None) ;;
  v <- buffer_is_valid buffer_csp ;;
  if v then b <- deref buffer_csp ;; ret (data_u8p b, out)
  else ret (NULL, out).

Definition buffer_mark_free (buffer_sp : option N) : M unit :=
  v <- buffer_is_valid buffer_sp ;;
  if v then assign buffer_sp (with_is_available true) else ret tt.

Definition buffer_mark_in_use (buffer_sp : option N) : M unit :=
  v <- buffer_is_valid buffer_sp ;;
  if v then assign buffer_sp (with_is_available false) else ret tt.

(** ** Pool API *)

Definition buffer_pool_init (pool_sp : option pool_ref) (array : option N) (count : N)
  : M unit :=
  if is_null pool_sp || is_null array || (count =? 0) then ret tt
  else
    assign_pool pool_sp (with_buffer_array_sa array) ;;
    assign_pool pool_sp (with_buffer_count count) ;;
    assign_pool pool_sp (with_pool_is_initialized true).

(** The loop of [buffer_pool_acquire], with [n] iterations left; the loop
    body writes no pool object, so the array and the count are those read
    on entry, and [index] stays below the count, so [++index] does not
    wrap. *)
Fixpoint acquire_scan (n : nat) (array : option N) (index : N) : M (option N) :=
  match n with
  | O => ret None
  | S n' =>
      current_sp <- elem array index ;;
      v <- buffer_is_valid current_sp ;;
      a <- (if v then b <- deref current_sp ;; ret (is_available b) else ret false) ;;
      if a then assign current_sp (with_is_available false) ;; ret current_sp
      else acquire_scan n' array (index + 1)
  end.

Definition buffer_pool_acquire (pool_sp : option pool_ref) : M (option N) :=
  v <- buffer_pool_is_valid pool_sp ;;
  if negb v then ret None
  else
    pl <- deref_pool pool_sp ;;
    acquire_scan (N.to_nat (buffer_count pl)) (buffer_array_sa pl) 0.

(** The loop of [buffer_pool_find], with [n] iterations left. *)
Fixpoint find_scan (n : nat) (array : option N) (index : N) (memory_u8p : N)
  : M (option N) :=
  match n with
  | O => ret None
  | S n' =>
      current_sp <- elem array index ;;
      v <- buffer_is_valid current_sp ;;
      e <- (if v then b <- deref current_sp ;; ret (data_u8p b =? memory_u8p)
            else ret false) ;;
      if e then ret current_sp
      else find_scan n' array (index + 1) memory_u8p
  end.

Definition buffer_pool_find (pool_sp : option pool_ref) (memory_u8p : N) : M (option N) :=
  v <- buffer_pool_is_valid pool_sp ;;
  if negb v || (memory_u8p =? NULL) then ret None
  else
    pl <- deref_pool pool_sp ;;
    find_scan (N.to_nat (buffer_count pl)) (buffer_array_sa pl) 0 memory_u8p.

Definition buffer_pool_release_by_ptr (pool_sp : option pool_ref) (memory_u8p : N) : M bool :=
  buffer_sp <- buffer_pool_find pool_sp memory_u8p ;;
  if is_null buffer_sp then ret false
  else buffer_mark_free buffer_sp ;; ret true.

(** The loop of [buffer_pool_mark_all_free], with [n] iterations left. *)
Fixpoint mark_all_scan (n : nat) (array : option N) (index : N) : M unit :=
  match n with
  | O => ret tt
  | S n' =>
      current_sp <- elem array index ;;
      v <- buffer_is_valid current_sp ;;
      (if v then assign current_sp (with_is_available true) else ret tt) ;;
      mark_all_scan n' array (index + 1)
  end.

Definition buffer_pool_mark_all_free (pool_sp : option pool_ref) : M unit :=
  v <- buffer_pool_is_valid pool_sp ;;
  if negb v then ret tt
  else
    pl <- deref_pool pool_sp ;;
    mark_all_scan (N.to_nat (buffer_count pl)) (buffer_array_sa pl) 0.

(** ** Buffer array context API *)

(** [&ctx_sp->pool_s]. *)
Definition pool_of (ctx_sp : option N) : option pool_ref :=
  match ctx_sp with
  | Some c => Some (PoolOfCtx c)
  | None => None
  end.

Section SizeT.

(** The width of [size_t] on the target. *)
Variable size_bits : N.

(** Unsigned multiplication in [size_t]. *)
Definition size_mul (x y : N) : N := (x * y) mod 2 ^ size_bits.

(** The [len] bytes at [p] are a memory block of the target: [p] is not
    [NULL] and the block ends inside the address space. *)
Definition valid_block (p len : N) : Prop :=
  p <> NULL /\ p + len <= 2 ^ size_bits.

(** [&p[off]]: the address [off] bytes after [p]; addresses are as wide as
    [size_t] and wrap with it. *)
Definition ptr_index (p off : N) : N := (p + off) mod 2 ^ size_bits.

(** The loop of [buffer_array_ctx_init], with [n] iterations left. The
    offset is computed in [size_t]. *)
Fixpoint ctx_init_scan (n : nat) (array : option N) (memory_block_u8p : N)
    (index : N) (size : N) : M unit :=
  match n with
  | O => ret tt
  | S n' =>
      let chunk_u8p := ptr_index memory_block_u8p (size_mul index size) in
      buffer_sp <- elem array index ;;
      buffer_init buffer_sp chunk_u8p size ;;
      ctx_init_scan n' array memory_block_u8p (index + 1) size
  end.

Definition buffer_array_ctx_init (ctx_sp : option N) (array : option N)
    (memory_block : N) (count : N) (size : N) : M unit :=
  if is_null ctx_sp || is_null array || (memory_block =? NULL)
     || (count =? 0) || (size =? 0)
  then ret tt
  else
    assign_ctx ctx_sp (with_ctx_buffer_array_sa array) ;;
    assign_ctx ctx_sp (with_memory_block_u8p memory_block) ;;
    assign_ctx ctx_sp (with_ctx_buffer_count count) ;;
    assign_ctx ctx_sp (with_buffer_size size) ;;
    ctx_init_scan (N.to_nat count) array memory_block 0 size ;;
    buffer_pool_init (pool_of ctx_sp) array count ;;
    assign_ctx ctx_sp (with_ctx_is_initialized true).

End SizeT.

(** [(NULL == ctx_sp) || (false == ctx_sp->is_initialized)]. *)
Definition ctx_unusable (ctx_sp : option N) : M bool :=
  if is_null ctx_sp then ret true
  else cx <- deref_ctx ctx_sp ;; ret (negb (ctx_is_initialized cx)).

Definition buffer_array_acquire (ctx_sp : option N) : M (option N) :=
  g <- ctx_unusable ctx_sp ;;
  if g then ret None else buffer_pool_acquire (pool_of ctx_sp).

Definition buffer_array_find_by_ptr (ctx_sp : option N) (memory_u8p : N) : M (option N) :=
  g <- ctx_unusable ctx_sp ;;
  if g then ret None else buffer_pool_find (pool_of ctx_sp) memory_u8p.

Definition buffer_array_release_by_ptr (ctx_sp : option N) (memory_u8p : N) : M bool :=
  g <- ctx_unusable ctx_sp ;;
  if g then ret false else buffer_pool_release_by_ptr (pool_of ctx_sp) memory_u8p.

(** ** Sequences of calls *)

(** The calls a client makes once its descriptors are set up: everything
    but [buffer_init] and [buffer_array_ctx_init], which (re)bind
    descriptors. *)
Inductive op :=
  | OpData (buffer_csp : option N) (capacity_bytes_out_p : bool)
  | OpMarkFree (buffer_sp : option N)
  | OpMarkInUse (buffer_sp : option N)
  | OpPoolInit (pool_sp : option pool_ref) (array : option N) (count : N)
  | OpAcquire (pool_sp : option pool_ref)
  | OpFind (pool_sp : option pool_ref) (memory_u8p : N)
  | OpRelease (pool_sp : option pool_ref) (memory_u8p : N)
  | OpMarkAllFree (pool_sp : option pool_ref)
  | OpCtxAcquire (ctx_sp : option N)
  | OpCtxFind (ctx_sp : option N) (memory_u8p : N)
  | OpCtxRelease (ctx_sp : option N) (memory_u8p : N).

Inductive result :=
  | RVoid
  | RData (memory_u8p : N) (capacity_out : option N)
  | RDesc (buffer_sp : option N)
  | RBool (b : bool).

Definition run_op (o : op) : M result :=
  match o with
  | OpData p out => r <- buffer_data p out ;; ret (RData (fst r) (snd r))
  | OpMarkFree p => buffer_mark_free p ;; ret RVoid
  | OpMarkInUse p => buffer_mark_in_use p ;; ret RVoid
  | OpPoolInit p a n => buffer_pool_init p a n ;; ret RVoid
  | OpAcquire p => r <- buffer_pool_acquire p ;; ret (RDesc r)
  | OpFind p x => r <- buffer_pool_find p x ;; ret (RDesc r)
  | OpRelease p x => r <- buffer_pool_release_by_ptr p x ;; ret (RBool r)
  | OpMarkAllFree p => buffer_pool_mark_all_free p ;; ret RVoid
  | OpCtxAcquire c => r <- buffer_array_acquire c ;; ret (RDesc r)
  | OpCtxFind c x => r <- buffer_array_find_by_ptr c x ;; ret (RDesc r)
  | OpCtxRelease c x => r <- buffer_array_release_by_ptr c x ;; ret (RBool r)
  end.

Fixpoint run_ops (os : list op) : M (list result) :=
  match os with
  | [] => ret []
  | o :: os' => r <- run_op o ;; rs <- run_ops os' ;; ret (r :: rs)
  end.

(** [k] calls of [buffer_pool_acquire] in a row, results in call order. *)
Fixpoint acquire_many (k : nat) (pool_sp : option pool_ref) : M (list (option N)) :=
  match k with
  | O => ret []
  | S k' => r <- buffer_pool_acquire pool_sp ;;
            rs <- acquire_many k' pool_sp ;;
            ret (r :: rs)
  end.

(** ** Predicates on memories *)

(** The cells [a], ..., [a + n - 1] hold descriptors. *)
Definition allocated (m : memory) (a n : N) : Prop :=
  forall i, i < n -> is_Some (descs m !! (a + i)).

(** An initialized descriptor that is available. *)
Definition is_free (o : option buffer_st) : bool :=
  match o with
  | Some b => is_initialized b && is_available b
  | None => false
  end.

(** An initialized descriptor with the backing pointer [p]. *)
Definition matches (p : N) (o : option buffer_st) : bool :=
  match o with
  | Some b => is_initialized b && (data_u8p b =? p)
  | None => false
  end.

(** What [buffer_pool_is_valid] tests on the pool object. *)
Definition pool_valid (pl : buffer_pool_st) : bool :=
  pool_is_initialized pl && negb (is_null (buffer_array_sa pl)) && (0 <? buffer_count pl).

(** A demonstration memory: descriptors at cells 10, 11, 12 (the first in
    use, the others free), a pool object at 1 over them, an untouched
    pool object at 2, a context at 5 bound to the same array and a
    zeroed context at 6. *)
Definition demo_descs : gmap N buffer_st :=
  <[10 := mk_buffer 1000 64 false true]>
  (<[11 := mk_buffer 1064 64 true true]>
  (<[12 := mk_buffer 1128 64 true true]> ∅)).

Definition demo_pool : buffer_pool_st := mk_pool (Some 10) 3 true.
Definition zero_pool : buffer_pool_st := mk_pool None 0 false.

Definition demo_memory : memory :=
  {| descs := demo_descs;
     pools := <[1 := demo_pool]> (<[2 := zero_pool]> ∅);
     ctxs := <[5 := mk_ctx demo_pool (Some 10) 1000 3 64 true]>
             (<[6 := mk_ctx zero_pool None 0 0 0 false]> ∅) |}.

(** A memory whose pool (object 3, cells 20 to 22) has two descriptors,
    at indices 1 and 2, with the same backing pointer. *)
Definition dup_pool : buffer_pool_st := mk_pool (Some 20) 3 true.

Definition dup_memory : memory :=
  {| descs := <[20 := mk_buffer 500 32 false true]>
              (<[21 := mk_buffer 700 32 false true]>
              (<[22 := mk_buffer 700 32 true true]> ∅));
     pools := <[3 := dup_pool]> ∅;
     ctxs := ∅ |}.

(** A memory whose pool (object 4, cells 30 and 31) has every descriptor
    free. *)
Definition fresh_pool : buffer_pool_st := mk_pool (Some 30) 2 true.

Definition fresh_memory : memory :=
  {| descs := <[30 := mk_buffer 2000 16 true true]>
              (<[31 := mk_buffer 2016 16 true true]> ∅);
     pools := <[4 := fresh_pool]> ∅;
     ctxs := ∅ |}.

(** Static storage before set-up: four zeroed descriptors at cells 40 to
    43 and a zeroed context at 7. *)
Definition zero_buffer : buffer_st := mk_buffer NULL 0 false false.
Definition zero_ctx : buffer_array_ctx_st := mk_ctx zero_pool None NULL 0 0 false.

Definition ring_memory : memory :=
  {| descs := <[40 := zero_buffer]> (<[41 := zero_buffer]>
              (<[42 := zero_buffer]> (<[43 := zero_buffer]> ∅)));
     pools := ∅;
     ctxs := <[7 := zero_ctx]> ∅ |}.

(** A client session on [demo_memory]: two acquisitions, a release of
    the second chunk by address, and a third acquisition, through the pool
    and through the context. *)
Definition demo_trace : list op :=
  [ OpAcquire (Some (PoolObj 1));
    OpCtxAcquire (Some 5);
    OpFind (Some (PoolObj 1)) 1128;
    OpCtxRelease (Some 5) 1128;
    OpData (Some 12) true;
    OpAcquire (Some (PoolObj 1)) ].

(** A pool (object 10, cells 70 and 71) whose two descriptors were both
    initialized without backing memory. *)
Definition null_dup_pool : buffer_pool_st := mk_pool (Some 70) 2 true.

Definition null_dup_memory : memory :=
  {| descs := <[70 := mk_buffer NULL 8 false true]>
              (<[71 := mk_buffer NULL 8 false true]> ∅);
     pools := <[10 := null_dup_pool]> ∅;
     ctxs := ∅ |}.

(** ** Auxiliary definitions for the proofs *)

(** The first cell among [a + idx], ..., [a + idx + n - 1] that holds an
    initialized descriptor with backing pointer [p]. *)
Fixpoint first_match (n : nat) (d : gmap N buffer_st) (a idx p : N) : option N :=
  match n with
  | O => None
  | S n' => if matches p (d !! (a + idx)) then Some (a + idx)
            else first_match n' d a (idx + 1) p
  end.

(** The descriptor array of a pool that passes the validity test is in
    memory. *)
Definition pool_safe (m : memory) (pl : buffer_pool_st) : Prop :=
  pool_valid pl = true ->
  forall a, buffer_array_sa pl = Some a -> allocated m a (buffer_count pl).

(** What [buffer_pool_find] computes on an object in memory. *)
Definition find_result (m : memory) (pl : buffer_pool_st) (p : N) : option N :=
  match buffer_array_sa pl with
  | Some a =>
      if pool_valid pl && negb (p =? NULL)
      then first_match (N.to_nat (buffer_count pl)) (descs m) a 0 p
      else None
  | None => None
  end.

(** Two memories whose descriptor cells differ at most in availability
    flags. *)
Definition cells_agree (m m' : memory) : Prop :=
  forall x, with_is_available false <$> descs m !! x
            = with_is_available false <$> descs m' !! x.

(** Two memories that differ at most in availability flags. *)
Definition same_but_availability (m m' : memory) : Prop :=
  pools m = pools m' /\ ctxs m = ctxs m' /\ cells_agree m m'.

(** [m'] is [m] with the availability of the initialized descriptor [d]
    set to [v]. *)
Definition flips (v : bool) (d : N) (m m' : memory) : Prop :=
  exists b, descs m !! d = Some b /\ is_initialized b = true
            /\ m' = set_descs m (<[d := with_is_available v b]> (descs m)).

(** An initialized descriptor that is in use. *)
Definition held (d : N) (m : memory) : Prop :=
  exists b, descs m !! d = Some b /\ is_initialized b = true
            /\ is_available b = false.

(** The calls that hand out descriptors. *)
Definition is_acquire (o : op) : bool :=
  match o with
  | OpAcquire _ | OpCtxAcquire _ => true
  | _ => false
  end.

(** The calls that may make descriptor [d] available again: a release of
    its backing pointer, [buffer_mark_free] on it, and
    [buffer_pool_mark_all_free]. *)
Definition frees (m : memory) (d : N) (o : op) : bool :=
  match o with
  | OpMarkFree p => bool_decide (p = Some d)
  | OpMarkAllFree _ => true
  | OpRelease _ x | OpCtxRelease _ x =>
      match descs m !! d with
      | Some b => data_u8p b =? x
      | None => false
      end
  | _ => false
  end.

(** The addresses of the [k] array elements from index [j] on. *)
Fixpoint cells (a j : N) (k : nat) : list N :=
  match k with
  | O => []
  | S k' => (a + j) :: cells a (j + 1) k'
  end.

(** The descriptor store after the loop of [buffer_array_ctx_init] has
    run its [n] remaining iterations from [index] on. *)
Fixpoint init_cells (size_bits : N) (n : nat) (d : gmap N buffer_st)
    (a memory_block index size : N) : gmap N buffer_st :=
  match n with
  | O => d
  | S n' =>
      let chunk := ptr_index size_bits memory_block (size_mul size_bits index size) in
      init_cells size_bits n'
        (<[a + index := mk_buffer chunk size
                          (negb (chunk =? NULL) && negb (size =? 0)) true]> d)
        a memory_block (index + 1) size
  end.

(** Pointers that are [NULL] or point at an object in memory. *)
Definition desc_ptr_ok (m : memory) (p : option N) : Prop :=
  match p with
  | Some a => is_Some (descs m !! a)
  | None => True
  end.

Definition pool_ptr_ok (m : memory) (p : option pool_ref) : Prop :=
  match p with
  | Some r => is_Some (lookup_pool r m)
  | None => True
  end.

Definition ctx_ptr_ok (m : memory) (c : option N) : Prop :=
  match c with
  | Some x => is_Some (ctxs m !! x)
  | None => True
  end.

(** Every pool in memory that passes the validity test has its array in
    memory. *)
Definition memory_ok (m : memory) : Prop :=
  forall r pl, lookup_pool r m = Some pl -> pool_safe m pl.

(** A call whose pointer arguments are [NULL] or point at objects, and
    which binds a pool only to an array that is in memory. *)
Definition op_ok (m : memory) (o : op) : Prop :=
  match o with
  | OpData p _ | OpMarkFree p | OpMarkInUse p => desc_ptr_ok m p
  | OpPoolInit p array count =>
      pool_ptr_ok m p /\ forall a, array = Some a -> allocated m a count
  | OpAcquire p | OpFind p _ | OpRelease p _ | OpMarkAllFree p => pool_ptr_ok m p
  | OpCtxAcquire c | OpCtxFind c _ | OpCtxRelease c _ => ctx_ptr_ok m c
  end.

(** [m'] has an object wherever [m] has one. *)
Definition extends (m m' : memory) : Prop :=
  (forall x, is_Some (descs m !! x) -> is_Some (descs m' !! x))
  /\ (forall r, is_Some (lookup_pool r m) -> is_Some (lookup_pool r m'))
  /\ (forall c, is_Some (ctxs m !! c) -> is_Some (ctxs m' !! c)).

(** ** Further sequences and memories *)

(** [k] calls of [buffer_array_acquire] in a row, results in call order. *)
Fixpoint ctx_acquire_many (k : nat) (ctx_sp : option N) : M (list (option N)) :=
  match k with
  | O => ret []
  | S k' => r <- buffer_array_acquire ctx_sp ;;
            rs <- ctx_acquire_many k' ctx_sp ;;
            ret (r :: rs)
  end.

(** What the body of the loop of [buffer_pool_mark_all_free] does to one
    descriptor. *)
Definition freed (b : buffer_st) : buffer_st :=
  if is_initialized b then with_is_available true b else b.

(** The descriptor store after the loop of [buffer_pool_mark_all_free]
    has run its [n] remaining iterations from [index] on. *)
Fixpoint free_cells (n : nat) (d : gmap N buffer_st) (a index : N) : gmap N buffer_st :=
  match n with
  | O => d
  | S n' =>
      free_cells n'
        (match d !! (a + index) with
         | Some b => if is_initialized b
                     then <[a + index := with_is_available true b]> d
                     else d
         | None => d
         end)
        a (index + 1)
  end.

(** Static storage with a pool object (8) but descriptors (cells 50, 51)
    that [buffer_init] never touched. *)
Definition raw_memory : memory :=
  {| descs := <[50 := zero_buffer]> (<[51 := zero_buffer]> ∅);
     pools := <[8 := zero_pool]> ∅;
     ctxs := ∅ |}.

(** A pool (object 9, cell 60) whose only descriptor was initialized
    without backing memory and is in use. *)
Definition phantom_pool : buffer_pool_st := mk_pool (Some 60) 1 true.

Definition phantom_memory : memory :=
  {| descs := <[60 := mk_buffer NULL 0 false true]> ∅;
     pools := <[9 := phantom_pool]> ∅;
     ctxs := ∅ |}.

(** The call that rebinds a pool object. *)
Definition is_pool_init (o : op) : bool :=
  match o with
  | OpPoolInit _ _ _ => true
  | _ => false
  end.

(** * Properties *)

(** ** Basic facts about the monad and the memory accesses *)

Lemma deref_at m a b :
  descs m !! a = Some b -> deref (Some a) m = Some (b, m).
Proof. intros H. unfold deref. now rewrite H. Qed.

Lemma assign_at m a b f :
  descs m !! a = Some b ->
  assign (Some a) f m = Some (tt, set_descs m (<[a := f b]> (descs m))).
Proof. intros H. unfold assign. now rewrite H. Qed.

Lemma buffer_is_valid_at m a b :
  descs m !! a = Some b ->
  buffer_is_valid (Some a) m = Some (is_initialized b, m).
Proof. intros H. unfold buffer_is_valid, bind, ret, deref. simpl. now rewrite H. Qed.

Lemma buffer_is_valid_null m : buffer_is_valid None m = Some (false, m).
Proof. reflexivity. Qed.

Lemma deref_pool_at m r pl :
  lookup_pool r m = Some pl -> deref_pool (Some r) m = Some (pl, m).
Proof. intros H. unfold deref_pool. now rewrite H. Qed.

Lemma buffer_pool_is_valid_at m r pl :
  lookup_pool r m = Some pl ->
  buffer_pool_is_valid (Some r) m = Some (pool_valid pl, m).
Proof.
  intros H. unfold buffer_pool_is_valid, bind, ret, deref_pool. simpl.
  now rewrite H.
Qed.

Lemma set_descs_id m : set_descs m (descs m) = m.
Proof. now destruct m. Qed.

Lemma set_descs_twice m d1 d2 : set_descs (set_descs m d1) d2 = set_descs m d2.
Proof. reflexivity. Qed.

Lemma lookup_pool_set_descs r m d : lookup_pool r (set_descs m d) = lookup_pool r m.
Proof. now destruct r. Qed.

(** ** The scan of [buffer_pool_acquire] *)

Lemma acquire_scan_skip n m a idx :
  is_Some (descs m !! (a + idx)) ->
  is_free (descs m !! (a + idx)) = false ->
  acquire_scan (S n) (Some a) idx m = acquire_scan n (Some a) (idx + 1) m.
Proof.
  intros [b Hb] Hbusy. rewrite Hb in Hbusy. simpl in Hbusy.
  cbn [acquire_scan elem]. unfold bind at 1. unfold ret at 1.
  unfold bind at 1. rewrite (buffer_is_valid_at _ _ _ Hb).
  destruct (is_initialized b) eqn:Hi; simpl in Hbusy.
  - unfold bind at 1. unfold bind at 1. rewrite (deref_at _ _ _ Hb).
    unfold ret at 1. now rewrite Hbusy.
  - unfold bind at 1. now unfold ret at 1.
Qed.

Lemma acquire_scan_take n m a idx b :
  descs m !! (a + idx) = Some b ->
  is_initialized b = true -> is_available b = true ->
  acquire_scan (S n) (Some a) idx m
  = Some (Some (a + idx),
          set_descs m (<[a + idx := with_is_available false b]> (descs m))).
Proof.
  intros Hb Hi Ha.
  cbn [acquire_scan elem]. unfold bind at 1. unfold ret at 1.
  unfold bind at 1. rewrite (buffer_is_valid_at _ _ _ Hb), Hi.
  unfold bind at 1. unfold bind at 1. rewrite (deref_at _ _ _ Hb).
  unfold ret at 1. rewrite Ha.
  unfold bind. now rewrite (assign_at _ _ _ _ Hb).
Qed.

Lemma acquire_scan_none n : forall m a idx,
  (forall i, idx <= i < idx + N.of_nat n -> is_Some (descs m !! (a + i))) ->
  (forall i, idx <= i < idx + N.of_nat n -> is_free (descs m !! (a + i)) = false) ->
  acquire_scan n (Some a) idx m = Some (None, m).
Proof.
  induction n as [|n IH]; intros m a idx Hal Hbusy; [reflexivity|].
  rewrite acquire_scan_skip by (first [apply Hal | apply Hbusy]; lia).
  apply IH; intros i Hi; [apply Hal | apply Hbusy]; lia.
Qed.

Lemma acquire_scan_first n : forall m a idx j b,
  idx <= j < idx + N.of_nat n ->
  (forall i, idx <= i < j -> is_Some (descs m !! (a + i))) ->
  (forall i, idx <= i < j -> is_free (descs m !! (a + i)) = false) ->
  descs m !! (a + j) = Some b ->
  is_initialized b = true -> is_available b = true ->
  acquire_scan n (Some a) idx m
  = Some (Some (a + j),
          set_descs m (<[a + j := with_is_available false b]> (descs m))).
Proof.
  induction n as [|n IH]; intros m a idx j b Hj Hal Hbusy Hb Hi Ha; [lia|].
  destruct (N.eq_dec idx j) as [->|Hne].
  - now apply acquire_scan_take.
  - rewrite acquire_scan_skip by (first [apply Hal | apply Hbusy]; lia).
    apply IH; try assumption; try lia;
      intros i Hr; [apply Hal | apply Hbusy]; lia.
Qed.

(** [buffer_pool_acquire] on a pool object that passes the validity test. *)
Lemma buffer_pool_acquire_valid m r pl a :
  lookup_pool r m = Some pl -> pool_valid pl = true ->
  buffer_array_sa pl = Some a ->
  buffer_pool_acquire (Some r) m
  = acquire_scan (N.to_nat (buffer_count pl)) (Some a) 0 m.
Proof.
  intros Hl Hv Ha. unfold buffer_pool_acquire.
  unfold bind at 1. rewrite (buffer_pool_is_valid_at _ _ _ Hl), Hv. simpl.
  unfold bind. rewrite (deref_pool_at _ _ _ Hl). now rewrite Ha.
Qed.

Lemma buffer_pool_acquire_invalid m r pl :
  lookup_pool r m = Some pl -> pool_valid pl = false ->
  buffer_pool_acquire (Some r) m = Some (None, m).
Proof.
  intros Hl Hv. unfold buffer_pool_acquire.
  unfold bind at 1. now rewrite (buffer_pool_is_valid_at _ _ _ Hl), Hv.
Qed.

Lemma pool_valid_intro pl a :
  pool_is_initialized pl = true -> buffer_array_sa pl = Some a ->
  0 < buffer_count pl -> pool_valid pl = true.
Proof.
  intros Hi Ha Hc. unfold pool_valid. rewrite Hi, Ha. simpl.
  now apply N.ltb_lt.
Qed.

Lemma pool_valid_false pl :
  pool_is_initialized pl = false \/ buffer_array_sa pl = None \/ buffer_count pl = 0 ->
  pool_valid pl = false.
Proof.
  unfold pool_valid. intros [H|[H|H]]; rewrite H.
  - reflexivity.
  - simpl. now rewrite andb_false_r.
  - now rewrite andb_false_r.
Qed.

(** C1: on a pool that is non-absent, initialized, with a non-absent
    descriptor array and a count above zero, [buffer_pool_acquire] returns
    the descriptor at the lowest index that is initialized and available,
    and the only change to the memory is that this descriptor's
    availability is now false; it returns [NULL], changing nothing, when
    no descriptor of the array is initialized and available, when the pool
    pointer is [NULL], and when the pool is uninitialized, has a [NULL]
    array or a zero count. *)
Theorem acquire_returns_lowest_free (m : memory) (r : pool_ref) (pl : buffer_pool_st) :
  lookup_pool r m = Some pl ->
  (forall a, pool_is_initialized pl = true -> buffer_array_sa pl = Some a ->
             0 < buffer_count pl -> allocated m a (buffer_count pl) ->
     (forall j b, j < buffer_count pl ->
        descs m !! (a + j) = Some b ->
        is_initialized b = true -> is_available b = true ->
        (forall i, i < j -> is_free (descs m !! (a + i)) = false) ->
        buffer_pool_acquire (Some r) m
        = Some (Some (a + j),
                set_descs m (<[a + j := with_is_available false b]> (descs m))))
     /\ ((forall i, i < buffer_count pl -> is_free (descs m !! (a + i)) = false) ->
         buffer_pool_acquire (Some r) m = Some (None, m)))
  /\ (pool_is_initialized pl = false \/ buffer_array_sa pl = None
      \/ buffer_count pl = 0 ->
      buffer_pool_acquire (Some r) m = Some (None, m))
  /\ buffer_pool_acquire None m = Some (None, m).
Proof.
  intros Hl. split; [|split].
  - intros a Hi Ha Hc Hal.
    pose proof (pool_valid_intro _ _ Hi Ha Hc) as Hv.
    rewrite (buffer_pool_acquire_valid _ _ _ _ Hl Hv Ha). split.
    + intros j b Hj Hb Hbi Hba Hlow.
      apply acquire_scan_first; try assumption; try lia.
      * intros i Hr. apply Hal. lia.
      * intros i Hr. apply Hlow. lia.
    + intros Hnone. apply acquire_scan_none.
      * intros i Hr. apply Hal. lia.
      * intros i Hr. apply Hnone. lia.
  - intros H. apply (buffer_pool_acquire_invalid _ _ _ Hl). now apply pool_valid_false.
  - reflexivity.
Qed.

Lemma demo_allocated : allocated demo_memory 10 3.
Proof.
  intros i Hi.
  assert (i = 0 \/ i = 1 \/ i = 2) as [-> | [-> | ->]] by lia; vm_compute; eauto.
Qed.

Lemma acquire_returns_lowest_free_witness :
  buffer_pool_acquire (Some (PoolObj 1)) demo_memory
  = Some (Some 11,
          set_descs demo_memory
            (<[11 := mk_buffer 1064 64 false true]> (descs demo_memory))).
Proof.
  refine (proj1 (proj1 (acquire_returns_lowest_free demo_memory (PoolObj 1) demo_pool _)
                   10 _ _ _ _) 1 (mk_buffer 1064 64 true true) _ _ _ _ _).
  - reflexivity.
  - reflexivity.
  - reflexivity.
  - reflexivity.
  - exact demo_allocated.
  - reflexivity.
  - reflexivity.
  - reflexivity.
  - reflexivity.
  - intros i Hi. assert (i = 0) as -> by lia. reflexivity.
Defined.

(** ** The scan of [buffer_pool_find] *)

Lemma find_scan_first_match n : forall m a idx p,
  (forall i, idx <= i < idx + N.of_nat n -> is_Some (descs m !! (a + i))) ->
  find_scan n (Some a) idx p m = Some (first_match n (descs m) a idx p, m).
Proof.
  induction n as [|n IH]; intros m a idx p Hal; [reflexivity|].
  destruct (Hal idx ltac:(lia)) as [b Hb].
  cbn [find_scan first_match elem]. unfold bind at 1. unfold ret at 1.
  unfold bind at 1. rewrite (buffer_is_valid_at _ _ _ Hb).
  rewrite Hb. unfold matches.
  destruct (is_initialized b); simpl.
  - unfold bind at 1. unfold bind at 1. rewrite (deref_at _ _ _ Hb).
    unfold ret at 1.
    destruct (data_u8p b =? p); [reflexivity|].
    apply IH. intros i Hi. apply Hal. lia.
  - unfold bind at 1. unfold ret at 1.
    apply IH. intros i Hi. apply Hal. lia.
Qed.

Lemma first_match_some n : forall d a idx p x,
  first_match n d a idx p = Some x ->
  exists j, x = a + j /\ idx <= j < idx + N.of_nat n
            /\ matches p (d !! (a + j)) = true
            /\ forall i, idx <= i < j -> matches p (d !! (a + i)) = false.
Proof.
  induction n as [|n IH]; intros d a idx p x H; [discriminate|].
  cbn [first_match] in H.
  destruct (matches p (d !! (a + idx))) eqn:Hm.
  - injection H as <-. exists idx.
    split; [reflexivity|]. split; [lia|]. split; [assumption|].
    intros i Hi; lia.
  - destruct (IH _ _ _ _ _ H) as (j & -> & Hj & Hmj & Hlow).
    exists j. split; [reflexivity|]. split; [lia|]. split; [assumption|].
    intros i Hi. destruct (N.eq_dec i idx) as [->|Hne]; [assumption|].
    apply Hlow. lia.
Qed.

Lemma first_match_none n : forall d a idx p,
  first_match n d a idx p = None <->
  forall i, idx <= i < idx + N.of_nat n -> matches p (d !! (a + i)) = false.
Proof.
  induction n as [|n IH]; intros d a idx p; cbn [first_match].
  - split; [intros _ i Hi; lia | reflexivity].
  - destruct (matches p (d !! (a + idx))) eqn:Hm.
    + split; [discriminate|]. intros H. rewrite H in Hm by lia. discriminate.
    + rewrite IH. split; intros H i Hi.
      * destruct (N.eq_dec i idx) as [->|Hne]; [assumption|]. apply H. lia.
      * apply H. lia.
Qed.

Lemma first_match_lowest n : forall d a idx p j,
  idx <= j < idx + N.of_nat n ->
  matches p (d !! (a + j)) = true ->
  (forall i, idx <= i < j -> matches p (d !! (a + i)) = false) ->
  first_match n d a idx p = Some (a + j).
Proof.
  induction n as [|n IH]; intros d a idx p j Hj Hm Hlow; [lia|].
  cbn [first_match]. destruct (N.eq_dec idx j) as [->|Hne].
  - now rewrite Hm.
  - rewrite Hlow by lia. apply IH; [lia|assumption|].
    intros i Hi. apply Hlow. lia.
Qed.

Lemma first_match_ext n : forall d d' a idx p,
  (forall i, idx <= i < idx + N.of_nat n ->
             matches p (d !! (a + i)) = matches p (d' !! (a + i))) ->
  first_match n d a idx p = first_match n d' a idx p.
Proof.
  induction n as [|n IH]; intros d d' a idx p H; [reflexivity|].
  cbn [first_match]. rewrite <- H by lia.
  destruct (matches p (d !! (a + idx))); [reflexivity|].
  apply IH. intros i Hi. apply H. lia.
Qed.

Lemma buffer_pool_find_valid m r pl a p :
  lookup_pool r m = Some pl -> pool_valid pl = true ->
  buffer_array_sa pl = Some a -> p <> NULL ->
  buffer_pool_find (Some r) p m
  = find_scan (N.to_nat (buffer_count pl)) (Some a) 0 p m.
Proof.
  intros Hl Hv Ha Hp. unfold buffer_pool_find.
  unfold bind at 1. rewrite (buffer_pool_is_valid_at _ _ _ Hl), Hv.
  apply N.eqb_neq in Hp. rewrite Hp. simpl.
  unfold bind. rewrite (deref_pool_at _ _ _ Hl). now rewrite Ha.
Qed.

Lemma buffer_pool_find_invalid m r pl p :
  lookup_pool r m = Some pl -> pool_valid pl = false \/ p = NULL ->
  buffer_pool_find (Some r) p m = Some (None, m).
Proof.
  intros Hl H. unfold buffer_pool_find.
  unfold bind at 1. rewrite (buffer_pool_is_valid_at _ _ _ Hl).
  destruct H as [->| ->]; [reflexivity|].
  now rewrite orb_true_r.
Qed.

Lemma buffer_pool_find_null m p : buffer_pool_find None p m = Some (None, m).
Proof. reflexivity. Qed.

Lemma pool_valid_array pl :
  pool_valid pl = true -> exists a, buffer_array_sa pl = Some a.
Proof.
  unfold pool_valid. destruct (buffer_array_sa pl) as [a|]; [eauto|].
  simpl. rewrite andb_false_r. discriminate.
Qed.

Lemma buffer_pool_find_result m r pl p :
  lookup_pool r m = Some pl -> pool_safe m pl ->
  buffer_pool_find (Some r) p m = Some (find_result m pl p, m).
Proof.
  intros Hl Hs. unfold find_result.
  destruct (pool_valid pl) eqn:Hv.
  - destruct (pool_valid_array _ Hv) as [a Ha]. rewrite Ha.
    destruct (N.eqb_spec p NULL) as [->|Hp]; simpl.
    + apply (buffer_pool_find_invalid _ _ _ _ Hl). now right.
    + rewrite (buffer_pool_find_valid _ _ _ _ _ Hl Hv Ha Hp).
      apply find_scan_first_match. intros i Hi. apply (Hs Hv a Ha). lia.
  - rewrite (buffer_pool_find_invalid _ _ _ _ Hl) by now left.
    now destruct (buffer_array_sa pl).
Qed.

Lemma matches_true p o :
  matches p o = true <->
  exists b, o = Some b /\ is_initialized b = true /\ data_u8p b = p.
Proof.
  unfold matches. split.
  - destruct o as [b|]; [|discriminate]. intros H.
    apply andb_true_iff in H as [Hi He]. apply N.eqb_eq in He. eauto.
  - intros (b & -> & Hi & He). rewrite Hi. simpl. now apply N.eqb_eq.
Qed.

Lemma matches_with_is_available p v o :
  matches p (with_is_available v <$> o) = matches p o.
Proof. now destruct o. Qed.

Lemma find_result_some m pl p d :
  find_result m pl p = Some d ->
  exists a j b,
    buffer_array_sa pl = Some a /\ pool_valid pl = true /\ p <> NULL
    /\ j < buffer_count pl /\ d = a + j
    /\ descs m !! d = Some b /\ is_initialized b = true /\ data_u8p b = p
    /\ forall i, i < j -> matches p (descs m !! (a + i)) = false.
Proof.
  unfold find_result. destruct (buffer_array_sa pl) as [a|]; [|discriminate].
  destruct (pool_valid pl); [|discriminate].
  destruct (N.eqb_spec p NULL) as [|Hp]; [discriminate|]. simpl.
  intros H. destruct (first_match_some _ _ _ _ _ _ H) as (j & -> & Hj & Hm & Hlow).
  apply matches_true in Hm as (b & Hb & Hi & He).
  exists a, j, b. repeat (split; [first [reflexivity | assumption | lia]|]).
  intros i Hi'. apply Hlow. lia.
Qed.

Lemma find_result_none m pl p :
  find_result m pl p = None <->
  (pool_valid pl = false \/ p = NULL
   \/ forall a, buffer_array_sa pl = Some a ->
        forall i, i < buffer_count pl -> matches p (descs m !! (a + i)) = false).
Proof.
  unfold find_result. destruct (pool_valid pl) eqn:Hv.
  - destruct (pool_valid_array _ Hv) as [a Ha]. rewrite Ha.
    destruct (N.eqb_spec p NULL) as [->|Hp]; simpl.
    + split; [now right; left | reflexivity].
    + rewrite first_match_none. split.
      * intros H. right; right. intros a' [= <-] i Hi. apply H. lia.
      * intros [H|[H|H]]; [discriminate | contradiction |].
        intros i Hi. apply (H a eq_refl). lia.
  - split; [now left|]. now destruct (buffer_array_sa pl).
Qed.

Lemma find_result_ext m m' pl p :
  (forall x, matches p (descs m' !! x) = matches p (descs m !! x)) ->
  find_result m' pl p = find_result m pl p.
Proof.
  intros H. unfold find_result. destruct (buffer_array_sa pl) as [a|]; [|reflexivity].
  destruct (pool_valid pl && negb (p =? NULL)); [|reflexivity].
  apply first_match_ext. intros i _. apply H.
Qed.

Lemma same_but_availability_lookup_pool m m' r :
  same_but_availability m m' -> lookup_pool r m' = lookup_pool r m.
Proof. intros (Hp & Hc & _). destruct r; simpl; congruence. Qed.

Lemma same_but_availability_allocated m m' a n :
  same_but_availability m m' -> allocated m a n -> allocated m' a n.
Proof.
  intros (_ & _ & Hd) Hal i Hi. specialize (Hal i Hi). specialize (Hd (a + i)).
  destruct Hal as [b Hb]. rewrite Hb in Hd.
  destruct (descs m' !! (a + i)); [eauto | discriminate].
Qed.

Lemma same_but_availability_matches m m' p x :
  same_but_availability m m' ->
  matches p (descs m' !! x) = matches p (descs m !! x).
Proof.
  intros (_ & _ & Hd).
  rewrite <- (matches_with_is_available p false (descs m' !! x)).
  rewrite <- (matches_with_is_available p false (descs m !! x)).
  now rewrite Hd.
Qed.

(** C6: [buffer_pool_find] leaves the memory as it is; a descriptor it
    returns lies in the pool's array, is initialized and has the queried
    address as its backing pointer, whatever its availability flag (the
    result is the same in every memory that differs only in availability
    flags); and it returns [NULL] exactly when the pool is invalid, the
    queried pointer is [NULL], or no initialized descriptor of the array
    has that backing pointer. *)
Theorem find_matches_by_address (m : memory) (r : pool_ref) (pl : buffer_pool_st) (p : N) :
  lookup_pool r m = Some pl -> pool_safe m pl ->
  exists res,
    buffer_pool_find (Some r) p m = Some (res, m)
    /\ (forall d, res = Some d ->
          exists a j b, buffer_array_sa pl = Some a /\ j < buffer_count pl
                        /\ d = a + j /\ descs m !! d = Some b
                        /\ is_initialized b = true /\ data_u8p b = p)
    /\ (res = None <->
          (pool_valid pl = false \/ p = NULL
           \/ forall a, buffer_array_sa pl = Some a ->
                forall i, i < buffer_count pl ->
                          matches p (descs m !! (a + i)) = false))
    /\ (forall m', same_but_availability m m' ->
          buffer_pool_find (Some r) p m' = Some (res, m'))
    /\ buffer_pool_find None p m = Some (None, m).
Proof.
  intros Hl Hs. exists (find_result m pl p).
  split; [now apply buffer_pool_find_result|].
  split.
  { intros d Hd.
    destruct (find_result_some _ _ _ _ Hd) as (a & j & b & Ha & _ & _ & Hj & -> & Hb & Hi & He & _).
    exists a, j, b. repeat (split; [first [reflexivity | assumption]|]). assumption. }
  split; [apply find_result_none|].
  split; [|reflexivity].
  intros m' Hsame.
  rewrite <- (find_result_ext m m' pl p)
    by (intros x; now apply same_but_availability_matches).
  apply buffer_pool_find_result.
  - now rewrite (same_but_availability_lookup_pool _ _ _ Hsame).
  - intros Hv a Ha. eapply same_but_availability_allocated; eauto.
Qed.

Lemma demo_pool_safe : pool_safe demo_memory demo_pool.
Proof. intros _ a [= <-]. exact demo_allocated. Qed.

Lemma find_matches_by_address_witness :
  exists res,
    buffer_pool_find (Some (PoolObj 1)) 1000 demo_memory = Some (res, demo_memory)
    /\ (forall d, res = Some d ->
          exists a j b, buffer_array_sa demo_pool = Some a /\ j < buffer_count demo_pool
                        /\ d = a + j /\ descs demo_memory !! d = Some b
                        /\ is_initialized b = true /\ data_u8p b = 1000)
    /\ (res = None <->
          (pool_valid demo_pool = false \/ 1000 = NULL
           \/ forall a, buffer_array_sa demo_pool = Some a ->
                forall i, i < buffer_count demo_pool ->
                          matches 1000 (descs demo_memory !! (a + i)) = false))
    /\ (forall m', same_but_availability demo_memory m' ->
          buffer_pool_find (Some (PoolObj 1)) 1000 m' = Some (res, m'))
    /\ buffer_pool_find None 1000 demo_memory = Some (None, demo_memory).
Proof.
  apply (find_matches_by_address demo_memory (PoolObj 1) demo_pool 1000).
  - reflexivity.
  - exact demo_pool_safe.
Defined.

(** C10: when two (or more) initialized descriptors of a valid pool share
    the backing pointer [p] and [p] is not [NULL], [buffer_pool_find]
    returns the one at the lowest index among all that match; when the
    shared pointer is [NULL] (descriptors initialized without backing
    memory), [buffer_pool_find] returns [NULL]. *)
Theorem find_duplicates_lowest_index (m : memory) (r : pool_ref) (pl : buffer_pool_st)
    (a p j1 j2 : N) :
  lookup_pool r m = Some pl ->
  pool_is_initialized pl = true -> buffer_array_sa pl = Some a ->
  allocated m a (buffer_count pl) ->
  j1 < buffer_count pl -> j2 < buffer_count pl -> j1 <> j2 ->
  matches p (descs m !! (a + j1)) = true ->
  matches p (descs m !! (a + j2)) = true ->
  (p <> NULL ->
   exists j,
     buffer_pool_find (Some r) p m = Some (Some (a + j), m)
     /\ j <= j1 /\ j <= j2
     /\ matches p (descs m !! (a + j)) = true
     /\ forall i, i < buffer_count pl ->
                  matches p (descs m !! (a + i)) = true -> j <= i)
  /\ (p = NULL -> buffer_pool_find (Some r) p m = Some (None, m)).
Proof.
  intros Hl Hi Ha Hal Hj1 Hj2 Hne Hm1 Hm2.
  assert (Hv : pool_valid pl = true) by (apply (pool_valid_intro _ a); auto; lia).
  split.
  - intros Hp.
    rewrite (buffer_pool_find_valid _ _ _ _ _ Hl Hv Ha Hp).
    rewrite find_scan_first_match by (intros i Hr; apply Hal; lia).
    destruct (first_match (N.to_nat (buffer_count pl)) (descs m) a 0 p) as [x|] eqn:Hf.
    + destruct (first_match_some _ _ _ _ _ _ Hf) as (j & -> & Hj & Hm & Hlow).
      assert (Hmin : forall i, matches p (descs m !! (a + i)) = true -> j <= i).
      { intros i Hmi. destruct (N.le_gt_cases j i) as [|Hlt]; [assumption|].
        rewrite Hlow in Hmi by lia. discriminate. }
      exists j. repeat split; auto.
    + rewrite first_match_none in Hf. rewrite Hf in Hm1 by lia. discriminate.
  - intros ->. apply (buffer_pool_find_invalid _ _ _ _ Hl). now right.
Qed.

Lemma dup_allocated : allocated dup_memory 20 3.
Proof.
  intros i Hi.
  assert (i = 0 \/ i = 1 \/ i = 2) as [-> | [-> | ->]] by lia; vm_compute; eauto.
Qed.

Lemma find_duplicates_lowest_index_witness :
  exists j,
    buffer_pool_find (Some (PoolObj 3)) 700 dup_memory = Some (Some (20 + j), dup_memory)
    /\ j <= 1 /\ j <= 2
    /\ matches 700 (descs dup_memory !! (20 + j)) = true
    /\ forall i, i < 3 -> matches 700 (descs dup_memory !! (20 + i)) = true -> j <= i.
Proof.
  refine (proj1 (find_duplicates_lowest_index dup_memory (PoolObj 3) dup_pool 20 700 1 2
                   _ _ _ _ _ _ _ _ _) _).
  - reflexivity.
  - reflexivity.
  - reflexivity.
  - exact dup_allocated.
  - reflexivity.
  - reflexivity.
  - discriminate.
  - reflexivity.
  - reflexivity.
  - discriminate.
Defined.

(** The pool of [null_dup_memory] is valid and its descriptors 0 and 1 are
    initialized and share the backing pointer [NULL], yet
    [buffer_pool_find] on that pointer returns no descriptor. *)
Lemma find_duplicates_null_counterexample :
  lookup_pool (PoolObj 10) null_dup_memory = Some null_dup_pool
  /\ pool_valid null_dup_pool = true
  /\ matches NULL (descs null_dup_memory !! (70 + 0)) = true
  /\ matches NULL (descs null_dup_memory !! (70 + 1)) = true
  /\ buffer_pool_find (Some (PoolObj 10)) NULL null_dup_memory
     = Some (None, null_dup_memory)
  /\ ~ (exists j, buffer_pool_find (Some (PoolObj 10)) NULL null_dup_memory
                  = Some (Some (70 + j), null_dup_memory)).
Proof.
  repeat (split; [reflexivity|]).
  intros [j Hj]. discriminate.
Qed.

(** ** [buffer_mark_free], [buffer_mark_in_use] and release *)

Lemma buffer_mark_free_at m d b :
  descs m !! d = Some b ->
  buffer_mark_free (Some d) m
  = Some (tt, if is_initialized b
              then set_descs m (<[d := with_is_available true b]> (descs m))
              else m).
Proof.
  intros Hb. unfold buffer_mark_free, bind.
  rewrite (buffer_is_valid_at _ _ _ Hb).
  destruct (is_initialized b); [|reflexivity].
  now rewrite (assign_at _ _ _ _ Hb).
Qed.

Lemma buffer_mark_in_use_at m d b :
  descs m !! d = Some b ->
  buffer_mark_in_use (Some d) m
  = Some (tt, if is_initialized b
              then set_descs m (<[d := with_is_available false b]> (descs m))
              else m).
Proof.
  intros Hb. unfold buffer_mark_in_use, bind.
  rewrite (buffer_is_valid_at _ _ _ Hb).
  destruct (is_initialized b); [|reflexivity].
  now rewrite (assign_at _ _ _ _ Hb).
Qed.

(** Writing an availability flag changes no lookup by backing pointer. *)
Lemma matches_set_available m d b v p x :
  descs m !! d = Some b ->
  matches p (descs (set_descs m (<[d := with_is_available v b]> (descs m))) !! x)
  = matches p (descs m !! x).
Proof.
  intros Hb. simpl. destruct (decide (d = x)) as [->|Hne].
  - rewrite lookup_insert_eq, Hb. reflexivity.
  - now rewrite lookup_insert_ne.
Qed.

Lemma allocated_set_available m d b v a n :
  descs m !! d = Some b -> allocated m a n ->
  allocated (set_descs m (<[d := with_is_available v b]> (descs m))) a n.
Proof.
  intros Hb Hal i Hi. simpl. destruct (decide (d = a + i)) as [->|Hne].
  - rewrite lookup_insert_eq. eauto.
  - rewrite lookup_insert_ne by assumption. now apply Hal.
Qed.

Lemma pool_safe_set_available m d b v pl :
  descs m !! d = Some b -> pool_safe m pl ->
  pool_safe (set_descs m (<[d := with_is_available v b]> (descs m))) pl.
Proof.
  intros Hb Hs Hv a Ha. apply allocated_set_available; [assumption|].
  now apply Hs.
Qed.

(** What [buffer_pool_release_by_ptr] does on an object in memory. *)
Lemma buffer_pool_release_result m r pl p :
  lookup_pool r m = Some pl -> pool_safe m pl ->
  buffer_pool_release_by_ptr (Some r) p m
  = match find_result m pl p with
    | Some d =>
        match descs m !! d with
        | Some b => Some (true, set_descs m (<[d := with_is_available true b]> (descs m)))
        | None => None
        end
    | None => Some (false, m)
    end.
Proof.
  intros Hl Hs. unfold buffer_pool_release_by_ptr. unfold bind at 1.
  rewrite (buffer_pool_find_result _ _ _ _ Hl Hs).
  destruct (find_result m pl p) as [d|] eqn:Hf; [|reflexivity].
  destruct (find_result_some _ _ _ _ Hf) as (a & j & b & _ & _ & _ & _ & _ & Hb & Hi & _).
  simpl. unfold bind. rewrite (buffer_mark_free_at _ _ _ Hb), Hb, Hi. reflexivity.
Qed.

(** C4: [buffer_pool_release_by_ptr] returns true exactly when
    [buffer_pool_find] returns a descriptor for the same pointer: it
    returns true whenever the pool is valid, the pointer is not [NULL] and
    some initialized descriptor of the array has it as backing pointer,
    and false exactly when the pool is invalid or [NULL], the pointer is
    [NULL], or no initialized descriptor has it; on a true return the only
    change is that the matched descriptor is available; and a second
    release of the same pointer returns true again and changes nothing. *)
Theorem release_by_ptr_iff_find (m : memory) (r : pool_ref) (pl : buffer_pool_st) (p : N) :
  lookup_pool r m = Some pl -> pool_safe m pl ->
  exists res m',
    buffer_pool_find (Some r) p m = Some (res, m)
    /\ buffer_pool_release_by_ptr (Some r) p m = Some (negb (is_null res), m')
    /\ (res = None -> m' = m)
    /\ (forall d, res = Some d ->
          (exists b, descs m !! d = Some b
                     /\ is_initialized b = true /\ data_u8p b = p
                     /\ m' = set_descs m (<[d := with_is_available true b]> (descs m)))
          /\ (exists b', descs m' !! d = Some b' /\ is_available b' = true)
          /\ buffer_pool_release_by_ptr (Some r) p m' = Some (true, m'))
    /\ (res = None <->
          (pool_valid pl = false \/ p = NULL
           \/ forall a, buffer_array_sa pl = Some a ->
                forall i, i < buffer_count pl ->
                          matches p (descs m !! (a + i)) = false))
    /\ (forall a j, pool_valid pl = true -> p <> NULL ->
          buffer_array_sa pl = Some a -> j < buffer_count pl ->
          matches p (descs m !! (a + j)) = true ->
          exists d b,
            res = Some d /\ descs m !! d = Some b
            /\ buffer_pool_release_by_ptr (Some r) p m
               = Some (true, set_descs m (<[d := with_is_available true b]> (descs m))))
    /\ buffer_pool_release_by_ptr None p m = Some (false, m).
Proof.
  intros Hl Hs. exists (find_result m pl p).
  pose proof (buffer_pool_release_result m r pl p Hl Hs) as Hrel.
  destruct (find_result m pl p) as [d|] eqn:Hf.
  - destruct (find_result_some _ _ _ _ Hf)
      as (a & j & b & Ha & Hv & Hp & Hj & -> & Hb & Hi & He & Hlow).
    rewrite Hb in Hrel.
    set (m' := set_descs m (<[a + j := with_is_available true b]> (descs m))) in *.
    exists m'.
    split; [rewrite <- Hf; now apply buffer_pool_find_result|].
    split; [exact Hrel|].
    split; [discriminate|].
    split.
    { intros d [= <-]. split; [|split].
      - exists b. auto.
      - exists (with_is_available true b). split; [|reflexivity].
        unfold m'. simpl. apply lookup_insert_eq.
      - assert (Hl' : lookup_pool r m' = Some pl)
          by (unfold m'; now rewrite lookup_pool_set_descs).
        assert (Hs' : pool_safe m' pl) by now apply pool_safe_set_available.
        rewrite (buffer_pool_release_result m' r pl p Hl' Hs').
        assert (Hf' : find_result m' pl p = Some (a + j)).
        { rewrite <- Hf. apply find_result_ext. intros x.
          now apply matches_set_available. }
        rewrite Hf'. unfold m' at 1. simpl. rewrite lookup_insert_eq.
        do 2 f_equal. unfold m'. unfold set_descs. simpl.
        f_equal. now rewrite insert_insert_eq. }
    split.
    { split; [discriminate|]. intros H. apply find_result_none in H. congruence. }
    split; [|reflexivity].
    intros a' j' _ _ _ _ _. exists (a + j), b.
    split; [reflexivity|]. split; [exact Hb | exact Hrel].
  - exists m.
    split; [rewrite <- Hf; now apply buffer_pool_find_result|].
    split; [exact Hrel|].
    split; [reflexivity|].
    split; [discriminate|].
    split.
    { split; [intros _; now apply find_result_none | reflexivity]. }
    split; [|reflexivity].
    intros a j Hv Hp Ha Hj Hm. apply find_result_none in Hf.
    destruct Hf as [Hf|[Hf|Hf]]; [congruence | contradiction |].
    rewrite (Hf a Ha j Hj) in Hm. discriminate.
Qed.

Lemma release_by_ptr_iff_find_witness :
  buffer_pool_release_by_ptr (Some (PoolObj 1)) 1000 demo_memory
  = Some (true,
          set_descs demo_memory
            (<[10 := mk_buffer 1000 64 true true]> (descs demo_memory)))
  /\ buffer_pool_release_by_ptr (Some (PoolObj 1)) 1000
       (set_descs demo_memory
          (<[10 := mk_buffer 1000 64 true true]> (descs demo_memory)))
     = Some (true,
             set_descs demo_memory
               (<[10 := mk_buffer 1000 64 true true]> (descs demo_memory)))
  /\ buffer_pool_release_by_ptr (Some (PoolObj 1)) 4242 demo_memory
     = Some (false, demo_memory).
Proof.
  destruct (release_by_ptr_iff_find demo_memory (PoolObj 1) demo_pool 1000
              eq_refl demo_pool_safe)
    as (res & m' & Hfind & Hrel & _ & Hsome & _ & Hmatch & _).
  destruct (Hmatch 10 0 eq_refl ltac:(discriminate) eq_refl eq_refl eq_refl)
    as (d & b & -> & Hb & Hrel1).
  assert (Hd : d = 10).
  { assert (Hc : buffer_pool_find (Some (PoolObj 1)) 1000 demo_memory
                 = Some (Some 10, demo_memory)) by reflexivity.
    rewrite Hc in Hfind. now injection Hfind as <-. }
  subst d.
  assert (Hb10 : b = mk_buffer 1000 64 false true)
    by (assert (Hc : descs demo_memory !! 10 = Some (mk_buffer 1000 64 false true))
          by reflexivity; rewrite Hc in Hb; now injection Hb as <-).
  subst b.
  destruct (Hsome 10 eq_refl) as ((b & Hb' & _ & _ & Hm') & _ & Hagain).
  rewrite Hb in Hb'. injection Hb' as <-. subst m'.
  split; [exact Hrel1|]. split; [exact Hagain|].
  destruct (release_by_ptr_iff_find demo_memory (PoolObj 1) demo_pool 4242
              eq_refl demo_pool_safe)
    as (res2 & m2 & _ & Hrel2 & Hnone & _ & Hiff & _).
  assert (Hres2 : res2 = None).
  { apply Hiff. right; right. intros a [= <-] i Hi.
    assert (i = 0 \/ i = 1 \/ i = 2) as [-> | [-> | ->]] by (simpl in Hi; lia);
      reflexivity. }
  subst res2. now rewrite (Hnone eq_refl) in Hrel2.
Defined.

(** ** Repeated acquisition *)

Lemma cells_elem a k : forall j x,
  x ∈ cells a j k -> exists i, x = a + i /\ j <= i < j + N.of_nat k.
Proof.
  induction k as [|k IH]; intros j x Hx; cbn [cells] in Hx.
  - now apply elem_of_nil in Hx.
  - apply elem_of_cons in Hx as [->|Hx].
    + exists j. split; [reflexivity | lia].
    + destruct (IH _ _ Hx) as (i & -> & Hi). exists i. split; [reflexivity | lia].
Qed.

Lemma cells_NoDup a k : forall j, NoDup (cells a j k).
Proof.
  induction k as [|k IH]; intros j; cbn [cells]; constructor.
  - intros Hin. apply cells_elem in Hin as (i & Heq & Hi). lia.
  - apply IH.
Qed.

Lemma cells_length a k : forall j, length (cells a j k) = k.
Proof. induction k as [|k IH]; intros j; cbn [cells length]; [reflexivity|]. now rewrite IH. Qed.

Lemma is_free_true o :
  is_free o = true ->
  exists b, o = Some b /\ is_initialized b = true /\ is_available b = true.
Proof.
  destruct o as [b|]; [|discriminate]. simpl. intros H.
  apply andb_true_iff in H as [Hi Ha]. eauto.
Qed.

(** With the cells below index [j] not free and the [k] cells from [j] on
    free, [k + 1] calls hand out the cells from [j] on in order and then
    fail. *)
Lemma acquire_many_from r pl a k : forall j m,
  lookup_pool r m = Some pl ->
  pool_is_initialized pl = true -> buffer_array_sa pl = Some a ->
  buffer_count pl = j + N.of_nat k ->
  allocated m a (buffer_count pl) ->
  (forall i, i < j -> is_free (descs m !! (a + i)) = false) ->
  (forall i, j <= i < buffer_count pl -> is_free (descs m !! (a + i)) = true) ->
  exists m',
    acquire_many (S k) (Some r) m = Some ((Some <$> cells a j k) ++ [None], m').
Proof.
  induction k as [|k IH]; intros j m Hl Hi Ha Hc Hal Hlow Hhigh.
  - exists m. cbn [acquire_many cells fmap list_fmap app]. unfold bind at 1.
    assert (Hacq : buffer_pool_acquire (Some r) m = Some (None, m)).
    { destruct (pool_valid pl) eqn:Hv.
      - rewrite (buffer_pool_acquire_valid _ _ _ _ Hl Hv Ha).
        apply acquire_scan_none.
        + intros i Hr. apply Hal. lia.
        + intros i Hr. apply Hlow. lia.
      - now apply (buffer_pool_acquire_invalid _ _ _ Hl). }
    rewrite Hacq. reflexivity.
  - assert (Hv : pool_valid pl = true) by (apply (pool_valid_intro _ a); auto; lia).
    destruct (is_free_true _ (Hhigh j ltac:(lia))) as (b & Hb & Hbi & Hba).
    set (m1 := set_descs m (<[a + j := with_is_available false b]> (descs m))).
    assert (Hacq : buffer_pool_acquire (Some r) m = Some (Some (a + j), m1)).
    { rewrite (buffer_pool_acquire_valid _ _ _ _ Hl Hv Ha).
      apply acquire_scan_first; try assumption; try lia.
      - intros i Hr. apply Hal. lia.
      - intros i Hr. apply Hlow. lia. }
    destruct (IH (j + 1) m1) as [m' Hm']; try assumption; try lia.
    + now apply allocated_set_available.
    + intros i Hr. unfold m1. simpl. destruct (N.eq_dec i j) as [->|Hne].
      * rewrite lookup_insert_eq. simpl. now rewrite andb_false_r.
      * rewrite lookup_insert_ne by lia. apply Hlow. lia.
    + intros i Hr. unfold m1. simpl. rewrite lookup_insert_ne by lia.
      apply Hhigh. lia.
    + exists m'. change (acquire_many (S (S k)) (Some r))
        with (x <- buffer_pool_acquire (Some r) ;;
              rs <- acquire_many (S k) (Some r) ;; ret (x :: rs)).
      unfold bind at 1. rewrite Hacq. unfold bind at 1. rewrite Hm'.
      reflexivity.
Qed.

(** C3: on an initialized pool over [N] descriptors, all initialized and
    available, [N + 1] calls of [buffer_pool_acquire] in a row return [N]
    pairwise distinct descriptors (those of the array, in index order)
    and then [NULL]. *)
Theorem acquire_exhausts_pool (m : memory) (r : pool_ref) (pl : buffer_pool_st) (a : N) :
  lookup_pool r m = Some pl ->
  pool_is_initialized pl = true -> buffer_array_sa pl = Some a ->
  allocated m a (buffer_count pl) ->
  (forall i, i < buffer_count pl -> is_free (descs m !! (a + i)) = true) ->
  exists ds m',
    acquire_many (S (N.to_nat (buffer_count pl))) (Some r) m
    = Some ((Some <$> ds) ++ [None], m')
    /\ length ds = N.to_nat (buffer_count pl)
    /\ NoDup ds
    /\ ds = cells a 0 (N.to_nat (buffer_count pl)).
Proof.
  intros Hl Hi Ha Hal Hfree.
  destruct (acquire_many_from r pl a (N.to_nat (buffer_count pl)) 0 m)
    as [m' Hm']; try assumption; try lia.
  - intros i Hr. apply Hfree. lia.
  - exists (cells a 0 (N.to_nat (buffer_count pl))), m'.
    split; [exact Hm'|]. split; [apply cells_length|].
    split; [apply cells_NoDup | reflexivity].
Qed.

Lemma fresh_allocated : allocated fresh_memory 30 2.
Proof.
  intros i Hi.
  assert (i = 0 \/ i = 1) as [-> | ->] by lia; vm_compute; eauto.
Qed.

Lemma acquire_exhausts_pool_witness :
  exists ds m',
    acquire_many 3 (Some (PoolObj 4)) fresh_memory = Some ((Some <$> ds) ++ [None], m')
    /\ length ds = 2%nat
    /\ NoDup ds
    /\ ds = [30; 31].
Proof.
  apply (acquire_exhausts_pool fresh_memory (PoolObj 4) fresh_pool 30).
  - reflexivity.
  - reflexivity.
  - reflexivity.
  - exact fresh_allocated.
  - intros i Hi. assert (i = 0 \/ i = 1) as [-> | ->] by (simpl in Hi; lia); reflexivity.
Defined.

(** ** [buffer_init] *)

Lemma assign_after m d b f :
  assign (Some d) f (set_descs m (<[d := b]> (descs m)))
  = Some (tt, set_descs m (<[d := f b]> (descs m))).
Proof.
  unfold assign. simpl. rewrite lookup_insert_eq.
  unfold set_descs. simpl. now rewrite insert_insert_eq.
Qed.

Lemma buffer_init_at m d b p cap :
  descs m !! d = Some b ->
  buffer_init (Some d) p cap m
  = Some (tt, set_descs m
                (<[d := mk_buffer p cap (negb (p =? NULL) && negb (cap =? 0)) true]>
                   (descs m))).
Proof.
  intros Hb. unfold buffer_init. simpl. unfold bind.
  rewrite (assign_at _ _ _ _ Hb). rewrite !assign_after.
  destruct (negb (p =? NULL) && negb (cap =? 0)); now rewrite assign_after.
Qed.

Lemma buffer_init_null m p cap : buffer_init None p cap m = Some (tt, m).
Proof. reflexivity. Qed.

(** C7: [buffer_init] with a [NULL] backing pointer or a zero capacity
    leaves the descriptor initialized and not available, and a following
    [buffer_mark_free] makes it available all the same, the backing
    pointer and the capacity staying as they were given. *)
Theorem init_without_backing_then_mark_free (m : memory) (d : N) (b : buffer_st)
    (p cap : N) :
  descs m !! d = Some b ->
  p = NULL \/ cap = 0 ->
  exists m1 m2,
    buffer_init (Some d) p cap m = Some (tt, m1)
    /\ descs m1 !! d = Some (mk_buffer p cap false true)
    /\ buffer_mark_free (Some d) m1 = Some (tt, m2)
    /\ descs m2 !! d = Some (mk_buffer p cap true true).
Proof.
  intros Hb Hz.
  assert (Hf : negb (p =? NULL) && negb (cap =? 0) = false).
  { destruct Hz as [-> | ->]; [reflexivity|]. simpl. now rewrite andb_false_r. }
  pose proof (buffer_init_at m d b p cap Hb) as Hinit. rewrite Hf in Hinit.
  set (m1 := set_descs m (<[d := mk_buffer p cap false true]> (descs m))) in *.
  assert (H1 : descs m1 !! d = Some (mk_buffer p cap false true))
    by (unfold m1; simpl; apply lookup_insert_eq).
  exists m1. eexists.
  split; [exact Hinit|]. split; [exact H1|].
  split; [rewrite (buffer_mark_free_at _ _ _ H1); reflexivity|].
  simpl. apply lookup_insert_eq.
Qed.

Lemma init_without_backing_then_mark_free_witness :
  exists m1 m2,
    buffer_init (Some 10) NULL 64 demo_memory = Some (tt, m1)
    /\ descs m1 !! 10 = Some (mk_buffer NULL 64 false true)
    /\ buffer_mark_free (Some 10) m1 = Some (tt, m2)
    /\ descs m2 !! 10 = Some (mk_buffer NULL 64 true true).
Proof.
  apply (init_without_backing_then_mark_free demo_memory 10 (mk_buffer 1000 64 false true)).
  - reflexivity.
  - left. reflexivity.
Defined.

(** ** Calls on absent or uninitialized pools and contexts *)

Lemma pool_uninitialized_invalid pl :
  pool_is_initialized pl = false -> pool_valid pl = false.
Proof. intros H. apply pool_valid_false. now left. Qed.

Lemma buffer_pool_release_invalid m r pl p :
  lookup_pool r m = Some pl -> pool_valid pl = false \/ p = NULL ->
  buffer_pool_release_by_ptr (Some r) p m = Some (false, m).
Proof.
  intros Hl H. unfold buffer_pool_release_by_ptr, bind.
  now rewrite (buffer_pool_find_invalid _ _ _ _ Hl H).
Qed.

Lemma buffer_pool_mark_all_free_invalid m r pl :
  lookup_pool r m = Some pl -> pool_valid pl = false ->
  buffer_pool_mark_all_free (Some r) m = Some (tt, m).
Proof.
  intros Hl Hv. unfold buffer_pool_mark_all_free. unfold bind at 1.
  now rewrite (buffer_pool_is_valid_at _ _ _ Hl), Hv.
Qed.

Lemma ctx_unusable_at m c cx :
  ctxs m !! c = Some cx ->
  ctx_unusable (Some c) m = Some (negb (ctx_is_initialized cx), m).
Proof. intros H. unfold ctx_unusable, bind, deref_ctx. simpl. now rewrite H. Qed.

(** C8: every call of the pool API on a [NULL] pool or on a pool whose
    initialized flag is false, and every call of the context API on a
    [NULL] context or on a context whose initialized flag is false,
    returns the neutral value ([NULL], false, nothing) and leaves the whole
    memory (descriptors, pools and contexts) as it was. Each case stands on
    its own: the [NULL] cases hold in every memory, the others for every
    uninitialized pool, respectively context, the memory holds. *)
Theorem invalid_pool_or_context_no_effect (m : memory) :
  (buffer_pool_acquire None m = Some (None, m)
   /\ (forall p, buffer_pool_find None p m = Some (None, m))
   /\ (forall p, buffer_pool_release_by_ptr None p m = Some (false, m))
   /\ buffer_pool_mark_all_free None m = Some (tt, m))
  /\ (forall r pl,
        lookup_pool r m = Some pl -> pool_is_initialized pl = false ->
        buffer_pool_acquire (Some r) m = Some (None, m)
        /\ (forall p, buffer_pool_find (Some r) p m = Some (None, m))
        /\ (forall p, buffer_pool_release_by_ptr (Some r) p m = Some (false, m))
        /\ buffer_pool_mark_all_free (Some r) m = Some (tt, m))
  /\ (buffer_array_acquire None m = Some (None, m)
      /\ (forall p, buffer_array_find_by_ptr None p m = Some (None, m))
      /\ (forall p, buffer_array_release_by_ptr None p m = Some (false, m)))
  /\ (forall c cx,
        ctxs m !! c = Some cx -> ctx_is_initialized cx = false ->
        buffer_array_acquire (Some c) m = Some (None, m)
        /\ (forall p, buffer_array_find_by_ptr (Some c) p m = Some (None, m))
        /\ (forall p, buffer_array_release_by_ptr (Some c) p m = Some (false, m))).
Proof.
  split; [repeat split|]. split; [|split].
  - intros r pl Hl Hi.
    pose proof (pool_uninitialized_invalid _ Hi) as Hv.
    split; [now apply (buffer_pool_acquire_invalid _ _ _ Hl)|].
    split; [intros p; apply (buffer_pool_find_invalid _ _ _ _ Hl); now left|].
    split; [intros p; apply (buffer_pool_release_invalid _ _ _ _ Hl); now left|].
    now apply (buffer_pool_mark_all_free_invalid _ _ _ Hl).
  - repeat split.
  - intros c cx Hc Hci.
    unfold buffer_array_acquire, buffer_array_find_by_ptr,
      buffer_array_release_by_ptr, bind.
    rewrite (ctx_unusable_at _ _ _ Hc), Hci. simpl. repeat split.
Qed.

Lemma invalid_pool_or_context_no_effect_witness :
  buffer_pool_acquire (Some (PoolObj 2)) demo_memory = Some (None, demo_memory)
  /\ buffer_array_release_by_ptr (Some 6) 1000 demo_memory = Some (false, demo_memory)
  /\ buffer_pool_mark_all_free (Some (PoolObj 8)) raw_memory = Some (tt, raw_memory)
  /\ buffer_array_acquire None fresh_memory = Some (None, fresh_memory).
Proof.
  pose proof (invalid_pool_or_context_no_effect demo_memory) as (_ & Hpool & _ & Hctx).
  destruct (Hpool (PoolObj 2) zero_pool eq_refl eq_refl) as (H1 & _).
  destruct (Hctx 6 (mk_ctx zero_pool None 0 0 0 false) eq_refl eq_refl)
    as (_ & _ & H2).
  pose proof (invalid_pool_or_context_no_effect raw_memory) as (_ & Hraw & _).
  destruct (Hraw (PoolObj 8) zero_pool eq_refl eq_refl) as (_ & _ & _ & H3).
  pose proof (invalid_pool_or_context_no_effect fresh_memory) as (_ & _ & (H4 & _) & _).
  split; [exact H1|]. split; [exact (H2 1000)|]. split; [exact H3 | exact H4].
Defined.

(** ** [buffer_array_ctx_init] *)

Lemma ctx_init_scan_cells size_bits n : forall m a mb idx size,
  (forall i, idx <= i < idx + N.of_nat n -> is_Some (descs m !! (a + i))) ->
  ctx_init_scan size_bits n (Some a) mb idx size m
  = Some (tt, set_descs m (init_cells size_bits n (descs m) a mb idx size)).
Proof.
  induction n as [|n IH]; intros m a mb idx size Hal.
  - cbn [ctx_init_scan init_cells]. now rewrite set_descs_id.
  - destruct (Hal idx ltac:(lia)) as [b Hb].
    cbn [ctx_init_scan init_cells elem]. unfold bind at 1. unfold ret at 1.
    unfold bind at 1. rewrite (buffer_init_at _ _ _ _ _ Hb).
    rewrite IH.
    + reflexivity.
    + intros i Hi. simpl. destruct (decide (a + idx = a + i)) as [->|Hne].
      * rewrite lookup_insert_eq. eauto.
      * rewrite lookup_insert_ne by assumption. apply Hal. lia.
Qed.

Lemma init_cells_outside size_bits n : forall d a mb idx size x,
  (forall i, idx <= i < idx + N.of_nat n -> x <> a + i) ->
  init_cells size_bits n d a mb idx size !! x = d !! x.
Proof.
  induction n as [|n IH]; intros d a mb idx size x Hx; [reflexivity|].
  cbn [init_cells]. rewrite IH by (intros i Hi; apply Hx; lia).
  apply lookup_insert_ne. intros Heq. apply (Hx idx); [lia | now symmetry].
Qed.

Lemma init_cells_inside size_bits n : forall d a mb idx size i,
  idx <= i < idx + N.of_nat n ->
  init_cells size_bits n d a mb idx size !! (a + i)
  = Some (mk_buffer (ptr_index size_bits mb (size_mul size_bits i size)) size
            (negb (ptr_index size_bits mb (size_mul size_bits i size) =? NULL)
             && negb (size =? 0)) true).
Proof.
  induction n as [|n IH]; intros d a mb idx size i Hi; [lia|].
  cbn [init_cells]. destruct (N.eq_dec i idx) as [->|Hne].
  - rewrite init_cells_outside by (intros k Hk; lia).
    apply lookup_insert_eq.
  - apply IH. lia.
Qed.

Lemma ptr_index_in_block size_bits mb count size i :
  valid_block size_bits mb (count * size) -> 0 < size -> i < count ->
  ptr_index size_bits mb (size_mul size_bits i size) = mb + i * size.
Proof.
  intros [Hmb Hfit] Hsize Hi. unfold NULL in Hmb.
  assert (i * size < count * size) by (apply N.mul_lt_mono_pos_r; lia).
  unfold ptr_index, size_mul.
  rewrite (N.mod_small (i * size)) by lia. apply N.mod_small. lia.
Qed.

Lemma assign_ctx_at m c cx f :
  ctxs m !! c = Some cx ->
  assign_ctx (Some c) f m = Some (tt, set_ctxs m (<[c := f cx]> (ctxs m))).
Proof. intros H. unfold assign_ctx. now rewrite H. Qed.

Lemma assign_ctx_after m c cx f :
  assign_ctx (Some c) f (set_ctxs m (<[c := cx]> (ctxs m)))
  = Some (tt, set_ctxs m (<[c := f cx]> (ctxs m))).
Proof.
  unfold assign_ctx. simpl. rewrite lookup_insert_eq.
  unfold set_ctxs. simpl. now rewrite insert_insert_eq.
Qed.

Lemma assign_pool_of_ctx_after m c cx f :
  assign_pool (Some (PoolOfCtx c)) f (set_ctxs m (<[c := cx]> (ctxs m)))
  = Some (tt, set_ctxs m (<[c := with_pool_s (f (pool_s cx)) cx]> (ctxs m))).
Proof.
  unfold assign_pool. simpl. rewrite lookup_insert_eq.
  unfold set_ctxs. simpl. now rewrite insert_insert_eq.
Qed.

Lemma buffer_pool_init_of_ctx_after m c cx a count :
  count <> 0 ->
  buffer_pool_init (Some (PoolOfCtx c)) (Some a) count
    (set_ctxs m (<[c := cx]> (ctxs m)))
  = Some (tt, set_ctxs m (<[c := with_pool_s (mk_pool (Some a) count true) cx]> (ctxs m))).
Proof.
  intros Hc. unfold buffer_pool_init. simpl.
  apply N.eqb_neq in Hc. rewrite Hc. unfold bind.
  rewrite !assign_pool_of_ctx_after. reflexivity.
Qed.

(** The memory [buffer_array_ctx_init] produces, overflow or not. *)
Lemma buffer_array_ctx_init_result size_bits m c cx a mb count size :
  ctxs m !! c = Some cx -> allocated m a count ->
  mb <> NULL -> count <> 0 -> size <> 0 ->
  buffer_array_ctx_init size_bits (Some c) (Some a) mb count size m
  = Some (tt,
          {| descs := init_cells size_bits (N.to_nat count) (descs m) a mb 0 size;
             pools := pools m;
             ctxs := <[c := mk_ctx (mk_pool (Some a) count true) (Some a) mb count size true]>
                       (ctxs m) |}).
Proof.
  intros Hc Hal Hmb Hcount Hsize. unfold buffer_array_ctx_init. simpl.
  apply N.eqb_neq in Hmb, Hsize. rewrite Hmb, Hsize.
  rewrite (proj2 (N.eqb_neq count 0) Hcount). simpl.
  unfold bind at 1. rewrite (assign_ctx_at _ _ _ _ Hc).
  do 3 (unfold bind at 1; rewrite assign_ctx_after).
  unfold bind at 1. rewrite ctx_init_scan_cells
    by (intros i Hi; simpl; apply Hal; lia).
  unfold bind at 1.
  match goal with
  | |- context [buffer_pool_init _ _ _ ?mm] =>
      change mm with
        (set_ctxs (set_descs m (init_cells size_bits (N.to_nat count) (descs m) a mb 0 size))
           (<[c := with_buffer_size size
                     (with_ctx_buffer_count count
                        (with_memory_block_u8p mb
                           (with_ctx_buffer_array_sa (Some a) cx)))]>
              (ctxs (set_descs m (init_cells size_bits (N.to_nat count) (descs m) a mb 0 size)))))
  end.
  rewrite buffer_pool_init_of_ctx_after by assumption.
  rewrite assign_ctx_after. reflexivity.
Qed.

(** C2: given a context, a descriptor array of [count] cells, a
    non-absent memory block (the [count * chunk_size] bytes at
    [memory_block] that buffer.h asks for), [count > 0] and
    [chunk_size > 0], [buffer_array_ctx_init] sets descriptor [i]'s backing
    pointer to [memory_block + i * chunk_size] and its capacity to
    [chunk_size] for every [i < count], leaves each of them initialized
    and available, initializes the embedded pool over the array with
    [count] elements and marks the context initialized. *)
Theorem array_ctx_init_geometry (size_bits : N) (m : memory) (c : N)
    (cx : buffer_array_ctx_st) (a memory_block count chunk_size : N) :
  ctxs m !! c = Some cx -> allocated m a count ->
  valid_block size_bits memory_block (count * chunk_size) ->
  0 < count -> 0 < chunk_size ->
  exists m',
    buffer_array_ctx_init size_bits (Some c) (Some a) memory_block count chunk_size m
    = Some (tt, m')
    /\ (forall i, i < count ->
          descs m' !! (a + i)
          = Some (mk_buffer (memory_block + i * chunk_size) chunk_size true true))
    /\ lookup_pool (PoolOfCtx c) m' = Some (mk_pool (Some a) count true)
    /\ ctxs m' !! c
       = Some (mk_ctx (mk_pool (Some a) count true) (Some a) memory_block count
                 chunk_size true).
Proof.
  intros Hc Hal [Hmb Hfit] Hcount Hsize.
  eexists. split.
  - apply (buffer_array_ctx_init_result size_bits m c cx a memory_block count chunk_size);
      try assumption; lia.
  - split; [|split].
    + intros i Hi. simpl. rewrite init_cells_inside by lia.
      rewrite (ptr_index_in_block size_bits memory_block count chunk_size i)
        by (first [split; assumption | assumption]).
      assert (Hnz : (memory_block + i * chunk_size =? NULL) = false)
        by (apply N.eqb_neq; unfold NULL in *; lia).
      rewrite Hnz. rewrite (proj2 (N.eqb_neq chunk_size 0)) by lia.
      reflexivity.
    + simpl. now rewrite lookup_insert_eq.
    + simpl. apply lookup_insert_eq.
Qed.

Lemma array_ctx_init_geometry_witness :
  exists m',
    buffer_array_ctx_init 32 (Some 7) (Some 40) 4096 4 64 ring_memory = Some (tt, m')
    /\ descs m' !! 40 = Some (mk_buffer 4096 64 true true)
    /\ descs m' !! 41 = Some (mk_buffer (4096 + 64) 64 true true)
    /\ descs m' !! 42 = Some (mk_buffer (4096 + 128) 64 true true)
    /\ descs m' !! 43 = Some (mk_buffer (4096 + 192) 64 true true)
    /\ ctxs m' !! 7 = Some (mk_ctx (mk_pool (Some 40) 4 true) (Some 40) 4096 4 64 true).
Proof.
  assert (Hal : allocated ring_memory 40 4).
  { intros i Hi.
    assert (i = 0 \/ i = 1 \/ i = 2 \/ i = 3) as [-> | [-> | [-> | ->]]] by lia;
      vm_compute; eauto. }
  destruct (array_ctx_init_geometry 32 ring_memory 7 zero_ctx 40 4096 4 64)
    as (m' & Hrun & Hd & _ & Hc).
  - reflexivity.
  - exact Hal.
  - split; [discriminate | vm_compute; discriminate].
  - reflexivity.
  - reflexivity.
  - exists m'. split; [exact Hrun|].
    split; [exact (Hd 0 eq_refl)|]. split; [exact (Hd 1 eq_refl)|].
    split; [exact (Hd 2 eq_refl)|]. split; [exact (Hd 3 eq_refl)|].
    exact Hc.
Defined.

(** ** What a call that returns has done to the memory *)

Lemma bind_inv {A B} (c : M A) (k : A -> M B) m y m2 :
  bind c k m = Some (y, m2) ->
  exists x m1, c m = Some (x, m1) /\ k x m1 = Some (y, m2).
Proof.
  unfold bind. destruct (c m) as [[x m1]|]; [|discriminate]. eauto.
Qed.

Lemma ret_inv {A} (x y : A) m m' : ret x m = Some (y, m') -> y = x /\ m' = m.
Proof. unfold ret. now intros [= -> ->]. Qed.

Lemma deref_inv p m b m' :
  deref p m = Some (b, m') -> exists a, p = Some a /\ descs m !! a = Some b /\ m' = m.
Proof.
  unfold deref. destruct p as [a|]; [|discriminate].
  destruct (descs m !! a) as [b0|] eqn:Hb; [|discriminate]. intros [= -> ->]. eauto.
Qed.

Lemma assign_inv p f m u m' :
  assign p f m = Some (u, m') ->
  exists a b, p = Some a /\ descs m !! a = Some b
              /\ m' = set_descs m (<[a := f b]> (descs m)).
Proof.
  unfold assign. destruct p as [a|]; [|discriminate].
  destruct (descs m !! a) as [b|] eqn:Hb; [|discriminate]. intros [= _ <-]. eauto.
Qed.

Lemma elem_inv array index m x m' :
  elem array index m = Some (x, m') ->
  exists a, array = Some a /\ x = Some (a + index) /\ m' = m.
Proof.
  unfold elem. destruct array as [a|]; [|discriminate].
  intros H. apply ret_inv in H as [-> ->]. eauto.
Qed.

Lemma buffer_is_valid_inv p m v m' :
  buffer_is_valid p m = Some (v, m') ->
  m' = m /\ (v = true -> exists a b, p = Some a /\ descs m !! a = Some b
                                     /\ is_initialized b = true).
Proof.
  unfold buffer_is_valid. destruct p as [a|]; simpl.
  - intros H. apply bind_inv in H as (b & m1 & Hd & Hr).
    apply deref_inv in Hd as (a' & [= <-] & Hb & ->).
    apply ret_inv in Hr as [-> ->]. split; [reflexivity|]. eauto.
  - intros H. apply ret_inv in H as [-> ->]. split; [reflexivity | discriminate].
Qed.

Lemma deref_pool_inv p m pl m' : deref_pool p m = Some (pl, m') -> m' = m.
Proof.
  unfold deref_pool. destruct p as [r|]; [|discriminate].
  destruct (lookup_pool r m); [|discriminate]. now intros [= _ <-].
Qed.

Lemma buffer_pool_is_valid_inv p m v m' :
  buffer_pool_is_valid p m = Some (v, m') -> m' = m.
Proof.
  unfold buffer_pool_is_valid. destruct p as [r|]; simpl.
  - intros H. apply bind_inv in H as (pl & m1 & Hd & Hr).
    apply deref_pool_inv in Hd as ->. now apply ret_inv in Hr as [_ ->].
  - intros H. now apply ret_inv in H as [_ ->].
Qed.

Lemma assign_pool_inv p f m u m' :
  assign_pool p f m = Some (u, m') -> descs m' = descs m.
Proof.
  unfold assign_pool. destruct p as [[l|c]|]; [| |discriminate].
  - destruct (pools m !! l); [|discriminate]. now intros [= _ <-].
  - destruct (ctxs m !! c); [|discriminate]. now intros [= _ <-].
Qed.

Lemma ctx_unusable_inv p m g m' : ctx_unusable p m = Some (g, m') -> m' = m.
Proof.
  unfold ctx_unusable. destruct p as [c|]; simpl.
  - intros H. apply bind_inv in H as (cx & m1 & Hd & Hr).
    apply ret_inv in Hr as [_ ->]. unfold deref_ctx in Hd.
    destruct (ctxs m !! c); [|discriminate]. now injection Hd as _ <-.
  - intros H. now apply ret_inv in H as [_ ->].
Qed.

Lemma buffer_data_inv p out m r m' : buffer_data p out m = Some (r, m') -> m' = m.
Proof.
  unfold buffer_data. intros H.
  apply bind_inv in H as (o & m1 & Ho & H).
  assert (m1 = m) as ->.
  { destruct out.
    - apply bind_inv in Ho as (v & m2 & Hv & Ho).
      apply buffer_is_valid_inv in Hv as [-> _]. destruct v.
      + apply bind_inv in Ho as (b & m3 & Hd & Hr).
        apply deref_inv in Hd as (_ & _ & _ & ->). now apply ret_inv in Hr as [_ ->].
      + now apply ret_inv in Ho as [_ ->].
    - now apply ret_inv in Ho as [_ ->]. }
  apply bind_inv in H as (v & m2 & Hv & H).
  apply buffer_is_valid_inv in Hv as [-> _]. destruct v.
  - apply bind_inv in H as (b & m3 & Hd & Hr).
    apply deref_inv in Hd as (_ & _ & _ & ->). now apply ret_inv in Hr as [_ ->].
  - now apply ret_inv in H as [_ ->].
Qed.

Lemma buffer_mark_free_inv p m u m' :
  buffer_mark_free p m = Some (u, m') ->
  m' = m \/ exists d, p = Some d /\ flips true d m m'.
Proof.
  unfold buffer_mark_free. intros H.
  apply bind_inv in H as (v & m1 & Hv & H).
  apply buffer_is_valid_inv in Hv as [-> Hv]. destruct v.
  - destruct (Hv eq_refl) as (a & b & -> & Hb & Hi).
    apply assign_inv in H as (a' & b' & [= <-] & Hb' & ->).
    right. exists a. split; [reflexivity|]. exists b.
    rewrite Hb in Hb'. injection Hb' as <-. auto.
  - left. now apply ret_inv in H as [_ ->].
Qed.

Lemma buffer_mark_in_use_inv p m u m' :
  buffer_mark_in_use p m = Some (u, m') ->
  m' = m \/ exists d, p = Some d /\ flips false d m m'.
Proof.
  unfold buffer_mark_in_use. intros H.
  apply bind_inv in H as (v & m1 & Hv & H).
  apply buffer_is_valid_inv in Hv as [-> Hv]. destruct v.
  - destruct (Hv eq_refl) as (a & b & -> & Hb & Hi).
    apply assign_inv in H as (a' & b' & [= <-] & Hb' & ->).
    right. exists a. split; [reflexivity|]. exists b.
    rewrite Hb in Hb'. injection Hb' as <-. auto.
  - left. now apply ret_inv in H as [_ ->].
Qed.

Lemma buffer_pool_init_inv p array count m u m' :
  buffer_pool_init p array count m = Some (u, m') -> descs m' = descs m.
Proof.
  unfold buffer_pool_init.
  destruct (is_null p || is_null array || (count =? 0)).
  - intros H. now apply ret_inv in H as [_ ->].
  - intros H. apply bind_inv in H as (u1 & m1 & H1 & H).
    apply bind_inv in H as (u2 & m2 & H2 & H3).
    apply assign_pool_inv in H1, H2, H3. congruence.
Qed.

Lemma acquire_scan_inv n : forall array index m r m',
  acquire_scan n array index m = Some (r, m') ->
  (r = None /\ m' = m)
  \/ exists d, r = Some d /\ is_free (descs m !! d) = true /\ flips false d m m'.
Proof.
  induction n as [|n IH]; intros array index m r m' H; cbn [acquire_scan] in H.
  - left. now apply ret_inv in H as [-> ->].
  - apply bind_inv in H as (cur & m1 & He & H).
    apply elem_inv in He as (a & -> & -> & ->).
    apply bind_inv in H as (v & m1 & Hv & H).
    apply buffer_is_valid_inv in Hv as [-> Hv].
    apply bind_inv in H as (av & m1 & Ha & H).
    destruct v.
    + destruct (Hv eq_refl) as (a' & b & [= <-] & Hb & Hi).
      apply bind_inv in Ha as (b' & m2 & Hd & Hr).
      apply deref_inv in Hd as (a' & [= <-] & Hb' & ->).
      apply ret_inv in Hr as [-> ->].
      rewrite Hb in Hb'. injection Hb' as <-.
      destruct (is_available b) eqn:Hav.
      * apply bind_inv in H as (u & m2 & Has & Hr).
        apply ret_inv in Hr as [-> ->].
        apply assign_inv in Has as (a' & b' & [= <-] & Hb' & ->).
        rewrite Hb in Hb'. injection Hb' as <-.
        right. exists (a + index). split; [reflexivity|]. split.
        -- rewrite Hb. simpl. now rewrite Hi, Hav.
        -- exists b. auto.
      * now apply IH in H.
    + apply ret_inv in Ha as [-> ->]. now apply IH in H.
Qed.

Lemma buffer_pool_acquire_inv p m r m' :
  buffer_pool_acquire p m = Some (r, m') ->
  (r = None /\ m' = m)
  \/ exists d, r = Some d /\ is_free (descs m !! d) = true /\ flips false d m m'.
Proof.
  unfold buffer_pool_acquire. intros H.
  apply bind_inv in H as (v & m1 & Hv & H).
  apply buffer_pool_is_valid_inv in Hv as ->. destruct v; simpl in H.
  - apply bind_inv in H as (pl & m1 & Hd & H).
    apply deref_pool_inv in Hd as ->. now apply acquire_scan_inv in H.
  - left. now apply ret_inv in H as [-> ->].
Qed.

Lemma find_scan_inv n : forall array index p m r m',
  find_scan n array index p m = Some (r, m') ->
  m' = m /\ forall d, r = Some d -> matches p (descs m !! d) = true.
Proof.
  induction n as [|n IH]; intros array index p m r m' H; cbn [find_scan] in H.
  - apply ret_inv in H as [-> ->]. split; [reflexivity | discriminate].
  - apply bind_inv in H as (cur & m1 & He & H).
    apply elem_inv in He as (a & -> & -> & ->).
    apply bind_inv in H as (v & m1 & Hv & H).
    apply buffer_is_valid_inv in Hv as [-> Hv].
    apply bind_inv in H as (e & m1 & He & H).
    destruct v.
    + destruct (Hv eq_refl) as (a' & b & [= <-] & Hb & Hi).
      apply bind_inv in He as (b' & m2 & Hd & Hr).
      apply deref_inv in Hd as (a' & [= <-] & Hb' & ->).
      apply ret_inv in Hr as [-> ->].
      rewrite Hb in Hb'. injection Hb' as <-.
      destruct (data_u8p b =? p) eqn:Heq.
      * apply ret_inv in H as [-> ->]. split; [reflexivity|].
        intros d [= <-]. rewrite Hb. simpl. now rewrite Hi, Heq.
      * now apply IH in H.
    + apply ret_inv in He as [-> ->]. now apply IH in H.
Qed.

Lemma buffer_pool_find_inv pool_sp p m r m' :
  buffer_pool_find pool_sp p m = Some (r, m') ->
  m' = m /\ forall d, r = Some d -> matches p (descs m !! d) = true.
Proof.
  unfold buffer_pool_find. intros H.
  apply bind_inv in H as (v & m1 & Hv & H).
  apply buffer_pool_is_valid_inv in Hv as ->.
  destruct (negb v || (p =? NULL)).
  - apply ret_inv in H as [-> ->]. split; [reflexivity | discriminate].
  - apply bind_inv in H as (pl & m1 & Hd & H).
    apply deref_pool_inv in Hd as ->. now apply find_scan_inv in H.
Qed.

Lemma buffer_pool_release_inv pool_sp p m r m' :
  buffer_pool_release_by_ptr pool_sp p m = Some (r, m') ->
  m' = m
  \/ exists d, matches p (descs m !! d) = true /\ flips true d m m'.
Proof.
  unfold buffer_pool_release_by_ptr. intros H.
  apply bind_inv in H as (x & m1 & Hf & H).
  apply buffer_pool_find_inv in Hf as [-> Hm].
  destruct x as [d|]; simpl in H.
  - apply bind_inv in H as (u & m1 & Hmf & Hr).
    apply ret_inv in Hr as [-> ->].
    apply buffer_mark_free_inv in Hmf as [->|(d' & [= <-] & Hfl)]; [now left|].
    right. exists d. split; [now apply Hm | assumption].
  - left. now apply ret_inv in H as [_ ->].
Qed.

Lemma cells_agree_refl m : cells_agree m m.
Proof. intros x. reflexivity. Qed.

Lemma cells_agree_trans m1 m2 m3 :
  cells_agree m1 m2 -> cells_agree m2 m3 -> cells_agree m1 m3.
Proof. intros H1 H2 x. now rewrite H1, H2. Qed.

Lemma cells_agree_descs m m' : descs m' = descs m -> cells_agree m m'.
Proof. intros H x. now rewrite H. Qed.

Lemma cells_agree_set_available m d b v :
  descs m !! d = Some b ->
  cells_agree m (set_descs m (<[d := with_is_available v b]> (descs m))).
Proof.
  intros Hb x. simpl. destruct (decide (d = x)) as [->|Hne].
  - rewrite lookup_insert_eq, Hb. reflexivity.
  - now rewrite lookup_insert_ne.
Qed.

Lemma flips_cells_agree v d m m' : flips v d m m' -> cells_agree m m'.
Proof. intros (b & Hb & _ & ->). now apply cells_agree_set_available. Qed.

Lemma flips_pools_ctxs v d m m' :
  flips v d m m' -> pools m' = pools m /\ ctxs m' = ctxs m.
Proof. intros (b & _ & _ & ->). split; reflexivity. Qed.

Lemma same_but_availability_refl m : same_but_availability m m.
Proof. split; [reflexivity|]. split; [reflexivity|]. apply cells_agree_refl. Qed.

Lemma mark_all_scan_inv n : forall array index m u m',
  mark_all_scan n array index m = Some (u, m') -> same_but_availability m m'.
Proof.
  induction n as [|n IH]; intros array index m u m' H; cbn [mark_all_scan] in H.
  - apply ret_inv in H as [_ ->]. apply same_but_availability_refl.
  - apply bind_inv in H as (cur & m1 & He & H).
    apply elem_inv in He as (a & -> & -> & ->).
    apply bind_inv in H as (v & m1 & Hv & H).
    apply buffer_is_valid_inv in Hv as [-> Hv].
    apply bind_inv in H as (u1 & m1 & Hs & H).
    apply IH in H as (Hp & Hc & Hd).
    destruct v.
    + apply assign_inv in Hs as (a' & b & [= <-] & Hb & ->).
      split; [exact Hp|]. split; [exact Hc|].
      eapply cells_agree_trans; [|exact Hd].
      now apply cells_agree_set_available.
    + apply ret_inv in Hs as [_ ->]. split; [exact Hp|]. split; [exact Hc | exact Hd].
Qed.

Lemma buffer_pool_mark_all_free_inv p m u m' :
  buffer_pool_mark_all_free p m = Some (u, m') -> same_but_availability m m'.
Proof.
  unfold buffer_pool_mark_all_free. intros H.
  apply bind_inv in H as (v & m1 & Hv & H).
  apply buffer_pool_is_valid_inv in Hv as ->. destruct v; simpl in H.
  - apply bind_inv in H as (pl & m1 & Hd & H).
    apply deref_pool_inv in Hd as ->. now apply mark_all_scan_inv in H.
  - apply ret_inv in H as [_ ->]. apply same_but_availability_refl.
Qed.

Lemma buffer_array_acquire_inv c m r m' :
  buffer_array_acquire c m = Some (r, m') ->
  (r = None /\ m' = m) \/ buffer_pool_acquire (pool_of c) m = Some (r, m').
Proof.
  unfold buffer_array_acquire. intros H.
  apply bind_inv in H as (g & m1 & Hg & H).
  apply ctx_unusable_inv in Hg as ->. destruct g; [left | now right].
  now apply ret_inv in H as [-> ->].
Qed.

Lemma buffer_array_find_by_ptr_inv c p m r m' :
  buffer_array_find_by_ptr c p m = Some (r, m') ->
  (r = None /\ m' = m) \/ buffer_pool_find (pool_of c) p m = Some (r, m').
Proof.
  unfold buffer_array_find_by_ptr. intros H.
  apply bind_inv in H as (g & m1 & Hg & H).
  apply ctx_unusable_inv in Hg as ->. destruct g; [left | now right].
  now apply ret_inv in H as [-> ->].
Qed.

Lemma buffer_array_release_by_ptr_inv c p m r m' :
  buffer_array_release_by_ptr c p m = Some (r, m') ->
  (r = false /\ m' = m) \/ buffer_pool_release_by_ptr (pool_of c) p m = Some (r, m').
Proof.
  unfold buffer_array_release_by_ptr. intros H.
  apply bind_inv in H as (g & m1 & Hg & H).
  apply ctx_unusable_inv in Hg as ->. destruct g; [left | now right].
  now apply ret_inv in H as [-> ->].
Qed.

(** No call of the client interface changes anything in a descriptor but
    its availability flag. *)
Lemma run_op_cells_agree o m res m' :
  run_op o m = Some (res, m') -> cells_agree m m'.
Proof.
  destruct o; cbn [run_op]; intros H;
    apply bind_inv in H as (x & m1 & H & Hr); apply ret_inv in Hr as [_ ->].
  - apply buffer_data_inv in H as ->. apply cells_agree_refl.
  - apply buffer_mark_free_inv in H as [->|(d & _ & Hf)];
      [apply cells_agree_refl | now apply flips_cells_agree in Hf].
  - apply buffer_mark_in_use_inv in H as [->|(d & _ & Hf)];
      [apply cells_agree_refl | now apply flips_cells_agree in Hf].
  - apply buffer_pool_init_inv in H. now apply cells_agree_descs.
  - apply buffer_pool_acquire_inv in H as [[_ ->]|(d & _ & _ & Hf)];
      [apply cells_agree_refl | now apply flips_cells_agree in Hf].
  - apply buffer_pool_find_inv in H as [-> _]. apply cells_agree_refl.
  - apply buffer_pool_release_inv in H as [->|(d & _ & Hf)];
      [apply cells_agree_refl | now apply flips_cells_agree in Hf].
  - now apply buffer_pool_mark_all_free_inv in H as (_ & _ & H).
  - apply buffer_array_acquire_inv in H as [[_ ->]|H]; [apply cells_agree_refl|].
    apply buffer_pool_acquire_inv in H as [[_ ->]|(d & _ & _ & Hf)];
      [apply cells_agree_refl | now apply flips_cells_agree in Hf].
  - apply buffer_array_find_by_ptr_inv in H as [[_ ->]|H]; [apply cells_agree_refl|].
    apply buffer_pool_find_inv in H as [-> _]. apply cells_agree_refl.
  - apply buffer_array_release_by_ptr_inv in H as [[_ ->]|H]; [apply cells_agree_refl|].
    apply buffer_pool_release_inv in H as [->|(d & _ & Hf)];
      [apply cells_agree_refl | now apply flips_cells_agree in Hf].
Qed.

Lemma run_ops_cons_inv o os m rs m' :
  run_ops (o :: os) m = Some (rs, m') ->
  exists r m1 rs', run_op o m = Some (r, m1)
                   /\ run_ops os m1 = Some (rs', m') /\ rs = r :: rs'.
Proof.
  cbn [run_ops]. intros H.
  apply bind_inv in H as (r & m1 & Ho & H).
  apply bind_inv in H as (rs' & m2 & Hos & H).
  apply ret_inv in H as [-> ->]. eauto 6.
Qed.

Lemma run_ops_cells_agree os : forall m rs m',
  run_ops os m = Some (rs, m') -> cells_agree m m'.
Proof.
  induction os as [|o os IH]; intros m rs m' H.
  - apply ret_inv in H as [_ ->]. apply cells_agree_refl.
  - apply run_ops_cons_inv in H as (r & m1 & rs' & Ho & Hos & _).
    eapply cells_agree_trans; [eapply run_op_cells_agree | eapply IH]; eauto.
Qed.

Lemma cells_agree_lookup m m' d b :
  cells_agree m m' -> descs m !! d = Some b ->
  exists v, descs m' !! d = Some (with_is_available v b).
Proof.
  intros H Hb. specialize (H d). rewrite Hb in H.
  destruct (descs m' !! d) as [b'|]; [|discriminate].
  exists (is_available b'). f_equal. simpl in H. injection H as H.
  destruct b as [p c av i], b' as [p' c' av' i']. unfold with_is_available in *.
  simpl in *. congruence.
Qed.

(** ** Descriptors in use stay in use *)

Lemma held_descs d m m' : descs m' = descs m -> held d m -> held d m'.
Proof. intros H (b & Hb & Hi & Ha). exists b. now rewrite H. Qed.

Lemma held_flips_false d d' m m' : flips false d' m m' -> held d m -> held d m'.
Proof.
  intros (b' & Hb' & Hi' & ->) (b & Hb & Hi & Ha).
  destruct (decide (d' = d)) as [->|Hne].
  - exists (with_is_available false b'). simpl. rewrite lookup_insert_eq. auto.
  - exists b. simpl. rewrite lookup_insert_ne by assumption. auto.
Qed.

Lemma held_flips_true_other d d' m m' :
  d' <> d -> flips true d' m m' -> held d m -> held d m'.
Proof.
  intros Hne (b' & Hb' & Hi' & ->) (b & Hb & Hi & Ha).
  exists b. simpl. rewrite lookup_insert_ne by assumption. auto.
Qed.

Lemma flips_false_held d m m' : flips false d m m' -> held d m'.
Proof.
  intros (b & Hb & Hi & ->). exists (with_is_available false b).
  simpl. rewrite lookup_insert_eq. auto.
Qed.

Lemma is_free_not_held d m : is_free (descs m !! d) = true -> ~ held d m.
Proof.
  intros Hf (b & Hb & Hi & Ha). rewrite Hb in Hf. simpl in Hf.
  rewrite Hi, Ha in Hf. discriminate.
Qed.

Lemma release_other_keeps_held pool_sp x d m r m' :
  buffer_pool_release_by_ptr pool_sp x m = Some (r, m') ->
  frees m d (OpRelease pool_sp x) = false ->
  held d m -> held d m'.
Proof.
  intros H Hfr Hh.
  apply buffer_pool_release_inv in H as [->|(d' & Hm & Hf)]; [assumption|].
  apply (held_flips_true_other d d' m m'); try assumption.
  intros ->. destruct Hh as (b & Hb & _). cbn [frees] in Hfr.
  rewrite Hb in Hfr, Hm. simpl in Hm.
  apply andb_true_iff in Hm as [_ Hm]. congruence.
Qed.

(** A call that is not a freeing event for [d] leaves [d] in use. *)
Lemma run_op_keeps_held o d m res m' :
  run_op o m = Some (res, m') -> frees m d o = false ->
  held d m -> held d m'.
Proof.
  destruct o; cbn [run_op]; intros H Hfr Hh;
    apply bind_inv in H as (x & m1 & H & Hr); apply ret_inv in Hr as [_ <-].
  - now apply buffer_data_inv in H as ->.
  - apply buffer_mark_free_inv in H as [->|(d' & -> & Hf)]; [assumption|].
    apply (held_flips_true_other d d' m m'); try assumption.
    intros ->. cbn [frees] in Hfr. now rewrite bool_decide_eq_false in Hfr.
  - apply buffer_mark_in_use_inv in H as [->|(d' & _ & Hf)]; [assumption|].
    now apply (held_flips_false d d' m m').
  - apply buffer_pool_init_inv in H. now apply (held_descs d m m').
  - apply buffer_pool_acquire_inv in H as [[_ ->]|(d' & _ & _ & Hf)]; [assumption|].
    now apply (held_flips_false d d' m m').
  - now apply buffer_pool_find_inv in H as [-> _].
  - now apply (release_other_keeps_held pool_sp memory_u8p d m x m').
  - discriminate.
  - apply buffer_array_acquire_inv in H as [[_ ->]|H]; [assumption|].
    apply buffer_pool_acquire_inv in H as [[_ ->]|(d' & _ & _ & Hf)]; [assumption|].
    now apply (held_flips_false d d' m m').
  - apply buffer_array_find_by_ptr_inv in H as [[_ ->]|H]; [assumption|].
    now apply buffer_pool_find_inv in H as [-> _].
  - apply buffer_array_release_by_ptr_inv in H as [[_ ->]|H]; [assumption|].
    now apply (release_other_keeps_held (pool_of ctx_sp) memory_u8p d m x m').
Qed.

(** An acquisition returns a descriptor that was free and is now in use. *)
Lemma run_op_acquire_takes o d m m' :
  is_acquire o = true -> run_op o m = Some (RDesc (Some d), m') ->
  ~ held d m /\ held d m'.
Proof.
  destruct o; try discriminate; intros _; cbn [run_op]; intros H;
    apply bind_inv in H as (x & m1 & H & Hr); apply ret_inv in Hr as [[= <-] <-].
  - apply buffer_pool_acquire_inv in H as [[[=] _]|(d' & [= <-] & Hfree & Hf)].
    split; [now apply is_free_not_held | now apply flips_false_held in Hf].
  - apply buffer_array_acquire_inv in H as [[[=] _]|H].
    apply buffer_pool_acquire_inv in H as [[[=] _]|(d' & [= <-] & Hfree & Hf)].
    split; [now apply is_free_not_held | now apply flips_false_held in Hf].
Qed.

Lemma cells_agree_data m m' d :
  cells_agree m m' -> data_u8p <$> descs m' !! d = data_u8p <$> descs m !! d.
Proof.
  intros H. specialize (H d).
  destruct (descs m !! d) as [[p c av i]|], (descs m' !! d) as [[p' c' av' i']|];
    try discriminate; [|reflexivity].
  unfold with_is_available in H. simpl in *. congruence.
Qed.

Lemma frees_cells_agree m m' d o :
  cells_agree m m' -> frees m' d o = frees m d o.
Proof.
  intros H. apply (cells_agree_data _ _ d) in H.
  destruct o; cbn [frees]; try reflexivity;
    destruct (descs m !! d) as [b|], (descs m' !! d) as [b'|];
    try discriminate; try reflexivity;
    simpl in H; injection H as H; now rewrite H.
Qed.

(** While [d] is in use, an acquisition can return it only after a
    freeing event. *)
Lemma held_until_freed os : forall m rs m' j oj d,
  run_ops os m = Some (rs, m') -> held d m ->
  os !! j = Some oj -> is_acquire oj = true ->
  rs !! j = Some (RDesc (Some d)) ->
  exists k ok, (k < j)%nat /\ os !! k = Some ok /\ frees m d ok = true.
Proof.
  induction os as [|o os IH]; intros m rs m' j oj d Hrun Hh Hoj Hacq Hrj;
    [discriminate|].
  apply run_ops_cons_inv in Hrun as (r & m1 & rs' & Ho & Hos & ->).
  destruct j as [|j]; simpl in Hoj, Hrj.
  - injection Hoj as ->. injection Hrj as ->.
    now destruct (run_op_acquire_takes _ _ _ _ Hacq Ho) as [Hn _].
  - destruct (frees m d o) eqn:Hfr.
    + exists 0%nat, o. split; [lia|]. split; [reflexivity | assumption].
    + pose proof (run_op_keeps_held _ _ _ _ _ Ho Hfr Hh) as Hh1.
      destruct (IH _ _ _ _ _ _ Hos Hh1 Hoj Hacq Hrj) as (k & ok & Hk & Hok & Hf).
      exists (S k), ok. split; [lia|]. split; [exact Hok|].
      rewrite <- Hf. symmetry. apply frees_cells_agree.
      eapply run_op_cells_agree; eauto.
Qed.

(** While no freeing event for [d] occurs, [d] stays in use. *)
Lemma held_prefix os : forall m k rs m' d,
  run_ops (take k os) m = Some (rs, m') -> held d m ->
  (forall l ol, (l < k)%nat -> os !! l = Some ol -> frees m d ol = false) ->
  held d m'.
Proof.
  induction os as [|o os IH]; intros m k rs m' d Hrun Hh Hnf.
  - rewrite take_nil in Hrun. now apply ret_inv in Hrun as [_ ->].
  - destruct k as [|k]; [now apply ret_inv in Hrun as [_ ->]|].
    cbn [take] in Hrun.
    apply run_ops_cons_inv in Hrun as (r & m1 & rs' & Ho & Hos & _).
    pose proof (Hnf 0%nat o ltac:(lia) eq_refl) as Hfr.
    apply (IH m1 k rs' m' d Hos).
    + now apply (run_op_keeps_held _ _ _ _ _ Ho Hfr).
    + intros l ol Hl Hol.
      rewrite (frees_cells_agree m m1) by (eapply run_op_cells_agree; eauto).
      apply (Hnf (S l) ol); [lia | exact Hol].
Qed.

Lemma held_after_acquire os : forall m rs m' i oi d,
  run_ops os m = Some (rs, m') ->
  os !! i = Some oi -> is_acquire oi = true -> rs !! i = Some (RDesc (Some d)) ->
  forall k rs_k m_k,
    (i < k)%nat -> run_ops (take k os) m = Some (rs_k, m_k) ->
    (forall l ol, (i < l < k)%nat -> os !! l = Some ol -> frees m d ol = false) ->
    held d m_k.
Proof.
  induction os as [|o os IH]; intros m rs m' i oi d Hrun Hoi Hai Hri k rs_k m_k
    Hik Hk Hnf; [discriminate|].
  apply run_ops_cons_inv in Hrun as (r & m1 & rs' & Ho & Hos & ->).
  destruct k as [|k]; [lia|]. cbn [take] in Hk.
  apply run_ops_cons_inv in Hk as (r2 & m2 & rs2 & Ho2 & Hos2 & _).
  rewrite Ho in Ho2. injection Ho2 as <- <-.
  assert (Hfr : forall ol, frees m1 d ol = frees m d ol)
    by (intros ol; apply frees_cells_agree; eapply run_op_cells_agree; eauto).
  destruct i as [|i]; simpl in Hoi, Hri.
  - injection Hoi as ->. injection Hri as ->.
    destruct (run_op_acquire_takes _ _ _ _ Hai Ho) as [_ Hh1].
    apply (held_prefix os m1 k rs2 m_k d Hos2 Hh1).
    intros l ol Hl Hol. rewrite Hfr. apply (Hnf (S l) ol); [lia | exact Hol].
  - apply (IH m1 rs' m' i oi d Hos Hoi Hai Hri k rs2 m_k ltac:(lia) Hos2).
    intros l ol Hl Hol. rewrite Hfr. apply (Hnf (S l) ol); [lia | exact Hol].
Qed.

Lemma twice_acquired_freed_between os : forall m rs m' i j oi oj d,
  run_ops os m = Some (rs, m') ->
  (i < j)%nat ->
  os !! i = Some oi -> is_acquire oi = true -> rs !! i = Some (RDesc (Some d)) ->
  os !! j = Some oj -> is_acquire oj = true -> rs !! j = Some (RDesc (Some d)) ->
  exists k ok, (i < k < j)%nat /\ os !! k = Some ok /\ frees m d ok = true.
Proof.
  induction os as [|o os IH]; intros m rs m' i j oi oj d Hrun Hij Hoi Hai Hri Hoj Haj Hrj;
    [discriminate|].
  apply run_ops_cons_inv in Hrun as (r & m1 & rs' & Ho & Hos & ->).
  destruct j as [|j]; [lia|]. simpl in Hoj, Hrj.
  assert (Hback : forall ok, frees m1 d ok = true -> frees m d ok = true).
  { intros ok Hf. rewrite <- Hf. symmetry. apply frees_cells_agree.
    eapply run_op_cells_agree; eauto. }
  destruct i as [|i]; simpl in Hoi, Hri.
  - injection Hoi as ->. injection Hri as ->.
    destruct (run_op_acquire_takes _ _ _ _ Hai Ho) as [_ Hh1].
    destruct (held_until_freed _ _ _ _ _ _ _ Hos Hh1 Hoj Haj Hrj)
      as (k & ok & Hk & Hok & Hf).
    exists (S k), ok. split; [lia|]. split; [exact Hok | now apply Hback].
  - destruct (IH m1 rs' m' i j oi oj d Hos ltac:(lia) Hoi Hai Hri Hoj Haj Hrj)
      as (k & ok & Hk & Hok & Hf).
    exists (S k), ok. split; [lia|]. split; [exact Hok | now apply Hback].
Qed.

(** C5: in every sequence of calls (pool calls, context calls and the
    descriptor calls other than init), a descriptor returned by an
    acquisition is in use afterwards and stays in use as long as no
    freeing event for it occurs (a release of its backing pointer,
    [buffer_mark_free] on it, or [buffer_pool_mark_all_free]); hence, if a
    later acquisition returns the same descriptor, such an event lies
    strictly between the two. *)
Theorem no_double_acquire_without_free (os : list op) (m m' : memory)
    (rs : list result) (i : nat) (oi : op) (d : N) :
  run_ops os m = Some (rs, m') ->
  os !! i = Some oi -> is_acquire oi = true -> rs !! i = Some (RDesc (Some d)) ->
  (forall j oj, (i < j)%nat ->
     os !! j = Some oj -> is_acquire oj = true -> rs !! j = Some (RDesc (Some d)) ->
     exists k ok, (i < k < j)%nat /\ os !! k = Some ok /\ frees m d ok = true)
  /\ (forall k rs_k m_k, (i < k)%nat ->
        run_ops (take k os) m = Some (rs_k, m_k) ->
        (forall l ol, (i < l < k)%nat -> os !! l = Some ol -> frees m d ol = false) ->
        held d m_k).
Proof.
  intros Hrun Hoi Hai Hri. split.
  - intros j oj Hij Hoj Haj Hrj.
    now apply (twice_acquired_freed_between os m rs m' i j oi oj d).
  - now apply (held_after_acquire os m rs m' i oi d).
Qed.

Lemma no_double_acquire_without_free_witness :
  exists k ok, (1 < k < 5)%nat /\ demo_trace !! k = Some ok
               /\ frees demo_memory 12 ok = true.
Proof.
  refine (proj1 (no_double_acquire_without_free demo_trace demo_memory _ _ 1
                   (OpCtxAcquire (Some 5)) 12 _ _ _ _)
            5%nat (OpAcquire (Some (PoolObj 1))) _ _ _ _).
  - vm_compute. reflexivity.
  - reflexivity.
  - reflexivity.
  - reflexivity.
  - lia.
  - reflexivity.
  - reflexivity.
  - reflexivity.
Defined.

(** ** Calls on well-formed memories do not fault *)

Lemma acquire_scan_total n : forall m a idx,
  (forall i, idx <= i < idx + N.of_nat n -> is_Some (descs m !! (a + i))) ->
  is_Some (acquire_scan n (Some a) idx m).
Proof.
  induction n as [|n IH]; intros m a idx Hal; [now eexists|].
  destruct (is_free (descs m !! (a + idx))) eqn:Hf.
  - apply is_free_true in Hf as (b & Hb & Hi & Ha).
    rewrite (acquire_scan_take _ _ _ _ _ Hb Hi Ha). now eexists.
  - rewrite acquire_scan_skip by (first [apply Hal; lia | assumption]).
    apply IH. intros i Hi. apply Hal. lia.
Qed.

Lemma mark_all_scan_total n : forall m a idx,
  (forall i, idx <= i < idx + N.of_nat n -> is_Some (descs m !! (a + i))) ->
  is_Some (mark_all_scan n (Some a) idx m).
Proof.
  induction n as [|n IH]; intros m a idx Hal; [now eexists|].
  destruct (Hal idx ltac:(lia)) as [b Hb].
  cbn [mark_all_scan elem]. unfold bind at 1. unfold ret at 1.
  unfold bind at 1. rewrite (buffer_is_valid_at _ _ _ Hb).
  destruct (is_initialized b).
  - unfold bind at 1. rewrite (assign_at _ _ _ _ Hb).
    apply IH. intros i Hi. simpl.
    destruct (decide (a + idx = a + i)) as [->|Hne].
    + rewrite lookup_insert_eq. eauto.
    + rewrite lookup_insert_ne by assumption. apply Hal. lia.
  - unfold bind at 1. unfold ret at 1. apply IH. intros i Hi. apply Hal. lia.
Qed.

Lemma buffer_data_total m p out :
  desc_ptr_ok m p -> is_Some (buffer_data p out m).
Proof.
  destruct p as [a|]; simpl.
  - intros [b Hb]. unfold buffer_data.
    destruct out.
    + unfold bind at 1. unfold bind at 1. rewrite (buffer_is_valid_at _ _ _ Hb).
      destruct (is_initialized b) eqn:Hi.
      * unfold bind at 1. rewrite (deref_at _ _ _ Hb). unfold ret at 1.
        unfold bind at 1. rewrite (buffer_is_valid_at _ _ _ Hb), Hi.
        unfold bind. rewrite (deref_at _ _ _ Hb). now eexists.
      * unfold ret at 1. unfold bind at 1.
        rewrite (buffer_is_valid_at _ _ _ Hb), Hi. now eexists.
    + unfold bind at 1. unfold ret at 1. unfold bind at 1.
      rewrite (buffer_is_valid_at _ _ _ Hb).
      destruct (is_initialized b); [|now eexists].
      unfold bind. rewrite (deref_at _ _ _ Hb). now eexists.
  - intros _. destruct out; now eexists.
Qed.

Lemma buffer_mark_free_total m p :
  desc_ptr_ok m p -> is_Some (buffer_mark_free p m).
Proof.
  destruct p as [a|]; simpl; [|now eexists].
  intros [b Hb]. rewrite (buffer_mark_free_at _ _ _ Hb). now eexists.
Qed.

Lemma buffer_mark_in_use_total m p :
  desc_ptr_ok m p -> is_Some (buffer_mark_in_use p m).
Proof.
  destruct p as [a|]; simpl; [|now eexists].
  intros [b Hb]. rewrite (buffer_mark_in_use_at _ _ _ Hb). now eexists.
Qed.

Lemma assign_pool_obj_at m l pl f :
  pools m !! l = Some pl ->
  assign_pool (Some (PoolObj l)) f m = Some (tt, set_pools m (<[l := f pl]> (pools m))).
Proof. intros H. unfold assign_pool. now rewrite H. Qed.

Lemma assign_pool_obj_after m l pl f :
  assign_pool (Some (PoolObj l)) f (set_pools m (<[l := pl]> (pools m)))
  = Some (tt, set_pools m (<[l := f pl]> (pools m))).
Proof.
  unfold assign_pool. simpl. rewrite lookup_insert_eq.
  unfold set_pools. simpl. now rewrite insert_insert_eq.
Qed.

Lemma assign_pool_of_ctx_at m c cx f :
  ctxs m !! c = Some cx ->
  assign_pool (Some (PoolOfCtx c)) f m
  = Some (tt, set_ctxs m (<[c := with_pool_s (f (pool_s cx)) cx]> (ctxs m))).
Proof. intros H. unfold assign_pool. now rewrite H. Qed.

(** What [buffer_pool_init] does to an object in memory. *)
Lemma buffer_pool_init_result m r pl array count :
  lookup_pool r m = Some pl ->
  exists m',
    buffer_pool_init (Some r) array count m = Some (tt, m')
    /\ descs m' = descs m
    /\ (forall r', r' <> r -> lookup_pool r' m' = lookup_pool r' m)
    /\ lookup_pool r m'
       = Some (if is_null array || (count =? 0) then pl else mk_pool array count true).
Proof.
  intros Hl. unfold buffer_pool_init. simpl.
  destruct (is_null array || (count =? 0)) eqn:Hg.
  { exists m. repeat split; auto. }
  destruct r as [l|c]; simpl in Hl.
  - eexists. split.
    { unfold bind. rewrite (assign_pool_obj_at _ _ _ _ Hl).
      rewrite !assign_pool_obj_after. reflexivity. }
    split; [reflexivity|]. split.
    + intros [l'|c'] Hne; simpl; [|reflexivity].
      apply lookup_insert_ne. congruence.
    + simpl. now rewrite lookup_insert_eq.
  - destruct (ctxs m !! c) as [cx|] eqn:Hc; [|discriminate].
    injection Hl as <-. eexists. split.
    { unfold bind. rewrite (assign_pool_of_ctx_at _ _ _ _ Hc).
      rewrite !assign_pool_of_ctx_after. reflexivity. }
    split; [reflexivity|]. split.
    + intros [l'|c'] Hne; simpl; [reflexivity|].
      rewrite lookup_insert_ne by congruence. reflexivity.
    + simpl. now rewrite lookup_insert_eq.
Qed.

Lemma buffer_pool_init_null m array count :
  buffer_pool_init None array count m = Some (tt, m).
Proof. reflexivity. Qed.

Lemma buffer_pool_acquire_total m p :
  memory_ok m -> pool_ptr_ok m p -> is_Some (buffer_pool_acquire p m).
Proof.
  intros Hok Hp. destruct p as [r|]; [|now eexists].
  destruct Hp as [pl Hl]. destruct (pool_valid pl) eqn:Hv.
  - destruct (pool_valid_array _ Hv) as [a Ha].
    rewrite (buffer_pool_acquire_valid _ _ _ _ Hl Hv Ha).
    apply acquire_scan_total. intros i Hi. apply (Hok r pl Hl Hv a Ha). lia.
  - rewrite (buffer_pool_acquire_invalid _ _ _ Hl Hv). now eexists.
Qed.

Lemma buffer_pool_find_total m p x :
  memory_ok m -> pool_ptr_ok m p -> is_Some (buffer_pool_find p x m).
Proof.
  intros Hok Hp. destruct p as [r|]; [|now eexists].
  destruct Hp as [pl Hl].
  rewrite (buffer_pool_find_result _ _ _ _ Hl (Hok r pl Hl)). now eexists.
Qed.

Lemma buffer_pool_release_total m p x :
  memory_ok m -> pool_ptr_ok m p -> is_Some (buffer_pool_release_by_ptr p x m).
Proof.
  intros Hok Hp. destruct p as [r|]; [|now eexists].
  destruct Hp as [pl Hl].
  rewrite (buffer_pool_release_result _ _ _ _ Hl (Hok r pl Hl)).
  destruct (find_result m pl x) as [d|] eqn:Hf; [|now eexists].
  destruct (find_result_some _ _ _ _ Hf) as (a & j & b & _ & _ & _ & _ & _ & Hb & _).
  rewrite Hb. now eexists.
Qed.

Lemma buffer_pool_mark_all_free_total m p :
  memory_ok m -> pool_ptr_ok m p -> is_Some (buffer_pool_mark_all_free p m).
Proof.
  intros Hok Hp. destruct p as [r|]; [|now eexists].
  destruct Hp as [pl Hl]. destruct (pool_valid pl) eqn:Hv.
  - destruct (pool_valid_array _ Hv) as [a Ha].
    unfold buffer_pool_mark_all_free. unfold bind at 1.
    rewrite (buffer_pool_is_valid_at _ _ _ Hl), Hv. simpl.
    unfold bind. rewrite (deref_pool_at _ _ _ Hl), Ha.
    apply mark_all_scan_total. intros i Hi. apply (Hok r pl Hl Hv a Ha). lia.
  - rewrite (buffer_pool_mark_all_free_invalid _ _ _ Hl Hv). now eexists.
Qed.

Lemma ctx_pool_ptr_ok m c : ctx_ptr_ok m c -> pool_ptr_ok m (pool_of c).
Proof.
  destruct c as [x|]; simpl; [|trivial]. intros [cx Hc]. rewrite Hc. now eexists.
Qed.

Lemma ctx_unusable_total m c :
  ctx_ptr_ok m c -> exists g, ctx_unusable c m = Some (g, m).
Proof.
  destruct c as [x|]; simpl.
  - intros [cx Hc]. rewrite (ctx_unusable_at _ _ _ Hc). eauto.
  - intros _. now eexists.
Qed.

Lemma run_op_total m o :
  memory_ok m -> op_ok m o -> is_Some (run_op o m).
Proof.
  intros Hok Ho.
  assert (Hlift : forall A (c : M A) (f : A -> result),
             is_Some (c m) -> is_Some ((x <- c ;; ret (f x)) m)).
  { intros A c f [[x m1] Hc]. unfold bind. rewrite Hc. now eexists. }
  destruct o; cbn [run_op op_ok] in *.
  - apply (Hlift _ _ (fun r => RData (fst r) (snd r))). now apply buffer_data_total.
  - apply (Hlift _ _ (fun _ => RVoid)). now apply buffer_mark_free_total.
  - apply (Hlift _ _ (fun _ => RVoid)). now apply buffer_mark_in_use_total.
  - apply (Hlift _ _ (fun _ => RVoid)). destruct Ho as [Hp _].
    destruct pool_sp as [r|]; [|now eexists].
    destruct Hp as [pl Hl].
    destruct (buffer_pool_init_result m r pl array count Hl) as (m' & -> & _).
    now eexists.
  - apply (Hlift _ _ RDesc). now apply buffer_pool_acquire_total.
  - apply (Hlift _ _ RDesc). now apply buffer_pool_find_total.
  - apply (Hlift _ _ RBool). now apply buffer_pool_release_total.
  - apply (Hlift _ _ (fun _ => RVoid)). now apply buffer_pool_mark_all_free_total.
  - apply (Hlift _ _ RDesc). unfold buffer_array_acquire, bind.
    destruct (ctx_unusable_total _ _ Ho) as [g ->].
    destruct g; [now eexists|].
    apply buffer_pool_acquire_total; [assumption | now apply ctx_pool_ptr_ok].
  - apply (Hlift _ _ RDesc). unfold buffer_array_find_by_ptr, bind.
    destruct (ctx_unusable_total _ _ Ho) as [g ->].
    destruct g; [now eexists|].
    apply buffer_pool_find_total; [assumption | now apply ctx_pool_ptr_ok].
  - apply (Hlift _ _ RBool). unfold buffer_array_release_by_ptr, bind.
    destruct (ctx_unusable_total _ _ Ho) as [g ->].
    destruct g; [now eexists|].
    apply buffer_pool_release_total; [assumption | now apply ctx_pool_ptr_ok].
Qed.

Lemma flips_same_but_availability v d m m' :
  flips v d m m' -> same_but_availability m m'.
Proof.
  intros (b & Hb & _ & ->). split; [reflexivity|]. split; [reflexivity|].
  now apply cells_agree_set_available.
Qed.

(** Apart from [buffer_pool_init], a call changes availability flags
    only. *)
Lemma run_op_same_but_availability o m res m' :
  run_op o m = Some (res, m') ->
  (forall p a n, o <> OpPoolInit p a n) ->
  same_but_availability m m'.
Proof.
  destruct o; cbn [run_op]; intros H Hne;
    apply bind_inv in H as (x & m1 & H & Hr); apply ret_inv in Hr as [_ ->].
  - apply buffer_data_inv in H as ->. apply same_but_availability_refl.
  - apply buffer_mark_free_inv in H as [->|(d & _ & Hf)];
      [apply same_but_availability_refl | now apply flips_same_but_availability in Hf].
  - apply buffer_mark_in_use_inv in H as [->|(d & _ & Hf)];
      [apply same_but_availability_refl | now apply flips_same_but_availability in Hf].
  - now destruct (Hne pool_sp array count).
  - apply buffer_pool_acquire_inv in H as [[_ ->]|(d & _ & _ & Hf)];
      [apply same_but_availability_refl | now apply flips_same_but_availability in Hf].
  - apply buffer_pool_find_inv in H as [-> _]. apply same_but_availability_refl.
  - apply buffer_pool_release_inv in H as [->|(d & _ & Hf)];
      [apply same_but_availability_refl | now apply flips_same_but_availability in Hf].
  - now apply buffer_pool_mark_all_free_inv in H.
  - apply buffer_array_acquire_inv in H as [[_ ->]|H];
      [apply same_but_availability_refl|].
    apply buffer_pool_acquire_inv in H as [[_ ->]|(d & _ & _ & Hf)];
      [apply same_but_availability_refl | now apply flips_same_but_availability in Hf].
  - apply buffer_array_find_by_ptr_inv in H as [[_ ->]|H];
      [apply same_but_availability_refl|].
    apply buffer_pool_find_inv in H as [-> _]. apply same_but_availability_refl.
  - apply buffer_array_release_by_ptr_inv in H as [[_ ->]|H];
      [apply same_but_availability_refl|].
    apply buffer_pool_release_inv in H as [->|(d & _ & Hf)];
      [apply same_but_availability_refl | now apply flips_same_but_availability in Hf].
Qed.

Lemma same_but_availability_memory_ok m m' :
  same_but_availability m m' -> memory_ok m -> memory_ok m'.
Proof.
  intros Hs Hok r pl Hl Hv a Ha.
  rewrite (same_but_availability_lookup_pool _ _ _ Hs) in Hl.
  eapply same_but_availability_allocated; [exact Hs|]. now apply (Hok r pl).
Qed.

Lemma same_but_availability_extends m m' :
  same_but_availability m m' -> extends m m'.
Proof.
  intros Hs. split; [|split].
  - intros x [b Hb]. destruct Hs as (_ & _ & Hd). specialize (Hd x).
    rewrite Hb in Hd. destruct (descs m' !! x); [eauto | discriminate].
  - intros r. now rewrite (same_but_availability_lookup_pool _ _ _ Hs).
  - intros c. destruct Hs as (_ & <- & _). trivial.
Qed.

Lemma allocated_descs m m' a n :
  descs m' = descs m -> allocated m a n -> allocated m' a n.
Proof. intros H Hal i Hi. rewrite H. now apply Hal. Qed.

(** [buffer_pool_init] with its array in memory keeps the memory
    well-formed. *)
Lemma buffer_pool_init_shape m p array count u m' :
  buffer_pool_init p array count m = Some (u, m') ->
  memory_ok m -> op_ok m (OpPoolInit p array count) ->
  memory_ok m' /\ extends m m'.
Proof.
  intros H Hok [Hp Harr]. destruct p as [r|].
  - destruct Hp as [pl Hl].
    destruct (buffer_pool_init_result m r pl array count Hl)
      as (m1 & Hrun & Hd & Hother & Hself).
    rewrite Hrun in H. injection H as _ <-. split.
    + intros r' pl' Hl' Hv a Ha. apply (allocated_descs m m1 _ _ Hd).
      destruct (decide (r' = r)) as [->|Hne].
      * rewrite Hself in Hl'. injection Hl' as <-.
        destruct (is_null array || (count =? 0)).
        -- now apply (Hok r pl Hl Hv a Ha).
        -- simpl in Ha. simpl. now apply Harr.
      * rewrite (Hother r' Hne) in Hl'. now apply (Hok r' pl' Hl' Hv a Ha).
    + assert (Hpools : forall r', is_Some (lookup_pool r' m) -> is_Some (lookup_pool r' m1)).
      { intros r' Hs. destruct (decide (r' = r)) as [->|Hne].
        - rewrite Hself. now eexists.
        - now rewrite (Hother r' Hne). }
      split; [|split].
      * intros x. now rewrite Hd.
      * exact Hpools.
      * intros c [cx Hc]. specialize (Hpools (PoolOfCtx c)). simpl in Hpools.
        rewrite Hc in Hpools. destruct (Hpools ltac:(now eexists)) as [pl' Hpl].
        destruct (ctxs m1 !! c); [now eexists | discriminate].
  - rewrite buffer_pool_init_null in H. injection H as _ <-.
    split; [assumption|]. apply same_but_availability_extends.
    apply same_but_availability_refl.
Qed.

Lemma run_op_shape o m res m' :
  run_op o m = Some (res, m') -> memory_ok m -> op_ok m o ->
  memory_ok m' /\ extends m m'.
Proof.
  intros H Hok Ho.
  assert (Hcases : (exists p a n, o = OpPoolInit p a n)
                   \/ forall p a n, o <> OpPoolInit p a n).
  { destruct o; try (right; discriminate). left. eauto. }
  destruct Hcases as [(p & a & n & ->)|Hne].
  - cbn [run_op] in H. apply bind_inv in H as (x & m1 & H & Hr).
    apply ret_inv in Hr as [_ ->]. now apply (buffer_pool_init_shape m p a n x).
  - pose proof (run_op_same_but_availability _ _ _ _ H Hne) as Hs. split.
    + now apply (same_but_availability_memory_ok m).
    + now apply same_but_availability_extends.
Qed.

Lemma op_ok_extends m m' o : extends m m' -> op_ok m o -> op_ok m' o.
Proof.
  intros (Hd & Hp & Hc).
  assert (Hdp : forall p, desc_ptr_ok m p -> desc_ptr_ok m' p)
    by (intros [a|]; simpl; auto).
  assert (Hpp : forall p, pool_ptr_ok m p -> pool_ptr_ok m' p)
    by (intros [r|]; simpl; auto).
  assert (Hcp : forall p, ctx_ptr_ok m p -> ctx_ptr_ok m' p)
    by (intros [c|]; simpl; auto).
  destruct o; cbn [op_ok]; auto.
  intros [H1 H2]. split; [auto|]. intros a Ha i Hi. apply Hd. now apply (H2 a Ha).
Qed.

(** A sequence of well-formed calls on a well-formed memory runs to its
    end. *)
Lemma run_ops_total os : forall m,
  memory_ok m -> Forall (op_ok m) os -> is_Some (run_ops os m).
Proof.
  induction os as [|o os IH]; intros m Hok Hall; [now eexists|].
  apply Forall_cons in Hall as [Ho Hall].
  destruct (run_op_total m o Hok Ho) as [[r m1] Hr].
  destruct (run_op_shape _ _ _ _ Hr Hok Ho) as [Hok1 Hext].
  destruct (IH m1 Hok1) as [[rs m2] Hrs].
  - eapply Forall_impl; [exact Hall|]. intros o'. now apply op_ok_extends.
  - cbn [run_ops]. unfold bind. rewrite Hr, Hrs. now eexists.
Qed.

(** C9: whatever sequence of calls other than the init functions runs
    ([buffer_data], [buffer_mark_free], [buffer_mark_in_use], the pool
    calls and the context forwarding calls, on any arguments), each
    descriptor in memory ends with the backing pointer, the capacity and
    the initialized flag it started with: at most its availability flag
    differs. Such a sequence does run to its end when the memory is
    well-formed and the pointers passed are [NULL] or point at objects. *)
Theorem backing_and_capacity_never_change (os : list op) (m : memory)
    (d : N) (b : buffer_st) :
  descs m !! d = Some b ->
  (forall rs m', run_ops os m = Some (rs, m') ->
     exists b', descs m' !! d = Some b'
                /\ data_u8p b' = data_u8p b
                /\ capacity_bytes b' = capacity_bytes b
                /\ is_initialized b' = is_initialized b
                /\ b' = with_is_available (is_available b') b)
  /\ (memory_ok m -> Forall (op_ok m) os -> is_Some (run_ops os m)).
Proof.
  intros Hb. split; [|apply run_ops_total].
  intros rs m' Hrun.
  destruct (cells_agree_lookup m m' d b (run_ops_cells_agree _ _ _ _ Hrun) Hb)
    as [v Hv].
  exists (with_is_available v b). split; [assumption|]. repeat split.
Qed.

Lemma backing_and_capacity_never_change_witness :
  exists rs m' b',
    run_ops demo_trace demo_memory = Some (rs, m')
    /\ descs m' !! 12 = Some b'
    /\ data_u8p b' = 1128 /\ capacity_bytes b' = 64 /\ is_initialized b' = true.
Proof.
  destruct (run_ops demo_trace demo_memory) as [[rs m']|] eqn:Hrun.
  - destruct (proj1 (backing_and_capacity_never_change demo_trace demo_memory 12
                       (mk_buffer 1128 64 true true) eq_refl) rs m' Hrun)
      as (b' & Hb' & Hd & Hc & Hi & _).
    exists rs, m', b'. auto.
  - vm_compute in Hrun. discriminate.
Defined.

(** * Further properties of the code *)

(** ** [buffer_init] and [buffer_data] *)

Lemma buffer_data_at m d b out :
  descs m !! d = Some b ->
  buffer_data (Some d) out m
  = Some ((if is_initialized b then data_u8p b else NULL,
           if out then Some (if is_initialized b then capacity_bytes b else 0)
           else None), m).
Proof.
  intros Hb. unfold buffer_data. destruct out.
  - unfold bind at 1. unfold bind at 1. rewrite (buffer_is_valid_at _ _ _ Hb).
    destruct (is_initialized b) eqn:Hi.
    + unfold bind at 1. rewrite (deref_at _ _ _ Hb). unfold ret at 1.
      unfold bind at 1. rewrite (buffer_is_valid_at _ _ _ Hb), Hi.
      unfold bind. now rewrite (deref_at _ _ _ Hb).
    + unfold ret at 1. unfold bind at 1.
      now rewrite (buffer_is_valid_at _ _ _ Hb), Hi.
  - unfold bind at 1. unfold ret at 1. unfold bind at 1.
    rewrite (buffer_is_valid_at _ _ _ Hb).
    destruct (is_initialized b); [|reflexivity].
    unfold bind. now rewrite (deref_at _ _ _ Hb).
Qed.

(** X1: [buffer_data] hands out the backing pointer and the capacity of an
    initialized descriptor whether it is available or in use, hands out
    [NULL] and 0 for an uninitialized or [NULL] descriptor, stores no
    capacity through a [NULL] out pointer, and writes nothing. *)
Theorem buffer_data_ignores_availability (m : memory) (d : N) (b : buffer_st)
    (v : bool) :
  descs m !! d = Some b ->
  (is_initialized b = true ->
     buffer_data (Some d) true m = Some ((data_u8p b, Some (capacity_bytes b)), m)
     /\ buffer_data (Some d) false m = Some ((data_u8p b, None), m)
     /\ fst <$> buffer_data (Some d) true
                  (set_descs m (<[d := with_is_available v b]> (descs m)))
        = Some (data_u8p b, Some (capacity_bytes b)))
  /\ (is_initialized b = false ->
        buffer_data (Some d) true m = Some ((NULL, Some 0), m)
        /\ buffer_data (Some d) false m = Some ((NULL, None), m))
  /\ buffer_data None true m = Some ((NULL, Some 0), m)
  /\ buffer_data None false m = Some ((NULL, None), m).
Proof.
  intros Hb. split; [|split; [|split; reflexivity]].
  - intros Hi. rewrite !(buffer_data_at _ _ _ _ Hb), Hi.
    split; [reflexivity|]. split; [reflexivity|].
    erewrite buffer_data_at by (simpl; apply lookup_insert_eq).
    simpl. now rewrite Hi.
  - intros Hi. rewrite !(buffer_data_at _ _ _ _ Hb), Hi. split; reflexivity.
Qed.

Lemma buffer_data_ignores_availability_witness :
  buffer_data (Some 10) true demo_memory = Some ((1000, Some 64), demo_memory).
Proof.
  exact (proj1 (proj1 (buffer_data_ignores_availability demo_memory 10
                         (mk_buffer 1000 64 false true) true eq_refl) eq_refl)).
Defined.

(** X2: [buffer_init] binds whatever it is given, also over a descriptor that
    was bound before and is in use: a following [buffer_data] returns
    exactly the arguments of the last [buffer_init], the descriptor is
    available exactly when both were non-zero, and no other object
    changes. *)
Theorem buffer_init_then_data (m : memory) (d : N) (b : buffer_st) (p cap : N) :
  descs m !! d = Some b ->
  exists m1,
    buffer_init (Some d) p cap m = Some (tt, m1)
    /\ buffer_data (Some d) true m1 = Some ((p, Some cap), m1)
    /\ descs m1 !! d
       = Some (mk_buffer p cap (negb (p =? NULL) && negb (cap =? 0)) true)
    /\ (forall x, x <> d -> descs m1 !! x = descs m !! x)
    /\ pools m1 = pools m /\ ctxs m1 = ctxs m.
Proof.
  intros Hb. eexists. split; [now apply (buffer_init_at _ _ _ _ _ Hb)|].
  split.
  - erewrite buffer_data_at by (simpl; apply lookup_insert_eq). reflexivity.
  - split; [simpl; apply lookup_insert_eq|].
    split; [|split; reflexivity].
    intros x Hx. simpl. apply lookup_insert_ne. congruence.
Qed.

Lemma buffer_init_then_data_witness :
  exists m1,
    buffer_init (Some 10) 5000 8 demo_memory = Some (tt, m1)
    /\ buffer_data (Some 10) true m1 = Some ((5000, Some 8), m1)
    /\ descs m1 !! 10 = Some (mk_buffer 5000 8 true true)
    /\ (forall x, x <> 10 -> descs m1 !! x = descs demo_memory !! x)
    /\ pools m1 = pools demo_memory /\ ctxs m1 = ctxs demo_memory.
Proof.
  apply (buffer_init_then_data demo_memory 10 (mk_buffer 1000 64 false true) 5000 8).
  reflexivity.
Defined.

(** ** [buffer_pool_init] *)

Lemma buffer_pool_init_rejects m r array count :
  array = None \/ count = 0 ->
  buffer_pool_init (Some r) array count m = Some (tt, m).
Proof.
  intros H. unfold buffer_pool_init. simpl.
  destruct H as [-> | ->]; [reflexivity|]. now rewrite orb_true_r.
Qed.

(** X3: [buffer_pool_init] changes nothing when the pool pointer or the array
    is [NULL] or the count is zero (a pool bound before stays bound as it
    was); otherwise it binds the array and the count and marks the pool
    initialized, after which the pool passes the validity test, and it
    touches neither the descriptors nor any other pool. *)
Theorem buffer_pool_init_binds (m : memory) (r : pool_ref) (pl : buffer_pool_st)
    (a count : N) :
  lookup_pool r m = Some pl ->
  (forall array n, array = None \/ n = 0 ->
     buffer_pool_init (Some r) array n m = Some (tt, m))
  /\ (forall array n, buffer_pool_init None array n m = Some (tt, m))
  /\ (count <> 0 ->
      exists m',
        buffer_pool_init (Some r) (Some a) count m = Some (tt, m')
        /\ lookup_pool r m' = Some (mk_pool (Some a) count true)
        /\ buffer_pool_is_valid (Some r) m' = Some (true, m')
        /\ descs m' = descs m
        /\ forall r', r' <> r -> lookup_pool r' m' = lookup_pool r' m).
Proof.
  intros Hl. split; [intros array n; apply buffer_pool_init_rejects|].
  split; [reflexivity|]. intros Hc.
  destruct (buffer_pool_init_result m r pl (Some a) count Hl)
    as (m' & Hrun & Hd & Hother & Hself).
  simpl in Hself. rewrite (proj2 (N.eqb_neq count 0) Hc) in Hself.
  exists m'. split; [exact Hrun|]. split; [exact Hself|].
  split; [|split; assumption].
  rewrite (buffer_pool_is_valid_at _ _ _ Hself). unfold pool_valid. simpl.
  now rewrite (proj2 (N.ltb_lt 0 count)) by lia.
Qed.

Lemma buffer_pool_init_binds_witness :
  exists m',
    buffer_pool_init (Some (PoolObj 8)) (Some 50) 2 raw_memory = Some (tt, m')
    /\ lookup_pool (PoolObj 8) m' = Some (mk_pool (Some 50) 2 true)
    /\ buffer_pool_is_valid (Some (PoolObj 8)) m' = Some (true, m')
    /\ descs m' = descs raw_memory
    /\ forall r', r' <> PoolObj 8 -> lookup_pool r' m' = lookup_pool r' raw_memory.
Proof.
  apply (proj2 (proj2 (buffer_pool_init_binds raw_memory (PoolObj 8) zero_pool 50 2
                         eq_refl))).
  discriminate.
Defined.

(** ** [buffer_pool_mark_all_free] *)

Lemma mark_all_scan_cells n : forall m a idx,
  (forall i, idx <= i < idx + N.of_nat n -> is_Some (descs m !! (a + i))) ->
  mark_all_scan n (Some a) idx m
  = Some (tt, set_descs m (free_cells n (descs m) a idx)).
Proof.
  induction n as [|n IH]; intros m a idx Hal.
  - cbn [mark_all_scan free_cells]. now rewrite set_descs_id.
  - destruct (Hal idx ltac:(lia)) as [b Hb].
    cbn [mark_all_scan free_cells elem]. unfold bind at 1. unfold ret at 1.
    unfold bind at 1. rewrite (buffer_is_valid_at _ _ _ Hb). rewrite Hb.
    destruct (is_initialized b).
    + unfold bind at 1. rewrite (assign_at _ _ _ _ Hb). rewrite IH.
      * reflexivity.
      * intros i Hi. simpl. destruct (decide (a + idx = a + i)) as [->|Hne].
        -- rewrite lookup_insert_eq. eauto.
        -- rewrite lookup_insert_ne by assumption. apply Hal. lia.
    + unfold bind at 1. unfold ret at 1. apply IH.
      intros i Hi. apply Hal. lia.
Qed.

Lemma free_cells_outside n : forall d a idx x,
  (forall i, idx <= i < idx + N.of_nat n -> x <> a + i) ->
  free_cells n d a idx !! x = d !! x.
Proof.
  induction n as [|n IH]; intros d a idx x Hx; [reflexivity|].
  cbn [free_cells]. rewrite IH by (intros i Hi; apply Hx; lia).
  destruct (d !! (a + idx)) as [b|]; [|reflexivity].
  destruct (is_initialized b); [|reflexivity].
  apply lookup_insert_ne. intros Heq. apply (Hx idx); [lia | now symmetry].
Qed.

Lemma free_cells_inside n : forall d a idx i,
  idx <= i < idx + N.of_nat n ->
  free_cells n d a idx !! (a + i) = freed <$> d !! (a + i).
Proof.
  induction n as [|n IH]; intros d a idx i Hi; [lia|].
  cbn [free_cells]. destruct (N.eq_dec i idx) as [->|Hne].
  - rewrite free_cells_outside by (intros k Hk; lia).
    destruct (d !! (a + idx)) as [b|] eqn:Hb; [|now rewrite Hb].
    unfold freed. destruct (is_initialized b) eqn:Hib.
    + rewrite lookup_insert_eq. simpl. now rewrite Hib.
    + rewrite Hb. simpl. now rewrite Hib.
  - rewrite IH by lia.
    destruct (d !! (a + idx)) as [b|]; [|reflexivity].
    destruct (is_initialized b); [|reflexivity].
    rewrite lookup_insert_ne by lia. reflexivity.
Qed.

Lemma free_cells_uninitialized n : forall d a idx,
  (forall i b, idx <= i < idx + N.of_nat n -> d !! (a + i) = Some b ->
               is_initialized b = false) ->
  free_cells n d a idx = d.
Proof.
  induction n as [|n IH]; intros d a idx H; [reflexivity|].
  cbn [free_cells]. destruct (d !! (a + idx)) as [b|] eqn:Hb.
  - rewrite (H idx b ltac:(lia) Hb). apply IH.
    intros i b' Hi. apply H. lia.
  - apply IH. intros i b' Hi. apply H. lia.
Qed.

Lemma buffer_pool_mark_all_free_valid m r pl a :
  lookup_pool r m = Some pl -> pool_valid pl = true ->
  buffer_array_sa pl = Some a -> allocated m a (buffer_count pl) ->
  buffer_pool_mark_all_free (Some r) m
  = Some (tt, set_descs m (free_cells (N.to_nat (buffer_count pl)) (descs m) a 0)).
Proof.
  intros Hl Hv Ha Hal. unfold buffer_pool_mark_all_free. unfold bind at 1.
  rewrite (buffer_pool_is_valid_at _ _ _ Hl), Hv. simpl.
  unfold bind. rewrite (deref_pool_at _ _ _ Hl), Ha.
  apply mark_all_scan_cells. intros i Hi. apply Hal. lia.
Qed.

(** X5: [buffer_pool_mark_all_free] on a valid pool makes every initialized
    descriptor of the array available, leaves the uninitialized ones as
    they are, and touches nothing outside the array: no other descriptor,
    no pool, no context. *)
Theorem mark_all_free_resets_array (m : memory) (r : pool_ref) (pl : buffer_pool_st)
    (a : N) :
  lookup_pool r m = Some pl ->
  pool_is_initialized pl = true -> buffer_array_sa pl = Some a ->
  0 < buffer_count pl -> allocated m a (buffer_count pl) ->
  exists m',
    buffer_pool_mark_all_free (Some r) m = Some (tt, m')
    /\ (forall i b, i < buffer_count pl -> descs m !! (a + i) = Some b ->
          descs m' !! (a + i)
          = Some (if is_initialized b then with_is_available true b else b))
    /\ (forall x, (forall i, i < buffer_count pl -> x <> a + i) ->
          descs m' !! x = descs m !! x)
    /\ pools m' = pools m /\ ctxs m' = ctxs m.
Proof.
  intros Hl Hi Ha Hc Hal.
  pose proof (pool_valid_intro _ _ Hi Ha Hc) as Hv.
  eexists. split; [now apply (buffer_pool_mark_all_free_valid _ _ _ _ Hl Hv Ha)|].
  split; [|split; [|split; reflexivity]].
  - intros i b Hlt Hb. simpl. rewrite free_cells_inside by lia. now rewrite Hb.
  - intros x Hx. simpl. apply free_cells_outside. intros i Hr. apply Hx. lia.
Qed.

Lemma mark_all_free_resets_array_witness :
  exists m',
    buffer_pool_mark_all_free (Some (PoolObj 1)) demo_memory = Some (tt, m')
    /\ descs m' !! 10 = Some (mk_buffer 1000 64 true true)
    /\ pools m' = pools demo_memory /\ ctxs m' = ctxs demo_memory.
Proof.
  destruct (mark_all_free_resets_array demo_memory (PoolObj 1) demo_pool 10)
    as (m' & Hrun & Hin & _ & Hp & Hc).
  - reflexivity.
  - reflexivity.
  - reflexivity.
  - reflexivity.
  - exact demo_allocated.
  - exists m'. split; [exact Hrun|].
    split; [exact (Hin 0 (mk_buffer 1000 64 false true) eq_refl eq_refl)|].
    split; assumption.
Defined.

(** X4: [buffer_pool_init] does not initialize descriptors: a pool bound to
    an array of descriptors that [buffer_init] never touched is valid,
    yet [buffer_pool_acquire] and [buffer_pool_find] return [NULL],
    [buffer_pool_release_by_ptr] returns false and
    [buffer_pool_mark_all_free] frees nothing. *)
Theorem pool_over_uninitialized_descriptors (m : memory) (r : pool_ref)
    (pl : buffer_pool_st) (a count : N) :
  lookup_pool r m = Some pl -> 0 < count -> allocated m a count ->
  (forall i b, i < count -> descs m !! (a + i) = Some b -> is_initialized b = false) ->
  exists m',
    buffer_pool_init (Some r) (Some a) count m = Some (tt, m')
    /\ buffer_pool_is_valid (Some r) m' = Some (true, m')
    /\ buffer_pool_acquire (Some r) m' = Some (None, m')
    /\ (forall p, buffer_pool_find (Some r) p m' = Some (None, m'))
    /\ (forall p, buffer_pool_release_by_ptr (Some r) p m' = Some (false, m'))
    /\ buffer_pool_mark_all_free (Some r) m' = Some (tt, m').
Proof.
  intros Hl Hc Hal Hun.
  destruct (buffer_pool_init_result m r pl (Some a) count Hl)
    as (m' & Hrun & Hd & _ & Hself).
  simpl in Hself. rewrite (proj2 (N.eqb_neq count 0)) in Hself by lia.
  set (pl' := mk_pool (Some a) count true) in *.
  assert (Hv : pool_valid pl' = true)
    by (unfold pool_valid; simpl; now apply N.ltb_lt).
  assert (Hal' : allocated m' a count) by now apply (allocated_descs m m').
  assert (Hun' : forall i, i < count ->
            exists b, descs m' !! (a + i) = Some b /\ is_initialized b = false).
  { intros i Hi. rewrite Hd. destruct (Hal i Hi) as [b Hb]. eauto. }
  assert (Hs : pool_safe m' pl') by (intros _ a' [= <-]; exact Hal').
  assert (Hfind : forall p, find_result m' pl' p = None).
  { intros p. apply find_result_none. right; right. intros a' [= <-] i Hi.
    destruct (Hun' i Hi) as (b & -> & Hb). simpl. now rewrite Hb. }
  exists m'. split; [exact Hrun|].
  split; [now rewrite (buffer_pool_is_valid_at _ _ _ Hself), Hv|].
  split.
  { rewrite (buffer_pool_acquire_valid _ _ _ _ Hself Hv eq_refl).
    apply acquire_scan_none; intros i Hi.
    - apply Hal'. simpl in Hi. lia.
    - destruct (Hun' i ltac:(simpl in Hi; lia)) as (b & -> & Hb). simpl. now rewrite Hb. }
  split.
  { intros p. rewrite (buffer_pool_find_result _ _ _ _ Hself Hs). now rewrite Hfind. }
  split.
  { intros p. rewrite (buffer_pool_release_result _ _ _ _ Hself Hs). now rewrite Hfind. }
  rewrite (buffer_pool_mark_all_free_valid _ _ _ _ Hself Hv eq_refl Hal').
  rewrite free_cells_uninitialized; [now rewrite set_descs_id|].
  intros i b Hi Hb. rewrite Hd in Hb. apply (Hun i b); [simpl in Hi; lia | exact Hb].
Qed.

Lemma raw_allocated : allocated raw_memory 50 2.
Proof.
  intros i Hi.
  assert (i = 0 \/ i = 1) as [-> | ->] by lia; vm_compute; eauto.
Qed.

Lemma pool_over_uninitialized_descriptors_witness :
  exists m',
    buffer_pool_init (Some (PoolObj 8)) (Some 50) 2 raw_memory = Some (tt, m')
    /\ buffer_pool_is_valid (Some (PoolObj 8)) m' = Some (true, m')
    /\ buffer_pool_acquire (Some (PoolObj 8)) m' = Some (None, m')
    /\ (forall p, buffer_pool_find (Some (PoolObj 8)) p m' = Some (None, m'))
    /\ (forall p, buffer_pool_release_by_ptr (Some (PoolObj 8)) p m' = Some (false, m'))
    /\ buffer_pool_mark_all_free (Some (PoolObj 8)) m' = Some (tt, m').
Proof.
  apply (pool_over_uninitialized_descriptors raw_memory (PoolObj 8) zero_pool 50 2).
  - reflexivity.
  - reflexivity.
  - exact raw_allocated.
  - intros i b Hi.
    assert (i = 0 \/ i = 1) as [-> | ->] by lia; intros [= <-]; reflexivity.
Defined.

(** ** Acquire and release together *)

Lemma with_is_available_restore b :
  is_available b = true -> with_is_available true (with_is_available false b) = b.
Proof. destruct b as [p c av i]. simpl. intros ->. reflexivity. Qed.

Lemma find_result_lowest m pl a p j :
  buffer_array_sa pl = Some a -> pool_valid pl = true -> p <> NULL ->
  j < buffer_count pl ->
  matches p (descs m !! (a + j)) = true ->
  (forall i, i < j -> matches p (descs m !! (a + i)) = false) ->
  find_result m pl p = Some (a + j).
Proof.
  intros Ha Hv Hp Hj Hm Hlow. unfold find_result. rewrite Ha, Hv.
  rewrite (proj2 (N.eqb_neq p NULL) Hp). simpl.
  apply first_match_lowest; [lia | assumption|].
  intros i Hi. apply Hlow. lia.
Qed.

(** X8: releasing the backing pointer of the descriptor just acquired undoes
    the acquisition: the memory is again what it was before, provided
    that pointer is not [NULL] and no initialized descriptor at a lower
    index has the same one. *)
Theorem acquire_then_release_restores (m : memory) (r : pool_ref)
    (pl : buffer_pool_st) (a j : N) (b : buffer_st) :
  lookup_pool r m = Some pl ->
  pool_is_initialized pl = true -> buffer_array_sa pl = Some a ->
  allocated m a (buffer_count pl) ->
  j < buffer_count pl -> descs m !! (a + j) = Some b ->
  is_initialized b = true -> is_available b = true ->
  (forall i, i < j -> is_free (descs m !! (a + i)) = false) ->
  data_u8p b <> NULL ->
  (forall i, i < j -> matches (data_u8p b) (descs m !! (a + i)) = false) ->
  exists m1,
    buffer_pool_acquire (Some r) m = Some (Some (a + j), m1)
    /\ m1 <> m
    /\ buffer_pool_release_by_ptr (Some r) (data_u8p b) m1 = Some (true, m).
Proof.
  intros Hl Hi Ha Hal Hj Hb Hbi Hba Hlow Hp Hnomatch.
  assert (Hv : pool_valid pl = true) by (apply (pool_valid_intro _ a); auto; lia).
  set (m1 := set_descs m (<[a + j := with_is_available false b]> (descs m))).
  assert (H1 : descs m1 !! (a + j) = Some (with_is_available false b))
    by (unfold m1; simpl; apply lookup_insert_eq).
  exists m1. split; [|split].
  - rewrite (buffer_pool_acquire_valid _ _ _ _ Hl Hv Ha).
    apply acquire_scan_first; try assumption; try lia.
    + intros i Hr. apply Hal. lia.
    + intros i Hr. apply Hlow. lia.
  - intros Heq. rewrite Heq, Hb in H1. injection H1 as H1.
    rewrite H1 in Hba. discriminate.
  - assert (Hs1 : pool_safe m1 pl).
    { intros _ a' Ha'. rewrite Ha in Ha'. injection Ha' as <-.
      now apply allocated_set_available. }
    rewrite (buffer_pool_release_result m1 r pl (data_u8p b) Hl Hs1).
    assert (Hf : find_result m1 pl (data_u8p b) = Some (a + j)).
    { rewrite (find_result_ext m m1)
        by (intros x; now apply matches_set_available).
      apply (find_result_lowest m pl a); try assumption.
      rewrite Hb. simpl. rewrite Hbi. simpl. apply N.eqb_refl. }
    rewrite Hf, H1. do 2 f_equal.
    rewrite (with_is_available_restore _ Hba). unfold m1, set_descs. simpl.
    rewrite insert_insert_eq, (insert_id _ _ _ Hb). now destruct m.
Qed.

Lemma acquire_then_release_restores_witness :
  exists m1,
    buffer_pool_acquire (Some (PoolObj 1)) demo_memory = Some (Some 11, m1)
    /\ m1 <> demo_memory
    /\ buffer_pool_release_by_ptr (Some (PoolObj 1)) 1064 m1 = Some (true, demo_memory).
Proof.
  apply (acquire_then_release_restores demo_memory (PoolObj 1) demo_pool 10 1
           (mk_buffer 1064 64 true true)).
  - reflexivity.
  - reflexivity.
  - reflexivity.
  - exact demo_allocated.
  - reflexivity.
  - reflexivity.
  - reflexivity.
  - reflexivity.
  - intros i Hi. assert (i = 0) as -> by lia. reflexivity.
  - discriminate.
  - intros i Hi. assert (i = 0) as -> by lia. reflexivity.
Defined.

(** X9: with a backing pointer shared by two descriptors, releasing the one
    just acquired by its pointer frees the other: when the descriptor [j]
    that [buffer_pool_acquire] returns has a backing pointer that is not
    [NULL], and [j0 < j] is the lowest index of an initialized descriptor
    with the same backing pointer, the release returns true, makes
    descriptor [j0] available although it was in use, and leaves
    descriptor [j] in use. *)
Theorem release_of_shared_pointer_frees_other (m : memory) (r : pool_ref)
    (pl : buffer_pool_st) (a j j0 : N) (b : buffer_st) :
  lookup_pool r m = Some pl ->
  pool_is_initialized pl = true -> buffer_array_sa pl = Some a ->
  allocated m a (buffer_count pl) ->
  j < buffer_count pl -> descs m !! (a + j) = Some b ->
  is_initialized b = true -> is_available b = true ->
  (forall i, i < j -> is_free (descs m !! (a + i)) = false) ->
  data_u8p b <> NULL ->
  j0 < j -> matches (data_u8p b) (descs m !! (a + j0)) = true ->
  (forall i, i < j0 -> matches (data_u8p b) (descs m !! (a + i)) = false) ->
  exists m1 m2,
    buffer_pool_acquire (Some r) m = Some (Some (a + j), m1)
    /\ held (a + j0) m1
    /\ buffer_pool_release_by_ptr (Some r) (data_u8p b) m1 = Some (true, m2)
    /\ held (a + j) m2
    /\ is_free (descs m2 !! (a + j0)) = true.
Proof.
  intros Hl Hi Ha Hal Hj Hb Hbi Hba Hlow Hp Hj0 Hm0 Hlow0.
  assert (Hv : pool_valid pl = true) by (apply (pool_valid_intro _ a); auto; lia).
  set (m1 := set_descs m (<[a + j := with_is_available false b]> (descs m))).
  apply matches_true in Hm0 as (b0 & Hb0 & Hb0i & Hb0d).
  assert (Hb0a : is_available b0 = false).
  { specialize (Hlow j0 Hj0). rewrite Hb0 in Hlow. simpl in Hlow.
    now rewrite Hb0i in Hlow. }
  assert (H0 : descs m1 !! (a + j0) = Some b0)
    by (unfold m1; simpl; rewrite lookup_insert_ne by lia; exact Hb0).
  exists m1. eexists. split; [|split; [|split; [|split]]].
  - rewrite (buffer_pool_acquire_valid _ _ _ _ Hl Hv Ha).
    apply acquire_scan_first; try assumption; try lia.
    + intros i Hr. apply Hal. lia.
    + intros i Hr. apply Hlow. lia.
  - exists b0. auto.
  - assert (Hs1 : pool_safe m1 pl).
    { intros _ a' Ha'. rewrite Ha in Ha'. injection Ha' as <-.
      now apply allocated_set_available. }
    rewrite (buffer_pool_release_result m1 r pl (data_u8p b) Hl Hs1).
    assert (Hf : find_result m1 pl (data_u8p b) = Some (a + j0)).
    { rewrite (find_result_ext m m1)
        by (intros x; now apply matches_set_available).
      apply (find_result_lowest m pl a); try assumption; try lia.
      rewrite Hb0. simpl. rewrite Hb0i, Hb0d. simpl. apply N.eqb_refl. }
    rewrite Hf, H0. reflexivity.
  - exists (with_is_available false b). simpl.
    rewrite lookup_insert_ne by lia. rewrite lookup_insert_eq. auto.
  - simpl. rewrite lookup_insert_eq. simpl. now rewrite Hb0i.
Qed.

Lemma release_of_shared_pointer_frees_other_witness :
  exists m1 m2,
    buffer_pool_acquire (Some (PoolObj 3)) dup_memory = Some (Some 22, m1)
    /\ held 21 m1
    /\ buffer_pool_release_by_ptr (Some (PoolObj 3)) 700 m1 = Some (true, m2)
    /\ held 22 m2
    /\ is_free (descs m2 !! 21) = true.
Proof.
  apply (release_of_shared_pointer_frees_other dup_memory (PoolObj 3) dup_pool 20 2 1
           (mk_buffer 700 32 true true)).
  - reflexivity.
  - reflexivity.
  - reflexivity.
  - exact dup_allocated.
  - reflexivity.
  - reflexivity.
  - reflexivity.
  - reflexivity.
  - intros i Hi. assert (i = 0 \/ i = 1) as [-> | ->] by lia; reflexivity.
  - discriminate.
  - reflexivity.
  - reflexivity.
  - intros i Hi. assert (i = 0) as -> by lia. reflexivity.
Defined.

Lemma buffer_pool_find_some_not_null pool_sp p m d m' :
  buffer_pool_find pool_sp p m = Some (Some d, m') -> p <> NULL.
Proof.
  unfold buffer_pool_find. intros H.
  apply bind_inv in H as (v & m1 & Hv & H).
  destruct (N.eqb_spec p NULL) as [->|Hne]; [|assumption].
  rewrite orb_true_r in H. now apply ret_inv in H as [[=] _].
Qed.

Lemma buffer_pool_release_inv_not_null pool_sp p m r m' :
  buffer_pool_release_by_ptr pool_sp p m = Some (r, m') ->
  m' = m
  \/ (p <> NULL /\ exists d, matches p (descs m !! d) = true /\ flips true d m m').
Proof.
  intros H. pose proof H as H0. unfold buffer_pool_release_by_ptr in H.
  apply bind_inv in H as (x & m1 & Hf & H).
  destruct x as [d|]; simpl in H.
  - apply buffer_pool_find_some_not_null in Hf.
    apply buffer_pool_release_inv in H0 as [->|Hd]; [now left | now right].
  - apply buffer_pool_find_inv in Hf as [-> _]. left.
    now apply ret_inv in H as [_ ->].
Qed.

(** X10: a descriptor in use whose backing pointer is [NULL] cannot be
    released by pointer: whatever pool or context and whatever pointer
    [buffer_pool_release_by_ptr] or [buffer_array_release_by_ptr] is called
    with, the descriptor is still in use afterwards. *)
Theorem null_backed_never_released_by_ptr (m : memory) (d : N) (b : buffer_st) :
  descs m !! d = Some b ->
  is_initialized b = true -> is_available b = false -> data_u8p b = NULL ->
  (forall pool_sp p r m',
     buffer_pool_release_by_ptr pool_sp p m = Some (r, m') -> held d m')
  /\ (forall ctx_sp p r m',
        buffer_array_release_by_ptr ctx_sp p m = Some (r, m') -> held d m').
Proof.
  intros Hb Hi Ha Hd.
  assert (Hh : held d m) by (exists b; auto).
  assert (Hpool : forall pool_sp p r m',
             buffer_pool_release_by_ptr pool_sp p m = Some (r, m') -> held d m').
  { intros pool_sp p r m' H.
    apply buffer_pool_release_inv_not_null in H as [->|(Hp & d' & Hm & Hf)];
      [assumption|].
    apply (held_flips_true_other d d' m m'); try assumption.
    intros ->. rewrite Hb in Hm. simpl in Hm.
    apply andb_true_iff in Hm as [_ Hm]. apply N.eqb_eq in Hm. congruence. }
  split; [exact Hpool|].
  intros ctx_sp p r m' H.
  apply buffer_array_release_by_ptr_inv in H as [[_ ->]|H]; [assumption|].
  now apply (Hpool _ _ _ _ H).
Qed.

Lemma null_backed_never_released_by_ptr_witness : held 60 phantom_memory.
Proof.
  refine (proj1 (null_backed_never_released_by_ptr phantom_memory 60
                   (mk_buffer NULL 0 false true) _ _ _ _)
            (Some (PoolObj 9)) NULL false phantom_memory _);
    reflexivity.
Defined.

Lemma least_free n : forall (d : gmap N buffer_st) a idx j,
  idx <= j < idx + N.of_nat n -> is_free (d !! (a + j)) = true ->
  exists j0, idx <= j0 <= j /\ is_free (d !! (a + j0)) = true
             /\ forall i, idx <= i < j0 -> is_free (d !! (a + i)) = false.
Proof.
  induction n as [|n IH]; intros d a idx j Hj Hf; [lia|].
  destruct (is_free (d !! (a + idx))) eqn:H0.
  - exists idx. split; [lia|]. split; [assumption|]. intros i Hi. lia.
  - assert (j <> idx) by (intros ->; congruence).
    destruct (IH d a (idx + 1) j ltac:(lia) Hf) as (j0 & Hj0 & Hf0 & Hlow).
    exists j0. split; [lia|]. split; [assumption|].
    intros i Hi. destruct (N.eq_dec i idx) as [->|Hne]; [assumption|].
    apply Hlow. lia.
Qed.

(** X11: after a release by pointer that returned true the pool is not
    exhausted: the next [buffer_pool_acquire] returns a descriptor, the
    released one or a free one at a lower index. *)
Theorem release_then_acquire_succeeds (m m1 : memory) (r : pool_ref)
    (pl : buffer_pool_st) (p : N) :
  lookup_pool r m = Some pl -> pool_safe m pl ->
  buffer_pool_release_by_ptr (Some r) p m = Some (true, m1) ->
  exists a j j0 m2,
    buffer_pool_find (Some r) p m = Some (Some (a + j), m)
    /\ j0 <= j
    /\ buffer_pool_acquire (Some r) m1 = Some (Some (a + j0), m2)
    /\ held (a + j0) m2.
Proof.
  intros Hl Hs Hrel.
  rewrite (buffer_pool_release_result _ _ _ _ Hl Hs) in Hrel.
  destruct (find_result m pl p) as [x|] eqn:Hf; [|discriminate].
  destruct (find_result_some _ _ _ _ Hf)
    as (a & j & b & Ha & Hv & Hp & Hj & -> & Hb & Hi & _).
  rewrite Hb in Hrel. injection Hrel as <-.
  set (m1 := set_descs m (<[a + j := with_is_available true b]> (descs m))).
  assert (Hfree : is_free (descs m1 !! (a + j)) = true).
  { unfold m1. simpl. rewrite lookup_insert_eq. simpl. now rewrite Hi. }
  destruct (least_free (N.to_nat (buffer_count pl)) (descs m1) a 0 j ltac:(lia) Hfree)
    as (j0 & Hj0 & Hf0 & Hlow).
  apply is_free_true in Hf0 as (b0 & Hb0 & Hb0i & Hb0a).
  assert (Hal1 : allocated m1 a (buffer_count pl))
    by (apply allocated_set_available; [assumption | now apply Hs]).
  exists a, j, j0. eexists.
  split; [rewrite <- Hf; now apply buffer_pool_find_result|].
  split; [lia|]. split.
  - rewrite (buffer_pool_acquire_valid m1 r pl a Hl Hv Ha).
    apply (acquire_scan_first _ m1 a 0 j0 b0); try assumption; try lia.
    all: intros i Hr; first [apply Hal1 | apply Hlow]; lia.
  - exists (with_is_available false b0). simpl. rewrite lookup_insert_eq. auto.
Qed.

Lemma release_then_acquire_succeeds_witness :
  exists a j j0 m2,
    buffer_pool_find (Some (PoolObj 1)) 1000 demo_memory
    = Some (Some (a + j), demo_memory)
    /\ j0 <= j
    /\ buffer_pool_acquire (Some (PoolObj 1))
         (set_descs demo_memory
            (<[10 := mk_buffer 1000 64 true true]> (descs demo_memory)))
       = Some (Some (a + j0), m2)
    /\ held (a + j0) m2.
Proof.
  apply (release_then_acquire_succeeds demo_memory _ (PoolObj 1) demo_pool 1000).
  - reflexivity.
  - exact demo_pool_safe.
  - vm_compute. reflexivity.
Defined.

(** ** [buffer_mark_in_use] *)

(** X12: [buffer_mark_in_use] on an initialized descriptor withdraws it: it is
    in use afterwards and no [buffer_pool_acquire], on whatever pool,
    returns it or changes that; on an uninitialized or [NULL] descriptor
    [buffer_mark_in_use] and [buffer_mark_free] do nothing. *)
Theorem mark_in_use_withdraws (m : memory) (d : N) (b : buffer_st) :
  descs m !! d = Some b ->
  (is_initialized b = true ->
     exists m1,
       buffer_mark_in_use (Some d) m = Some (tt, m1)
       /\ descs m1 !! d = Some (with_is_available false b)
       /\ forall pool_sp r m2,
            buffer_pool_acquire pool_sp m1 = Some (r, m2) ->
            r <> Some d /\ held d m2)
  /\ (is_initialized b = false ->
        buffer_mark_in_use (Some d) m = Some (tt, m)
        /\ buffer_mark_free (Some d) m = Some (tt, m))
  /\ buffer_mark_in_use None m = Some (tt, m)
  /\ buffer_mark_free None m = Some (tt, m).
Proof.
  intros Hb. split; [|split; [|split; reflexivity]].
  - intros Hi. eexists. split.
    { rewrite (buffer_mark_in_use_at _ _ _ Hb), Hi. reflexivity. }
    split; [simpl; apply lookup_insert_eq|].
    set (m1 := set_descs m (<[d := with_is_available false b]> (descs m))).
    assert (Hh : held d m1).
    { exists (with_is_available false b). unfold m1. simpl.
      rewrite lookup_insert_eq. auto. }
    intros pool_sp r m2 Hacq.
    apply buffer_pool_acquire_inv in Hacq as [[-> ->]|(d' & -> & Hfree & Hf)].
    + split; [discriminate | assumption].
    + split.
      * intros [= ->]. now apply (is_free_not_held d m1).
      * now apply (held_flips_false d d' m1 m2).
  - intros Hi.
    rewrite (buffer_mark_in_use_at _ _ _ Hb), (buffer_mark_free_at _ _ _ Hb), Hi.
    split; reflexivity.
Qed.

Lemma mark_in_use_withdraws_witness :
  exists m1,
    buffer_mark_in_use (Some 11) demo_memory = Some (tt, m1)
    /\ descs m1 !! 11 = Some (mk_buffer 1064 64 false true)
    /\ forall pool_sp r m2,
         buffer_pool_acquire pool_sp m1 = Some (r, m2) ->
         r <> Some 11 /\ held 11 m2.
Proof.
  exact (proj1 (mark_in_use_withdraws demo_memory 11 (mk_buffer 1064 64 true true)
                  eq_refl) eq_refl).
Defined.

(** ** The context after [buffer_array_ctx_init] *)

Lemma init_cells_in_block size_bits n d a mb size count i :
  valid_block size_bits mb (count * size) -> 0 < size ->
  i < count -> i < N.of_nat n ->
  init_cells size_bits n d a mb 0 size !! (a + i)
  = Some (mk_buffer (mb + i * size) size true true).
Proof.
  intros [Hmb Hfit] Hsize Hi Hn. rewrite init_cells_inside by lia.
  rewrite (ptr_index_in_block size_bits mb count size i)
    by (first [split; assumption | assumption]).
  assert (Hnz : (mb + i * size =? NULL) = false)
    by (apply N.eqb_neq; unfold NULL in *; lia).
  rewrite Hnz. rewrite (proj2 (N.eqb_neq size 0)) by lia. reflexivity.
Qed.

Lemma buffer_array_acquire_initialized m c cx :
  ctxs m !! c = Some cx -> ctx_is_initialized cx = true ->
  buffer_array_acquire (Some c) m = buffer_pool_acquire (Some (PoolOfCtx c)) m.
Proof.
  intros Hc Hi. unfold buffer_array_acquire, bind.
  now rewrite (ctx_unusable_at _ _ _ Hc), Hi.
Qed.

Lemma buffer_array_find_by_ptr_initialized m c cx p :
  ctxs m !! c = Some cx -> ctx_is_initialized cx = true ->
  buffer_array_find_by_ptr (Some c) p m = buffer_pool_find (Some (PoolOfCtx c)) p m.
Proof.
  intros Hc Hi. unfold buffer_array_find_by_ptr, bind.
  now rewrite (ctx_unusable_at _ _ _ Hc), Hi.
Qed.

Lemma buffer_array_release_by_ptr_initialized m c cx p :
  ctxs m !! c = Some cx -> ctx_is_initialized cx = true ->
  buffer_array_release_by_ptr (Some c) p m
  = buffer_pool_release_by_ptr (Some (PoolOfCtx c)) p m.
Proof.
  intros Hc Hi. unfold buffer_array_release_by_ptr, bind.
  now rewrite (ctx_unusable_at _ _ _ Hc), Hi.
Qed.

Lemma buffer_pool_acquire_ctxs pool_sp m r m' :
  buffer_pool_acquire pool_sp m = Some (r, m') -> ctxs m' = ctxs m.
Proof.
  intros H. apply buffer_pool_acquire_inv in H as [[_ ->]|(d & _ & _ & Hf)];
    [reflexivity|]. now apply flips_pools_ctxs in Hf.
Qed.

Lemma ctx_acquire_many_initialized k : forall m c cx,
  ctxs m !! c = Some cx -> ctx_is_initialized cx = true ->
  ctx_acquire_many k (Some c) m = acquire_many k (Some (PoolOfCtx c)) m.
Proof.
  induction k as [|k IH]; intros m c cx Hc Hi; [reflexivity|].
  cbn [ctx_acquire_many acquire_many]. unfold bind at 1 3.
  rewrite (buffer_array_acquire_initialized _ _ _ Hc Hi).
  destruct (buffer_pool_acquire (Some (PoolOfCtx c)) m) as [[r m1]|] eqn:Hacq;
    [|reflexivity].
  apply buffer_pool_acquire_ctxs in Hacq.
  unfold bind. rewrite (IH m1 c cx) by (rewrite ?Hacq; assumption). reflexivity.
Qed.

(** X13: after [buffer_array_ctx_init], [count] calls of
    [buffer_array_acquire] hand out the descriptors of the chunks in
    address order (the [i]-th one has the backing pointer
    [memory_block + i * chunk_size]) and the next call returns [NULL]. *)
Theorem ctx_init_then_acquire_in_address_order (size_bits : N) (m : memory)
    (c : N) (cx : buffer_array_ctx_st) (a memory_block count chunk_size : N) :
  ctxs m !! c = Some cx -> allocated m a count ->
  valid_block size_bits memory_block (count * chunk_size) ->
  0 < count -> 0 < chunk_size ->
  exists m1 m2,
    buffer_array_ctx_init size_bits (Some c) (Some a) memory_block count chunk_size m
    = Some (tt, m1)
    /\ ctx_acquire_many (S (N.to_nat count)) (Some c) m1
       = Some ((Some <$> cells a 0 (N.to_nat count)) ++ [None], m2)
    /\ forall i, i < count ->
         cells a 0 (N.to_nat count) !! N.to_nat i = Some (a + i)
         /\ (data_u8p <$> descs m1 !! (a + i)) = Some (memory_block + i * chunk_size).
Proof.
  intros Hc Hal Hblock Hcount Hsize.
  pose proof (buffer_array_ctx_init_result size_bits m c cx a memory_block count
                chunk_size Hc Hal (proj1 Hblock) ltac:(lia) ltac:(lia)) as Hinit.
  set (cx1 := mk_ctx (mk_pool (Some a) count true) (Some a) memory_block count
                chunk_size true) in *.
  set (m1 := {| descs := init_cells size_bits (N.to_nat count) (descs m) a
                           memory_block 0 chunk_size;
                pools := pools m; ctxs := <[c := cx1]> (ctxs m) |}) in *.
  assert (Hc1 : ctxs m1 !! c = Some cx1) by (simpl; apply lookup_insert_eq).
  assert (Hcell : forall i, i < count ->
            descs m1 !! (a + i)
            = Some (mk_buffer (memory_block + i * chunk_size) chunk_size true true)).
  { intros i Hi. simpl. apply (init_cells_in_block _ _ _ _ _ _ count); auto; lia. }
  destruct (acquire_many_from (PoolOfCtx c) (pool_s cx1) a (N.to_nat count) 0 m1)
    as [m2 Hm2].
  - simpl. now rewrite lookup_insert_eq.
  - reflexivity.
  - reflexivity.
  - simpl. lia.
  - intros i Hi. rewrite (Hcell i Hi). now eexists.
  - intros i Hi. lia.
  - intros i Hi. simpl in Hi. rewrite (Hcell i) by lia. reflexivity.
  - exists m1, m2. split; [exact Hinit|]. split.
    + rewrite (ctx_acquire_many_initialized _ _ _ _ Hc1 eq_refl). exact Hm2.
    + intros i Hi. split; [|now rewrite (Hcell i Hi)].
      clear -Hi. assert (Hgen : forall k j i, (i < k)%nat ->
                 cells a j k !! i = Some (a + (j + N.of_nat i))).
      { induction k as [|k IH]; intros j i0 Hlt; [lia|].
        destruct i0 as [|i0]; cbn [cells].
        - simpl. f_equal. lia.
        - simpl. rewrite IH by lia. f_equal. lia. }
      rewrite Hgen by lia. f_equal. lia.
Qed.

Lemma ring_allocated : allocated ring_memory 40 4.
Proof.
  intros i Hi.
  assert (i = 0 \/ i = 1 \/ i = 2 \/ i = 3) as [-> | [-> | [-> | ->]]] by lia;
    vm_compute; eauto.
Qed.

Lemma ring_block : valid_block 32 4096 (4 * 64).
Proof. split; [discriminate | vm_compute; discriminate]. Qed.

Lemma ctx_init_then_acquire_in_address_order_witness :
  exists m1 m2,
    buffer_array_ctx_init 32 (Some 7) (Some 40) 4096 4 64 ring_memory = Some (tt, m1)
    /\ ctx_acquire_many 5 (Some 7) m1
       = Some ([Some 40; Some 41; Some 42; Some 43; None], m2).
Proof.
  destruct (ctx_init_then_acquire_in_address_order 32 ring_memory 7 zero_ctx 40 4096 4 64
              eq_refl ring_allocated ring_block eq_refl eq_refl)
    as (m1 & m2 & Hinit & Hacq & _).
  exists m1, m2. split; [exact Hinit | exact Hacq].
Defined.

(** X14: after [buffer_array_ctx_init], [buffer_array_find_by_ptr] maps the
    start address of chunk [i] to descriptor [i] and every other address,
    also one inside a chunk, to [NULL]; [buffer_array_release_by_ptr] on
    such an address returns false and changes nothing. *)
Theorem ctx_init_then_find_only_chunk_starts (size_bits : N) (m : memory)
    (c : N) (cx : buffer_array_ctx_st) (a memory_block count chunk_size : N) :
  ctxs m !! c = Some cx -> allocated m a count ->
  valid_block size_bits memory_block (count * chunk_size) ->
  0 < count -> 0 < chunk_size ->
  exists m1,
    buffer_array_ctx_init size_bits (Some c) (Some a) memory_block count chunk_size m
    = Some (tt, m1)
    /\ (forall i, i < count ->
          buffer_array_find_by_ptr (Some c) (memory_block + i * chunk_size) m1
          = Some (Some (a + i), m1))
    /\ (forall p, (forall i, i < count -> p <> memory_block + i * chunk_size) ->
          buffer_array_find_by_ptr (Some c) p m1 = Some (None, m1)
          /\ buffer_array_release_by_ptr (Some c) p m1 = Some (false, m1)).
Proof.
  intros Hc Hal Hblock Hcount Hsize.
  pose proof (buffer_array_ctx_init_result size_bits m c cx a memory_block count
                chunk_size Hc Hal (proj1 Hblock) ltac:(lia) ltac:(lia)) as Hinit.
  set (pl1 := mk_pool (Some a) count true) in *.
  set (cx1 := mk_ctx pl1 (Some a) memory_block count chunk_size true) in *.
  set (m1 := {| descs := init_cells size_bits (N.to_nat count) (descs m) a
                           memory_block 0 chunk_size;
                pools := pools m; ctxs := <[c := cx1]> (ctxs m) |}) in *.
  assert (Hc1 : ctxs m1 !! c = Some cx1) by (simpl; apply lookup_insert_eq).
  assert (Hl1 : lookup_pool (PoolOfCtx c) m1 = Some pl1)
    by (simpl; now rewrite lookup_insert_eq).
  assert (Hcell : forall i, i < count ->
            descs m1 !! (a + i)
            = Some (mk_buffer (memory_block + i * chunk_size) chunk_size true true)).
  { intros i Hi. simpl. apply (init_cells_in_block _ _ _ _ _ _ count); auto; lia. }
  assert (Hv : pool_valid pl1 = true)
    by (unfold pool_valid; simpl; now apply N.ltb_lt).
  assert (Hs : pool_safe m1 pl1).
  { intros _ a' [= <-] i Hi. rewrite (Hcell i Hi). now eexists. }
  exists m1. split; [exact Hinit|]. split.
  - intros i Hi.
    rewrite (buffer_array_find_by_ptr_initialized _ _ _ _ Hc1 eq_refl).
    rewrite (buffer_pool_find_result _ _ _ _ Hl1 Hs). do 2 f_equal.
    apply (find_result_lowest m1 pl1 a); try assumption; try reflexivity.
    + destruct Hblock as [Hmb _]. unfold NULL in *. lia.
    + rewrite (Hcell i Hi). simpl. apply N.eqb_refl.
    + intros k Hk. rewrite (Hcell k) by lia. simpl. apply N.eqb_neq.
      assert (k * chunk_size < i * chunk_size) by (apply N.mul_lt_mono_pos_r; lia).
      lia.
  - intros p Hp.
    assert (Hnone : find_result m1 pl1 p = None).
    { apply find_result_none. right; right. intros a' [= <-] i Hi.
      rewrite (Hcell i Hi). simpl. apply N.eqb_neq. intros Heq.
      now apply (Hp i Hi). }
    split.
    + rewrite (buffer_array_find_by_ptr_initialized _ _ _ _ Hc1 eq_refl).
      rewrite (buffer_pool_find_result _ _ _ _ Hl1 Hs). now rewrite Hnone.
    + rewrite (buffer_array_release_by_ptr_initialized _ _ _ _ Hc1 eq_refl).
      rewrite (buffer_pool_release_result _ _ _ _ Hl1 Hs). now rewrite Hnone.
Qed.

Lemma ctx_init_then_find_only_chunk_starts_witness :
  exists m1,
    buffer_array_ctx_init 32 (Some 7) (Some 40) 4096 4 64 ring_memory = Some (tt, m1)
    /\ buffer_array_find_by_ptr (Some 7) (4096 + 2 * 64) m1 = Some (Some 42, m1)
    /\ buffer_array_find_by_ptr (Some 7) (4096 + 130) m1 = Some (None, m1)
    /\ buffer_array_release_by_ptr (Some 7) (4096 + 130) m1 = Some (false, m1).
Proof.
  destruct (ctx_init_then_find_only_chunk_starts 32 ring_memory 7 zero_ctx 40 4096 4 64
              eq_refl ring_allocated ring_block eq_refl eq_refl)
    as (m1 & Hinit & Hstart & Hother).
  exists m1. split; [exact Hinit|]. split; [exact (Hstart 2 eq_refl)|].
  apply Hother. intros i Hi.
  assert (i = 0 \/ i = 1 \/ i = 2 \/ i = 3) as [-> | [-> | [-> | ->]]] by lia;
    discriminate.
Defined.

(** X15: [buffer_array_ctx_init] with a [NULL] context, a [NULL] array, a
    [NULL] memory block, a zero count or a zero size writes nothing at
    all, whatever the memory and whatever state the context is in (an
    initialized context stays bound as it was); on a context that was not
    initialized, [buffer_array_acquire] after such a rejected call still
    returns [NULL]. *)
Theorem ctx_init_rejects_without_effect (size_bits : N) (m : memory) :
  (forall ctx_sp array memory_block count size,
     ctx_sp = None \/ array = None \/ memory_block = NULL \/ count = 0 \/ size = 0 ->
     buffer_array_ctx_init size_bits ctx_sp array memory_block count size m
     = Some (tt, m))
  /\ (forall c cx array memory_block count size,
        ctxs m !! c = Some cx -> ctx_is_initialized cx = false ->
        array = None \/ memory_block = NULL \/ count = 0 \/ size = 0 ->
        (buffer_array_ctx_init size_bits (Some c) array memory_block count size ;;
         buffer_array_acquire (Some c)) m = Some (None, m)).
Proof.
  assert (Hrej : forall ctx_sp array memory_block count size,
             ctx_sp = None \/ array = None \/ memory_block = NULL
             \/ count = 0 \/ size = 0 ->
             buffer_array_ctx_init size_bits ctx_sp array memory_block count size m
             = Some (tt, m)).
  { intros ctx_sp array memory_block count size Hbad.
    unfold buffer_array_ctx_init.
    destruct Hbad as [-> | [-> | [-> | [-> | ->]]]]; simpl;
      rewrite ?orb_true_r; reflexivity. }
  split; [exact Hrej|].
  intros c cx array memory_block count size Hc Hi Hbad.
  unfold bind at 1. rewrite Hrej by (right; exact Hbad).
  unfold buffer_array_acquire, bind. now rewrite (ctx_unusable_at _ _ _ Hc), Hi.
Qed.

Lemma ctx_init_rejects_without_effect_witness :
  buffer_array_ctx_init 32 (Some 5) (Some 10) 1000 0 64 demo_memory
  = Some (tt, demo_memory)
  /\ buffer_array_ctx_init 32 (Some 7) (Some 40) 4096 4 0 ring_memory
     = Some (tt, ring_memory)
  /\ (buffer_array_ctx_init 32 (Some 7) None 4096 4 64 ;;
      buffer_array_acquire (Some 7)) ring_memory = Some (None, ring_memory).
Proof.
  split; [|split].
  - apply (proj1 (ctx_init_rejects_without_effect 32 demo_memory)).
    right; right; right; left. reflexivity.
  - apply (proj1 (ctx_init_rejects_without_effect 32 ring_memory)).
    right; right; right; right. reflexivity.
  - apply (proj2 (ctx_init_rejects_without_effect 32 ring_memory) 7 zero_ctx);
      [reflexivity | reflexivity | left; reflexivity].
Defined.



(** ** Exhausting and resetting a pool *)

(** X6: [buffer_pool_mark_all_free] resets a pool whose descriptors are all
    initialized: whatever was in use before, the next [count] calls of
    [buffer_pool_acquire] succeed, in index order, and the one after them
    returns [NULL]. *)
Theorem mark_all_free_then_acquire_all (m : memory) (r : pool_ref)
    (pl : buffer_pool_st) (a : N) :
  lookup_pool r m = Some pl ->
  pool_is_initialized pl = true -> buffer_array_sa pl = Some a ->
  0 < buffer_count pl -> allocated m a (buffer_count pl) ->
  (forall i b, i < buffer_count pl -> descs m !! (a + i) = Some b ->
               is_initialized b = true) ->
  exists m1 m2,
    buffer_pool_mark_all_free (Some r) m = Some (tt, m1)
    /\ acquire_many (S (N.to_nat (buffer_count pl))) (Some r) m1
       = Some ((Some <$> cells a 0 (N.to_nat (buffer_count pl))) ++ [None], m2).
Proof.
  intros Hl Hi Ha Hc Hal Hinit.
  pose proof (pool_valid_intro _ _ Hi Ha Hc) as Hv.
  set (m1 := set_descs m (free_cells (N.to_nat (buffer_count pl)) (descs m) a 0)).
  assert (Hcell : forall i, i < buffer_count pl ->
            exists b, descs m1 !! (a + i) = Some (with_is_available true b)
                      /\ is_initialized b = true).
  { intros i Hlt. destruct (Hal i Hlt) as [b Hb]. exists b.
    unfold m1. simpl. rewrite free_cells_inside by lia. rewrite Hb. simpl.
    unfold freed. rewrite (Hinit i b Hlt Hb). auto. }
  destruct (acquire_many_from r pl a (N.to_nat (buffer_count pl)) 0 m1)
    as [m2 Hm2]; try assumption; try lia.
  - intros i Hlt. destruct (Hcell i Hlt) as (b & -> & _). now eexists.
  - intros i Hlt. destruct (Hcell i ltac:(lia)) as (b & -> & Hb). simpl.
    now rewrite Hb.
  - exists m1, m2. split; [|exact Hm2].
    now apply (buffer_pool_mark_all_free_valid _ _ _ _ Hl Hv Ha).
Qed.

Lemma mark_all_free_then_acquire_all_witness :
  exists m1 m2,
    buffer_pool_mark_all_free (Some (PoolObj 1)) demo_memory = Some (tt, m1)
    /\ acquire_many 4 (Some (PoolObj 1)) m1
       = Some ([Some 10; Some 11; Some 12; None], m2).
Proof.
  apply (mark_all_free_then_acquire_all demo_memory (PoolObj 1) demo_pool 10).
  - reflexivity.
  - reflexivity.
  - reflexivity.
  - reflexivity.
  - exact demo_allocated.
  - intros i b Hi.
    assert (i = 0 \/ i = 1 \/ i = 2) as [-> | [-> | ->]] by (simpl in Hi; lia);
      intros [= <-]; reflexivity.
Defined.

(** The memory after [k] acquisitions from index [j] on. *)
Lemma acquire_many_takes r pl a k : forall j m,
  lookup_pool r m = Some pl ->
  pool_is_initialized pl = true -> buffer_array_sa pl = Some a ->
  j + N.of_nat k <= buffer_count pl ->
  allocated m a (buffer_count pl) ->
  (forall i, i < j -> is_free (descs m !! (a + i)) = false) ->
  (forall i, j <= i < j + N.of_nat k -> is_free (descs m !! (a + i)) = true) ->
  exists m',
    acquire_many k (Some r) m = Some (Some <$> cells a j k, m')
    /\ pools m' = pools m /\ ctxs m' = ctxs m
    /\ (forall i, j <= i < j + N.of_nat k ->
          descs m' !! (a + i) = with_is_available false <$> descs m !! (a + i))
    /\ (forall x, (forall i, j <= i < j + N.of_nat k -> x <> a + i) ->
          descs m' !! x = descs m !! x).
Proof.
  induction k as [|k IH]; intros j m Hl Hi Ha Hc Hal Hlow Hhigh.
  - exists m. split; [reflexivity|]. split; [reflexivity|]. split; [reflexivity|].
    split; [intros i Hr; lia | reflexivity].
  - assert (Hv : pool_valid pl = true) by (apply (pool_valid_intro _ a); auto; lia).
    destruct (is_free_true _ (Hhigh j ltac:(lia))) as (b & Hb & Hbi & Hba).
    set (m1 := set_descs m (<[a + j := with_is_available false b]> (descs m))).
    assert (Hacq : buffer_pool_acquire (Some r) m = Some (Some (a + j), m1)).
    { rewrite (buffer_pool_acquire_valid _ _ _ _ Hl Hv Ha).
      apply acquire_scan_first; try assumption; try lia.
      - intros i Hr. apply Hal. lia.
      - intros i Hr. apply Hlow. lia. }
    destruct (IH (j + 1) m1) as (m' & Hm' & Hp & Hx & Hin & Hout);
      try assumption; try lia.
    + now apply allocated_set_available.
    + intros i Hr. unfold m1. simpl. destruct (N.eq_dec i j) as [->|Hne].
      * rewrite lookup_insert_eq. simpl. now rewrite andb_false_r.
      * rewrite lookup_insert_ne by lia. apply Hlow. lia.
    + intros i Hr. unfold m1. simpl. rewrite lookup_insert_ne by lia.
      apply Hhigh. lia.
    + exists m'. split.
      { cbn [acquire_many cells fmap list_fmap]. unfold bind at 1. rewrite Hacq.
        unfold bind at 1. rewrite Hm'. reflexivity. }
      split; [exact Hp|]. split; [exact Hx|]. split.
      * intros i Hr. destruct (N.eq_dec i j) as [->|Hne].
        -- rewrite Hout by (intros i' Hi'; lia). unfold m1. simpl.
           rewrite lookup_insert_eq, Hb. reflexivity.
        -- rewrite Hin by lia. unfold m1. simpl.
           rewrite lookup_insert_ne by lia. reflexivity.
      * intros x Hxr. rewrite Hout by (intros i' Hi'; apply Hxr; lia).
        unfold m1. simpl. apply lookup_insert_ne.
        intros Heq. apply (Hxr j); [lia | now symmetry].
Qed.

(** X7: handing out every descriptor of a pool whose descriptors are all free
    and then calling [buffer_pool_mark_all_free] gives back the memory
    one started from. *)
Theorem exhaust_then_mark_all_free_restores (m : memory) (r : pool_ref)
    (pl : buffer_pool_st) (a : N) :
  lookup_pool r m = Some pl ->
  pool_is_initialized pl = true -> buffer_array_sa pl = Some a ->
  0 < buffer_count pl -> allocated m a (buffer_count pl) ->
  (forall i, i < buffer_count pl -> is_free (descs m !! (a + i)) = true) ->
  exists m1,
    acquire_many (N.to_nat (buffer_count pl)) (Some r) m
    = Some (Some <$> cells a 0 (N.to_nat (buffer_count pl)), m1)
    /\ (forall i, i < buffer_count pl -> held (a + i) m1)
    /\ buffer_pool_mark_all_free (Some r) m1 = Some (tt, m).
Proof.
  intros Hl Hi Ha Hc Hal Hfree.
  pose proof (pool_valid_intro _ _ Hi Ha Hc) as Hv.
  destruct (acquire_many_takes r pl a (N.to_nat (buffer_count pl)) 0 m)
    as (m1 & Hrun & Hp & Hx & Hin & Hout); try assumption; try lia.
  { intros i Hr. apply Hfree. lia. }
  assert (Hcell : forall i, i < buffer_count pl ->
            exists b, descs m !! (a + i) = Some b
                      /\ is_initialized b = true /\ is_available b = true
                      /\ descs m1 !! (a + i) = Some (with_is_available false b)).
  { intros i Hlt. destruct (is_free_true _ (Hfree i Hlt)) as (b & Hb & Hbi & Hba).
    exists b. rewrite Hin by lia. rewrite Hb. auto. }
  exists m1. split; [exact Hrun|]. split.
  - intros i Hlt. destruct (Hcell i Hlt) as (b & _ & Hbi & _ & H1).
    exists (with_is_available false b). auto.
  - assert (Hal1 : allocated m1 a (buffer_count pl)).
    { intros i Hlt. destruct (Hcell i Hlt) as (b & _ & _ & _ & ->). now eexists. }
    assert (Hl1 : lookup_pool r m1 = Some pl)
      by (destruct r; simpl in *; congruence).
    rewrite (buffer_pool_mark_all_free_valid _ _ _ _ Hl1 Hv Ha Hal1).
    do 2 f_equal. destruct m as [dm pm cm], m1 as [d1 p1 c1].
    unfold set_descs. simpl in *. subst p1 c1. f_equal.
    apply map_eq. intros x.
    destruct (decide (a <= x < a + buffer_count pl)) as [Hr|Hr].
    + replace x with (a + (x - a)) by lia.
      destruct (Hcell (x - a) ltac:(lia)) as (b & Hb & Hbi & Hba & H1).
      rewrite free_cells_inside by lia. rewrite H1, Hb. simpl.
      unfold freed. simpl. rewrite Hbi.
      now rewrite (with_is_available_restore _ Hba).
    + rewrite free_cells_outside by (intros i Hlt; lia).
      apply Hout. intros i Hlt. lia.
Qed.

Lemma exhaust_then_mark_all_free_restores_witness :
  exists m1,
    acquire_many 2 (Some (PoolObj 4)) fresh_memory = Some ([Some 30; Some 31], m1)
    /\ (forall i, i < 2 -> held (30 + i) m1)
    /\ buffer_pool_mark_all_free (Some (PoolObj 4)) m1 = Some (tt, fresh_memory).
Proof.
  apply (exhaust_then_mark_all_free_restores fresh_memory (PoolObj 4) fresh_pool 30).
  - reflexivity.
  - reflexivity.
  - reflexivity.
  - reflexivity.
  - exact fresh_allocated.
  - intros i Hi. assert (i = 0 \/ i = 1) as [-> | ->] by (simpl in Hi; lia); reflexivity.
Defined.

(** ** What client traffic leaves alone *)

Lemma same_but_availability_trans m1 m2 m3 :
  same_but_availability m1 m2 -> same_but_availability m2 m3 ->
  same_but_availability m1 m3.
Proof.
  intros (Hp1 & Hc1 & Hd1) (Hp2 & Hc2 & Hd2).
  split; [congruence|]. split; [congruence|].
  now apply (cells_agree_trans m1 m2 m3).
Qed.

Lemma run_ops_same_but_availability os : forall m rs m',
  run_ops os m = Some (rs, m') ->
  Forall (fun o => is_pool_init o = false) os ->
  same_but_availability m m'.
Proof.
  induction os as [|o os IH]; intros m rs m' H Hall.
  - apply ret_inv in H as [_ ->]. apply same_but_availability_refl.
  - apply run_ops_cons_inv in H as (r & m1 & rs' & Ho & Hos & _).
    apply Forall_cons in Hall as [Hno Hall].
    apply (same_but_availability_trans m m1 m').
    + apply (run_op_same_but_availability _ _ _ _ Ho).
      intros p a n ->. discriminate.
    + now apply (IH m1 rs').
Qed.

(** X17: acquisitions, releases and flag changes, in any number and order,
    leave the pointer-to-descriptor mapping alone: after any sequence of
    calls without [buffer_pool_init], [buffer_pool_find] returns for every
    pointer what it returned before, every pool and context object is
    unchanged, and no descriptor has appeared or gone. *)
Theorem find_stable_under_traffic (os : list op) (m m' : memory)
    (rs : list result) (r : pool_ref) (pl : buffer_pool_st) (p : N) :
  run_ops os m = Some (rs, m') ->
  Forall (fun o => is_pool_init o = false) os ->
  lookup_pool r m = Some pl -> pool_safe m pl ->
  exists res,
    buffer_pool_find (Some r) p m = Some (res, m)
    /\ buffer_pool_find (Some r) p m' = Some (res, m')
    /\ pools m' = pools m /\ ctxs m' = ctxs m
    /\ forall x, is_Some (descs m' !! x) <-> is_Some (descs m !! x).
Proof.
  intros Hrun Hall Hl Hs.
  pose proof (run_ops_same_but_availability _ _ _ _ Hrun Hall) as Hsame.
  exists (find_result m pl p).
  split; [now apply buffer_pool_find_result|]. split.
  - rewrite <- (find_result_ext m m' pl p)
      by (intros x; now apply same_but_availability_matches).
    apply buffer_pool_find_result.
    + now rewrite (same_but_availability_lookup_pool _ _ _ Hsame).
    + intros Hv a Ha. eapply same_but_availability_allocated; eauto.
  - destruct Hsame as (Hp & Hc & Hd). split; [now symmetry|]. split; [now symmetry|].
    intros x. specialize (Hd x).
    destruct (descs m !! x), (descs m' !! x); try discriminate;
      split; intros [y Hy]; try discriminate; now eexists.
Qed.

Lemma find_stable_under_traffic_witness :
  exists res m',
    buffer_pool_find (Some (PoolObj 1)) 1128 demo_memory = Some (res, demo_memory)
    /\ buffer_pool_find (Some (PoolObj 1)) 1128 m' = Some (res, m')
    /\ pools m' = pools demo_memory /\ ctxs m' = ctxs demo_memory.
Proof.
  destruct (run_ops demo_trace demo_memory) as [[rs m']|] eqn:Hrun.
  - destruct (find_stable_under_traffic demo_trace demo_memory m' rs (PoolObj 1)
                demo_pool 1128 Hrun)
      as (res & H1 & H2 & Hp & Hc & _).
    + repeat constructor.
    + reflexivity.
    + exact demo_pool_safe.
    + exists res, m'. auto.
  - vm_compute in Hrun. discriminate.
Defined.

(** ** A descriptor without backing memory *)

(** X18: a descriptor that [buffer_init] bound to no memory and that
    [buffer_mark_free] then forced free is handed out like any other:
    when it is the lowest free descriptor of a valid pool,
    [buffer_pool_acquire] returns it, and [buffer_data] on the result
    gives the [NULL] pointer. *)
Theorem unbacked_descriptor_is_handed_out (m : memory) (r : pool_ref)
    (pl : buffer_pool_st) (a j : N) (b : buffer_st) (cap : N) :
  lookup_pool r m = Some pl ->
  pool_is_initialized pl = true -> buffer_array_sa pl = Some a ->
  allocated m a (buffer_count pl) ->
  j < buffer_count pl -> descs m !! (a + j) = Some b ->
  (forall i, i < j -> is_free (descs m !! (a + i)) = false) ->
  exists m1 m2 m3,
    buffer_init (Some (a + j)) NULL cap m = Some (tt, m1)
    /\ (forall x m', buffer_pool_acquire (Some r) m1 = Some (x, m') ->
          x <> Some (a + j))
    /\ buffer_mark_free (Some (a + j)) m1 = Some (tt, m2)
    /\ buffer_pool_acquire (Some r) m2 = Some (Some (a + j), m3)
    /\ buffer_data (Some (a + j)) true m3 = Some ((NULL, Some cap), m3).
Proof.
  intros Hl Hi Ha Hal Hj Hb Hlow.
  assert (Hv : pool_valid pl = true) by (apply (pool_valid_intro _ a); auto; lia).
  pose proof (buffer_init_at m (a + j) b NULL cap Hb) as Hinit. simpl in Hinit.
  set (b1 := mk_buffer NULL cap false true) in *.
  set (m1 := set_descs m (<[a + j := b1]> (descs m))) in *.
  assert (H1 : descs m1 !! (a + j) = Some b1) by (simpl; apply lookup_insert_eq).
  pose proof (buffer_mark_free_at m1 (a + j) b1 H1) as Hfree. simpl in Hfree.
  set (b2 := mk_buffer NULL cap true true).
  exists m1, (set_descs m (<[a + j := b2]> (descs m))).
  exists (set_descs m (<[a + j := with_is_available false b2]> (descs m))).
  split; [exact Hinit|]. split; [|split; [|split]].
  - intros x m' Hacq ->. apply buffer_pool_acquire_inv in Hacq
      as [[[=] _]|(d & [= <-] & Hf & _)].
    rewrite H1 in Hf. discriminate.
  - rewrite Hfree. unfold m1, set_descs. simpl. now rewrite insert_insert_eq.
  - set (m2 := set_descs m (<[a + j := b2]> (descs m))).
    assert (H2 : descs m2 !! (a + j) = Some b2) by (simpl; apply lookup_insert_eq).
    rewrite (buffer_pool_acquire_valid m2 r pl a Hl Hv Ha).
    rewrite (acquire_scan_first _ m2 a 0 j b2); try assumption; try reflexivity;
      try lia.
    + unfold m2, set_descs. simpl. now rewrite insert_insert_eq.
    + intros i Hr. simpl. rewrite lookup_insert_ne by lia. apply Hal. lia.
    + intros i Hr. simpl. rewrite lookup_insert_ne by lia. apply Hlow. lia.
  - erewrite buffer_data_at by (simpl; apply lookup_insert_eq). reflexivity.
Qed.

Lemma unbacked_descriptor_is_handed_out_witness :
  exists m1 m2 m3,
    buffer_init (Some 60) NULL 0 phantom_memory = Some (tt, m1)
    /\ (forall x m', buffer_pool_acquire (Some (PoolObj 9)) m1 = Some (x, m') ->
          x <> Some 60)
    /\ buffer_mark_free (Some 60) m1 = Some (tt, m2)
    /\ buffer_pool_acquire (Some (PoolObj 9)) m2 = Some (Some 60, m3)
    /\ buffer_data (Some 60) true m3 = Some ((NULL, Some 0), m3).
Proof.
  apply (unbacked_descriptor_is_handed_out phantom_memory (PoolObj 9) phantom_pool 60 0
           (mk_buffer NULL 0 false true) 0).
  - reflexivity.
  - reflexivity.
  - reflexivity.
  - intros i Hi. assert (i = 0) as -> by (simpl in Hi; lia). vm_compute. eauto.
  - reflexivity.
  - reflexivity.
  - intros i Hi. lia.
Defined.
